(** * music-diary: the memory list, its persistence and the creation sequence

    A shallow embedding of [src/App.tsx] (the React component that owns the
    memory list) and of the provider service ([analyzeMemory],
    [generateMemoryImage]), followed by the properties of the specification
    that were checked against it (Part XII) and by further properties of
    the code (Parts XIII to XIX).

    Conventions.
    - A JavaScript string is a [string] holding its UTF-8 bytes.
    - A JavaScript number that this program computes with is an integer
      (slider positions, calendar fields, millisecond instants) or [NaN];
      see [jsnum].
    - A handler runs to completion before the next one starts; the replies
      of the outside world during one run (clock, provider, storage) are the
      fields of a [World] record handed to the handler. *)

From Stdlib Require Import ZArith List String Ascii Bool Lia.
From Stdlib Require DecimalString DecimalPos DecimalZ.
From Stdlib Require Import Sorted Permutation.
Import ListNotations.

Local Open Scope string_scope.
Local Open Scope list_scope.
Local Open Scope Z_scope.

(* ================================================================== *)
(** * Part I. The platform: numbers, strings, arrays                    *)
(* ================================================================== *)

Module JS.

(** ** Numbers *)

(** The numbers of the program: integers, and the [NaN] that an invalid
    [Date] reports.  Outside the model: fractions, the infinities, and the
    rounding of integers beyond 2^53 (see [exact_numbers]). *)
Inductive jsnum : Type :=
| Num (z : Z)
| NaN.

Definition is_nan (x : jsnum) : bool :=
  match x with NaN => true | Num _ => false end.

(** [a - b] *)
Definition sub (a b : jsnum) : jsnum :=
  match a, b with
  | Num x, Num y => Num (x - y)
  | _, _ => NaN
  end.

(** [a === b] on numbers: [NaN] differs from everything, itself included. *)
Definition num_eq (a b : jsnum) : bool :=
  match a, b with
  | Num x, Num y => x =? y
  | _, _ => false
  end.

(** [a <= b] and [a < b]: false as soon as one side is [NaN]. *)
Definition num_le (a b : jsnum) : bool :=
  match a, b with
  | Num x, Num y => x <=? y
  | _, _ => false
  end.

Definition num_lt (a b : jsnum) : bool :=
  match a, b with
  | Num x, Num y => x <? y
  | _, _ => false
  end.

(** ** Strings *)

Definition str_rev (s : string) : string :=
  string_of_list_ascii (rev (list_ascii_of_string s)).

Definition byte_is (c : ascii) (n : N) : bool := (N_of_ascii c =? n)%N.

(** White space and line terminators of ECMAScript that take one byte in
    UTF-8: TAB, LF, VT, FF, CR, SP. *)
Definition ws1 (c : ascii) : bool :=
  let n := N_of_ascii c in
  ((9 <=? n) && (n <=? 13) || (n =? 32))%N.

(** ... two bytes: U+00A0 (C2 A0). *)
Definition ws2 (c1 c2 : ascii) : bool :=
  byte_is c1 194 && byte_is c2 160.

(** ... three bytes: U+1680 (E1 9A 80), U+2000..U+200A (E2 80 80..8A),
    U+2028, U+2029 (E2 80 A8, A9), U+202F (E2 80 AF), U+205F (E2 81 9F),
    U+3000 (E3 80 80), U+FEFF (EF BB BF). *)
Definition ws3 (c1 c2 c3 : ascii) : bool :=
  let n3 := N_of_ascii c3 in
  (byte_is c1 225 && byte_is c2 154 && byte_is c3 128)
  || (byte_is c1 226 && byte_is c2 128
      && ((128 <=? n3) && (n3 <=? 138) || (n3 =? 168) || (n3 =? 169) || (n3 =? 175))%N)
  || (byte_is c1 226 && byte_is c2 129 && byte_is c3 159)
  || (byte_is c1 227 && byte_is c2 128 && byte_is c3 128)
  || (byte_is c1 239 && byte_is c2 187 && byte_is c3 191).

(** [s.trimStart()] *)
Fixpoint trimStart (s : string) : string :=
  match s with
  | EmptyString => EmptyString
  | String c1 r1 =>
      if ws1 c1 then trimStart r1
      else match r1 with
           | EmptyString => s
           | String c2 r2 =>
               if ws2 c1 c2 then trimStart r2
               else match r2 with
                    | EmptyString => s
                    | String c3 r3 =>
                        if ws3 c1 c2 c3 then trimStart r3 else s
                    end
           end
  end.

(** [trimStart] on the reversed string: the same code points, their bytes
    met last-first. *)
Fixpoint trimStart_rev (s : string) : string :=
  match s with
  | EmptyString => EmptyString
  | String c1 r1 =>
      if ws1 c1 then trimStart_rev r1
      else match r1 with
           | EmptyString => s
           | String c2 r2 =>
               if ws2 c2 c1 then trimStart_rev r2
               else match r2 with
                    | EmptyString => s
                    | String c3 r3 =>
                        if ws3 c3 c2 c1 then trimStart_rev r3 else s
                    end
           end
  end.

(** [s.trimEnd()] *)
Definition trimEnd (s : string) : string :=
  str_rev (trimStart_rev (str_rev s)).

(** [s.trim()] *)
Definition trim (s : string) : string := trimEnd (trimStart s).

(** Truthiness of a string: [!s] is [true] exactly for the empty string. *)
Definition falsy (s : string) : bool :=
  match s with EmptyString => true | _ => false end.

(** [s.split(sep)] for a one-character separator: never the empty array. *)
Fixpoint split (sep : ascii) (s : string) : list string :=
  match s with
  | EmptyString => [EmptyString]
  | String c r =>
      if Ascii.eqb c sep then EmptyString :: split sep r
      else match split sep r with
           | [] => [String c EmptyString]
           | h :: t => String c h :: t
           end
  end.

Definition is_digit (c : ascii) : bool :=
  let n := N_of_ascii c in ((48 <=? n) && (n <=? 57))%N.

Fixpoint all_digits (s : string) : bool :=
  match s with
  | EmptyString => true
  | String c r => is_digit c && all_digits r
  end.

(** [Number(s)] on the strings a date field yields: a run of decimal digits
    is its value, the empty string is 0, anything else is taken as [NaN]
    (signs, fractions, exponents and radix prefixes are left out: a date
    control only ever holds the empty string or [yyyy-mm-dd]). *)
Definition Number (s : string) : jsnum :=
  if all_digits s then
    match DecimalString.NilEmpty.uint_of_string s with
    | Some u => Num (Z.of_N (N.of_uint u))
    | None => NaN
    end
  else NaN.

(** [n.toString()] for an integer: decimal digits, a minus sign in front
    of a negative one. *)
Definition toString (z : Z) : string :=
  DecimalString.NilZero.string_of_int (Z.to_int z).

(** ** Arrays *)

(** [arr.includes(x)] on an array of strings. *)
Definition includes (l : list string) (x : string) : bool :=
  existsb (String.eqb x) l.

(** [Array.prototype.sort(comparefn)].  The comparator's answer is read as
    ECMAScript's SortCompare reads it: below zero, above zero, and zero for
    everything else, [NaN] included.  The sort is stable, as the standard
    requires; it is written as an insertion from the right, which is the
    stable sorted permutation whenever the comparator is consistent.  With
    a comparator that is not (one that answers [NaN] for some pairs) the
    standard leaves the order to the implementation: the order computed
    here is then one permitted order, not necessarily the engine's, and
    only the permutation is common to all. *)
Section Sort.
Context {A : Type} (comparefn : A -> A -> jsnum).

(** [true] when [x] has to move behind [y]. *)
Definition comes_after (x y : A) : bool :=
  match comparefn x y with
  | Num v => 0 <? v
  | NaN => false
  end.

Fixpoint insert (x : A) (l : list A) : list A :=
  match l with
  | [] => [x]
  | y :: l' => if comes_after x y then y :: insert x l' else x :: l
  end.

Fixpoint sort (l : list A) : list A :=
  match l with
  | [] => []
  | x :: l' => insert x (sort l')
  end.
End Sort.

End JS.

Import JS.

(* ================================================================== *)
(** * Part II. The platform: [Date]                                     *)
(* ================================================================== *)

(** Time values are milliseconds since the epoch, UTC; the day and year
    arithmetic is the one of the ECMAScript standard (proleptic Gregorian
    calendar).  The local time zone is an offset [tza] in milliseconds
    (daylight-saving changes are not modelled). *)
Module JSDate.

Definition msPerDay : Z := 86400000.

Definition Day (t : Z) : Z := t / msPerDay.

Definition DaysInYear (y : Z) : Z :=
  if negb (y mod 4 =? 0) then 365
  else if negb (y mod 100 =? 0) then 366
  else if negb (y mod 400 =? 0) then 365
  else 366.

Definition InLeapYear (y : Z) : Z := DaysInYear y - 365.

Definition DayFromYear (y : Z) : Z :=
  365 * (y - 1970) + (y - 1969) / 4 - (y - 1901) / 100 + (y - 1601) / 400.

(** The year of day number [d]: the largest [y] with [DayFromYear y <= d];
    a first guess from the mean year length, put right by one step. *)
Definition YearFromDay (d : Z) : Z :=
  let y0 := 1970 + (400 * d) / 146097 in
  if d <? DayFromYear y0 then y0 - 1
  else if DayFromYear (y0 + 1) <=? d then y0 + 1
  else y0.

(** Number of days of the year that precede month [mn] (0 = January). *)
Definition DaysBeforeMonth (leap mn : Z) : Z :=
  match mn with
  | 0 => 0
  | 1 => 31
  | 2 => 59 + leap
  | 3 => 90 + leap
  | 4 => 120 + leap
  | 5 => 151 + leap
  | 6 => 181 + leap
  | 7 => 212 + leap
  | 8 => 243 + leap
  | 9 => 273 + leap
  | 10 => 304 + leap
  | _ => 334 + leap
  end.

Definition DayWithinYear (d : Z) : Z := d - DayFromYear (YearFromDay d).

Definition MonthFromDay (d : Z) : Z :=
  let leap := InLeapYear (YearFromDay d) in
  let n := DayWithinYear d in
  if n <? 31 then 0
  else if n <? 59 + leap then 1
  else if n <? 90 + leap then 2
  else if n <? 120 + leap then 3
  else if n <? 151 + leap then 4
  else if n <? 181 + leap then 5
  else if n <? 212 + leap then 6
  else if n <? 243 + leap then 7
  else if n <? 273 + leap then 8
  else if n <? 304 + leap then 9
  else if n <? 334 + leap then 10
  else 11.

Definition DateFromDay (d : Z) : Z :=
  DayWithinYear d
  - DaysBeforeMonth (InLeapYear (YearFromDay d)) (MonthFromDay d) + 1.

Definition WeekDay (d : Z) : Z := (d + 4) mod 7.

(** [MakeDay(year, month, date)] on integers: the month may lie outside
    0..11 and the date outside the month, both carry over. *)
Definition MakeDay (year month date : Z) : Z :=
  let ym := year + month / 12 in
  let mn := month mod 12 in
  DayFromYear ym + DaysBeforeMonth (InLeapYear ym) mn + date - 1.

(** [MakeFullYear]: a year 0..99 given to the constructor means 19xx. *)
Definition MakeFullYear (y : Z) : Z :=
  if (0 <=? y) && (y <=? 99) then 1900 + y else y.

Definition maxTime : Z := 8640000000000000.

Definition TimeClip (t : Z) : jsnum :=
  if maxTime <? Z.abs t then NaN else Num t.

(** A [Date] object is its time value. *)
Record Date : Type := mkDate { getTime : jsnum }.

(** [new Date(value)] for a number. *)
Definition ofTime (v : jsnum) : Date :=
  match v with
  | Num t => mkDate (TimeClip t)
  | NaN => mkDate NaN
  end.

Section Zone.
Variable tza : Z.

Definition LocalTime (t : Z) : Z := t + tza.
Definition UTC (t : Z) : Z := t - tza.

(** [new Date(year, month, date)] (local midnight of that day). *)
Definition ofYMD (year month date : jsnum) : Date :=
  match year, month, date with
  | Num y, Num m, Num dt =>
      mkDate (TimeClip (UTC (MakeDay (MakeFullYear y) m dt * msPerDay)))
  | _, _, _ => mkDate NaN
  end.

Definition local_field (f : Z -> Z) (d : Date) : jsnum :=
  match getTime d with
  | Num t => Num (f (Day (LocalTime t)))
  | NaN => NaN
  end.

Definition getFullYear : Date -> jsnum := local_field YearFromDay.
Definition getMonth : Date -> jsnum := local_field MonthFromDay.
Definition getDate : Date -> jsnum := local_field DateFromDay.
Definition getDay : Date -> jsnum := local_field WeekDay.

(** [a.toDateString() === b.toDateString()]: the same local calendar
    day, or both invalid (both print as Invalid Date). *)
Definition sameDateString (a b : Date) : bool :=
  match getTime a, getTime b with
  | Num x, Num y => Day (LocalTime x) =? Day (LocalTime y)
  | NaN, NaN => true
  | _, _ => false
  end.
End Zone.

End JSDate.

Import JSDate.

(* ================================================================== *)
(** * Part III. The platform: values and [JSON]                         *)
(* ================================================================== *)

(** What [JSON.parse] builds and [JSON.stringify] reads.  An object is the
    list of its properties in creation order; it stands for a JavaScript
    object when its keys are distinct ([DistinctKeys]).

    Limits of the model: a number literal with a fraction or an exponent
    is rejected, a unicode escape above U+007F is stored as the UTF-8
    bytes of that one code unit, and integer-like keys are not moved to
    the front of an object. *)
Module JSON.

#[local] Set Warnings "-register-all".

Inductive value : Type :=
| VNull
| VBool (b : bool)
| VNum (n : jsnum)
| VStr (s : string)
| VArr (l : list value)
| VObj (l : list (string * value)).

Definition dquote : ascii := "034"%char.
Definition backslash : ascii := "\"%char.

Definition str1 (c : ascii) : string := String c EmptyString.
Definition str2 (c d : ascii) : string := String c (String d EmptyString).

(** ** [JSON.stringify] *)

Definition hex_digit (n : N) : ascii :=
  if (n <? 10)%N then ascii_of_N (48 + n) else ascii_of_N (87 + n).

(** One character inside a quoted string (QuoteJSONString). *)
Definition escape_char (c : ascii) : string :=
  let n := N_of_ascii c in
  if (n =? 34)%N then str2 backslash dquote
  else if (n =? 92)%N then str2 backslash backslash
  else if (n =? 8)%N then str2 backslash "b"
  else if (n =? 12)%N then str2 backslash "f"
  else if (n =? 10)%N then str2 backslash "n"
  else if (n =? 13)%N then str2 backslash "r"
  else if (n =? 9)%N then str2 backslash "t"
  else if (n <? 32)%N then
    String backslash (String "u" (String "0" (String "0"
      (String (hex_digit (n / 16)) (String (hex_digit (n mod 16)) EmptyString)))))
  else str1 c.

Fixpoint escape (s : string) : string :=
  match s with
  | EmptyString => EmptyString
  | String c r => (escape_char c ++ escape r)%string
  end.

Definition quote (s : string) : string :=
  String dquote (escape s ++ str1 dquote)%string.

(** A number: its decimal digits; [NaN] is written as [null]. *)
Definition stringify_num (n : jsnum) : string :=
  match n with
  | Num z => toString z
  | NaN => "null"
  end.

(** Items separated by commas. *)
Fixpoint commas (items : list string) : string :=
  match items with
  | [] => EmptyString
  | [x] => x
  | x :: rest => (x ++ String "," (commas rest))%string
  end.

Fixpoint stringify (v : value) : string :=
  match v with
  | VNull => "null"
  | VBool true => "true"
  | VBool false => "false"
  | VNum n => stringify_num n
  | VStr s => quote s
  | VArr l => String "[" (commas (map stringify l) ++ "]")%string
  | VObj l =>
      String "{"
        (commas (map (fun kv => (quote (fst kv) ++ String ":" (stringify (snd kv)))%string) l)
         ++ "}")%string
  end.

(** ** [JSON.parse] *)

Definition is_json_ws (c : ascii) : bool :=
  let n := N_of_ascii c in
  ((n =? 32) || (n =? 9) || (n =? 10) || (n =? 13))%N.

Fixpoint skip_ws (s : string) : string :=
  match s with
  | String c r => if is_json_ws c then skip_ws r else s
  | EmptyString => EmptyString
  end.

Definition hex_value (c : ascii) : option N :=
  let n := N_of_ascii c in
  if ((48 <=? n) && (n <=? 57))%N then Some (n - 48)%N
  else if ((97 <=? n) && (n <=? 102))%N then Some (n - 87)%N
  else if ((65 <=? n) && (n <=? 70))%N then Some (n - 55)%N
  else None.

Definition hex4 (a b c d : ascii) : option N :=
  match hex_value a, hex_value b, hex_value c, hex_value d with
  | Some x, Some y, Some z, Some w => Some (((x * 16 + y) * 16 + z) * 16 + w)%N
  | _, _, _, _ => None
  end.

(** UTF-8 bytes of a code unit below 2^16. *)
Definition utf8 (n : N) : string :=
  if (n <? 128)%N then str1 (ascii_of_N n)
  else if (n <? 2048)%N then
    str2 (ascii_of_N (192 + n / 64)) (ascii_of_N (128 + n mod 64))
  else
    String (ascii_of_N (224 + n / 4096))
      (str2 (ascii_of_N (128 + (n / 64) mod 64)) (ascii_of_N (128 + n mod 64))).

(** What a backslash followed by [e] stands for (not the [u] form). *)
Definition unescape (e : ascii) : option ascii :=
  let n := N_of_ascii e in
  if (n =? 34)%N then Some dquote
  else if (n =? 92)%N then Some backslash
  else if (n =? 47)%N then Some "/"%char
  else if (n =? 98)%N then Some (ascii_of_N 8)
  else if (n =? 102)%N then Some (ascii_of_N 12)
  else if (n =? 110)%N then Some (ascii_of_N 10)
  else if (n =? 114)%N then Some (ascii_of_N 13)
  else if (n =? 116)%N then Some (ascii_of_N 9)
  else None.

(** The characters of a string literal, after its opening quote, up to
    and including the closing one. *)
Fixpoint parse_chars (s : string) : option (string * string) :=
  match s with
  | EmptyString => None
  | String c r =>
      if Ascii.eqb c dquote then Some (EmptyString, r)
      else if Ascii.eqb c backslash then
        match r with
        | EmptyString => None
        | String e r1 =>
            if Ascii.eqb e "u" then
              match r1 with
              | String h1 (String h2 (String h3 (String h4 r2))) =>
                  match hex4 h1 h2 h3 h4, parse_chars r2 with
                  | Some n, Some (t, rest) => Some ((utf8 n ++ t)%string, rest)
                  | _, _ => None
                  end
              | _ => None
              end
            else
              match unescape e, parse_chars r1 with
              | Some c', Some (t, rest) => Some (String c' t, rest)
              | _, _ => None
              end
        end
      else if (N_of_ascii c <? 32)%N then None
      else
        match parse_chars r with
        | Some (t, rest) => Some (String c t, rest)
        | None => None
        end
  end.

Fixpoint span_digits (s : string) : string * string :=
  match s with
  | EmptyString => (EmptyString, EmptyString)
  | String c r =>
      if is_digit c then
        let (ds, rest) := span_digits r in (String c ds, rest)
      else (EmptyString, s)
  end.

(** Does a fraction or an exponent follow? *)
Definition more_number (s : string) : bool :=
  match s with
  | String c _ => Ascii.eqb c "." || Ascii.eqb c "e" || Ascii.eqb c "E"
  | EmptyString => false
  end.

(** The digits of a number literal: at least one, no leading zero. *)
Definition parse_digits (s : string) : option (Z * string) :=
  let (ds, rest) := span_digits s in
  match DecimalString.NilEmpty.uint_of_string ds with
  | Some u =>
      if Decimal.uint_beq (Decimal.unorm u) u && negb (more_number rest)
      then Some (Z.of_N (N.of_uint u), rest)
      else None
  | None => None
  end.

(** [s] without its prefix [w]. *)
Fixpoint strip_prefix (w s : string) : option string :=
  match w with
  | EmptyString => Some s
  | String a w' =>
      match s with
      | String b s' => if Ascii.eqb a b then strip_prefix w' s' else None
      | EmptyString => None
      end
  end.

(** The rest of a keyword whose first letter has been read. *)
Definition keyword (w : string) (v : value) (s : string) : option (value * string) :=
  match strip_prefix w s with
  | Some rest => Some (v, rest)
  | None => None
  end.

(** Defining a property: a key met again keeps its place and takes the
    new value. *)
Fixpoint obj_set (o : list (string * value)) (k : string) (v : value)
  : list (string * value) :=
  match o with
  | [] => [(k, v)]
  | (k', v') :: o' =>
      if String.eqb k' k then (k', v) :: o' else (k', v') :: obj_set o' k v
  end.

Definition obj_of_members (ms : list (string * value)) : list (string * value) :=
  fold_left (fun o kv => obj_set o (fst kv) (snd kv)) ms [].

Fixpoint parse_value (fuel : nat) (s : string) : option (value * string) :=
  match fuel with
  | O => None
  | S f =>
      match skip_ws s with
      | EmptyString => None
      | String c r =>
          if Ascii.eqb c "n" then keyword "ull" VNull r
          else if Ascii.eqb c "t" then keyword "rue" (VBool true) r
          else if Ascii.eqb c "f" then keyword "alse" (VBool false) r
          else if Ascii.eqb c dquote then
            match parse_chars r with
            | Some (t, rest) => Some (VStr t, rest)
            | None => None
            end
          else if Ascii.eqb c "[" then
            match skip_ws r with
            | String c' r' =>
                if Ascii.eqb c' "]" then Some (VArr [], r')
                else
                  match parse_elements f r with
                  | Some (l, rest) => Some (VArr l, rest)
                  | None => None
                  end
            | EmptyString => None
            end
          else if Ascii.eqb c "{" then
            match skip_ws r with
            | String c' r' =>
                if Ascii.eqb c' "}" then Some (VObj [], r')
                else
                  match parse_members f r with
                  | Some (ms, rest) => Some (VObj (obj_of_members ms), rest)
                  | None => None
                  end
            | EmptyString => None
            end
          else if Ascii.eqb c "-" then
            match parse_digits r with
            | Some (n, rest) => Some (VNum (Num (- n)), rest)
            | None => None
            end
          else
            match parse_digits (String c r) with
            | Some (n, rest) => Some (VNum (Num n), rest)
            | None => None
            end
      end
  end
with parse_elements (fuel : nat) (s : string) : option (list value * string) :=
  match fuel with
  | O => None
  | S f =>
      match parse_value f s with
      | Some (v, r) =>
          match skip_ws r with
          | String c r' =>
              if Ascii.eqb c "," then
                match parse_elements f r' with
                | Some (l, rest) => Some (v :: l, rest)
                | None => None
                end
              else if Ascii.eqb c "]" then Some ([v], r')
              else None
          | EmptyString => None
          end
      | None => None
      end
  end
with parse_members (fuel : nat) (s : string)
  : option (list (string * value) * string) :=
  match fuel with
  | O => None
  | S f =>
      match skip_ws s with
      | String q r =>
          if Ascii.eqb q dquote then
            match parse_chars r with
            | Some (k, r1) =>
                match skip_ws r1 with
                | String c r2 =>
                    if Ascii.eqb c ":" then
                      match parse_value f r2 with
                      | Some (v, r3) =>
                          match skip_ws r3 with
                          | String c' r4 =>
                              if Ascii.eqb c' "," then
                                match parse_members f r4 with
                                | Some (ms, rest) => Some ((k, v) :: ms, rest)
                                | None => None
                                end
                              else if Ascii.eqb c' "}" then Some ([(k, v)], r4)
                              else None
                          | EmptyString => None
                          end
                      | None => None
                      end
                    else None
                | EmptyString => None
                end
            | None => None
            end
          else None
      | EmptyString => None
      end
  end.

(** [JSON.parse(text)]: [None] when it throws a SyntaxError. *)
Definition parse (text : string) : option value :=
  match parse_value (S (String.length text)) text with
  | Some (v, rest) => if falsy (skip_ws rest) then Some v else None
  | None => None
  end.

(** ** Shape of values *)

Fixpoint NoNaN (v : value) : Prop :=
  match v with
  | VNum NaN => False
  | VArr l => (fix all (l : list value) : Prop :=
                 match l with [] => True | x :: r => NoNaN x /\ all r end) l
  | VObj l => (fix all (l : list (string * value)) : Prop :=
                 match l with [] => True | x :: r => NoNaN (snd x) /\ all r end) l
  | _ => True
  end.

Fixpoint DistinctKeys (v : value) : Prop :=
  match v with
  | VArr l => (fix all (l : list value) : Prop :=
                 match l with [] => True | x :: r => DistinctKeys x /\ all r end) l
  | VObj l => NoDup (map fst l)
              /\ (fix all (l : list (string * value)) : Prop :=
                    match l with [] => True | x :: r => DistinctKeys (snd x) /\ all r end) l
  | _ => True
  end.

(** [obj.key]: [None] when the property is missing ([undefined]). *)
Fixpoint lookup (o : list (string * value)) (k : string) : option value :=
  match o with
  | [] => None
  | (k', v) :: o' => if String.eqb k' k then Some v else lookup o' k
  end.

End JSON.

Import JSON.

(* ================================================================== *)
(** * Part IV. The records ([types.ts])                                 *)
(* ================================================================== *)

Module Types.

Inductive Language : Type := ja | en.

Record UserSongInput : Type := mkSong { artist : string; title : string }.

Inductive Feedback : Type := correct | incorrect.

(** [analysis] is declared as an [AnalysisResult] (four strings); what is
    stored is the parsed provider reply as it came, or the fallback
    object, so the field holds a [value]. *)
Record Memory : Type := mkMemory {
  id : string;
  content : string;
  moodScore : Z;
  moodTags : list string;
  timestamp : jsnum;
  song : UserSongInput;
  analysis : value;
  imageUrl : string;
  userFeedback : option Feedback;
  language : Language
}.

Definition Language_str (l : Language) : string :=
  match l with ja => "ja" | en => "en" end.

Definition Feedback_str (f : Feedback) : string :=
  match f with correct => "correct" | incorrect => "incorrect" end.

(** The object that a record is at run time, its properties in the order
    of the literal that builds it in [handleAnalyze]. *)
Definition Memory_to_value (m : Memory) : value :=
  VObj [ ("id", VStr (id m));
         ("content", VStr (content m));
         ("moodScore", VNum (Num (moodScore m)));
         ("moodTags", VArr (map VStr (moodTags m)));
         ("timestamp", VNum (timestamp m));
         ("song", VObj [ ("title", VStr (title (song m)));
                         ("artist", VStr (artist (song m))) ]);
         ("analysis", analysis m);
         ("imageUrl", VStr (imageUrl m));
         ("userFeedback", match userFeedback m with
                          | None => VNull
                          | Some f => VStr (Feedback_str f)
                          end);
         ("language", VStr (Language_str (language m))) ].

Definition memories_to_value (ms : list Memory) : value :=
  VArr (map Memory_to_value ms).

(** Reading a run-time value back as a typed record: [None] when a field
    is missing or of another kind. *)
Definition as_string (v : option value) : option string :=
  match v with Some (VStr s) => Some s | _ => None end.

Definition as_number (v : option value) : option jsnum :=
  match v with Some (VNum n) => Some n | _ => None end.

Definition as_integer (v : option value) : option Z :=
  match v with Some (VNum (Num z)) => Some z | _ => None end.

Fixpoint as_strings (l : list value) : option (list string) :=
  match l with
  | [] => Some []
  | VStr s :: r =>
      match as_strings r with Some t => Some (s :: t) | None => None end
  | _ :: _ => None
  end.

Definition as_tags (v : option value) : option (list string) :=
  match v with Some (VArr l) => as_strings l | _ => None end.

Definition as_song (v : option value) : option UserSongInput :=
  match v with
  | Some (VObj o) =>
      match as_string (lookup o "title"), as_string (lookup o "artist") with
      | Some t, Some a => Some (mkSong a t)
      | _, _ => None
      end
  | _ => None
  end.

Definition as_feedback (v : option value) : option (option Feedback) :=
  match v with
  | Some VNull => Some None
  | Some (VStr s) =>
      if String.eqb s "correct" then Some (Some correct)
      else if String.eqb s "incorrect" then Some (Some incorrect)
      else None
  | _ => None
  end.

Definition as_language (v : option value) : option Language :=
  match v with
  | Some (VStr s) =>
      if String.eqb s "ja" then Some ja
      else if String.eqb s "en" then Some en
      else None
  | _ => None
  end.

Definition as_memory (v : value) : option Memory :=
  match v with
  | VObj o =>
      match as_string (lookup o "id"), as_string (lookup o "content"),
            as_integer (lookup o "moodScore"), as_tags (lookup o "moodTags"),
            as_number (lookup o "timestamp"), as_song (lookup o "song"),
            lookup o "analysis", as_string (lookup o "imageUrl"),
            as_feedback (lookup o "userFeedback"),
            as_language (lookup o "language") with
      | Some i, Some c, Some sc, Some tg, Some ts, Some sg, Some an, Some im,
        Some fb, Some lg => Some (mkMemory i c sc tg ts sg an im fb lg)
      | _, _, _, _, _, _, _, _, _, _ => None
      end
  | _ => None
  end.

Fixpoint as_memory_list (l : list value) : option (list Memory) :=
  match l with
  | [] => Some []
  | v :: r =>
      match as_memory v, as_memory_list r with
      | Some m, Some ms => Some (m :: ms)
      | _, _ => None
      end
  end.

Definition as_memories (v : value) : option (list Memory) :=
  match v with VArr l => as_memory_list l | _ => None end.

End Types.

Import Types.

(* ================================================================== *)
(** * Part V. The outside world                                         *)
(* ================================================================== *)

Module Env.

(** One generated part of an image reply: its [inlineData], when it has
    one, as (mimeType, data). *)
Definition Part : Type := option (string * string).

(** How a call of [ai.models.generateContent] ends. *)
Inductive Reply (A : Type) : Type :=
| Rejected
| Resolved (a : A).
Arguments Rejected {A}.
Arguments Resolved {A} a.

(** What the world answers during one run of a handler. *)
Record World : Type := mkWorld {
  tza : Z;                                   (* offset of the local zone, ms *)
  now : Z;                                   (* the clock: Date.now(), new Date() *)
  analysis_reply : Reply (option string);    (* response.text of the analysis call *)
  image_reply : Reply (option (list Part));  (* candidates?.[0]?.content?.parts *)
  setItem_throws : bool                      (* localStorage.setItem fails (quota) *)
}.

(** What the program does to the world, in order. *)
Inductive Event : Type :=
| CallAnalysis (diaryText : string) (song : UserSongInput) (moodScore : Z)
               (moodTags : list string) (date : Date) (lang : Language)
| CallImage (prompt : option value)
| ConsoleError (what : string)
| Alert (message : string).

Definition is_provider_call (e : Event) : bool :=
  match e with CallAnalysis _ _ _ _ _ _ | CallImage _ => true | _ => false end.

Definition is_alert (e : Event) : bool :=
  match e with Alert _ => true | _ => false end.

End Env.

Import Env.

(* ================================================================== *)
(** * Part VI. The provider service ([services/geminiService.ts])       *)
(* ================================================================== *)

Module Service.

(** The object returned when the analysis fails. *)
Definition fallback (lang : Language) : value :=
  let isJa := match lang with ja => true | en => false end in
  VObj [ ("inferredEmotion",
          VStr (if isJa then "解析不能" else "Analysis Failed"));
         ("analysisText",
          VStr (if isJa
                then "申し訳ありません、分析中にエラーが発生しました。もう少し時間を置いてから試してみてください。"
                else "Sorry, an error occurred during analysis. Please try again in a moment."));
         ("moodColor", VStr "#cbd5e1");
         ("imagePrompt", VStr "abstract minimalist geometric art, soft colors") ].

(** [analyzeMemory]: the request goes out; a rejected call, a reply without
    text and a text that does not parse all end in the [catch] block. *)
Definition analyzeMemory (w : World) (diaryText : string) (song : UserSongInput)
    (moodScore : Z) (moodTags : list string) (date : Date) (lang : Language)
  : value * list Event :=
  let call := CallAnalysis diaryText song moodScore moodTags date lang in
  let failed := (fallback lang, [call; ConsoleError "Error analyzing memory:"]) in
  match analysis_reply w with
  | Rejected => failed
  | Resolved None => failed
  | Resolved (Some text) =>
      if falsy text then failed
      else match JSON.parse text with
           | Some v => (v, [call])
           | None => failed
           end
  end.

(** The first part that carries inline data. *)
Fixpoint first_inline (parts : list Part) : option (string * string) :=
  match parts with
  | [] => None
  | Some d :: _ => Some d
  | None :: rest => first_inline rest
  end.

(** [generateMemoryImage]: a data URL, or the empty string on any failure. *)
Definition generateMemoryImage (w : World) (prompt : option value)
  : string * list Event :=
  let call := CallImage prompt in
  let failed := (EmptyString, [call; ConsoleError "Error generating image:"]) in
  match image_reply w with
  | Rejected => failed
  | Resolved None => failed
  | Resolved (Some parts) =>
      match first_inline parts with
      | Some (mimeType, data) =>
          (("data:" ++ mimeType ++ ";base64," ++ data)%string, [call])
      | None => failed
      end
  end.

End Service.

Import Service.

(* ================================================================== *)
(** * Part VII. The component ([App.tsx])                               *)
(* ================================================================== *)

Module App.

Inductive UIKey : Type := stepAnalyzing | stepImage | errorMsg.

Definition UI_TEXT (key : UIKey) (l : Language) : string :=
  match key, l with
  | stepAnalyzing, ja => "音楽と感情を分析しています..."
  | stepAnalyzing, en => "Analyzing music and emotions..."
  | stepImage, ja => "イメージを生成しています..."
  | stepImage, en => "Generating visual..."
  | errorMsg, ja => "エラーが発生しました。しばらくしてから再度お試しください。"
  | errorMsg, en => "An error occurred. Please try again later."
  end.

(** The state variables of the component, then what lies outside it: the
    slot of [localStorage] under STORAGE_KEY ([None]: no such key) and the
    events so far, oldest first. *)
Record State : Type := mkState {
  memories : list Memory;
  language : Language;
  recordDate : string;
  diaryText : string;
  songTitle : string;
  artistName : string;
  moodScore : Z;
  selectedTags : list string;
  isAnalyzing : bool;
  loadingStep : string;
  currentDate : Date;
  storage : option string;
  events : list Event
}.

Definition setMemories (x : list Memory) (s : State) : State :=
  mkState x (language s) (recordDate s) (diaryText s) (songTitle s)
    (artistName s) (moodScore s) (selectedTags s) (isAnalyzing s)
    (loadingStep s) (currentDate s) (storage s) (events s).

Definition setRecordDate (x : string) (s : State) : State :=
  mkState (memories s) (language s) x (diaryText s) (songTitle s)
    (artistName s) (moodScore s) (selectedTags s) (isAnalyzing s)
    (loadingStep s) (currentDate s) (storage s) (events s).

Definition setDiaryText (x : string) (s : State) : State :=
  mkState (memories s) (language s) (recordDate s) x (songTitle s)
    (artistName s) (moodScore s) (selectedTags s) (isAnalyzing s)
    (loadingStep s) (currentDate s) (storage s) (events s).

Definition setSongTitle (x : string) (s : State) : State :=
  mkState (memories s) (language s) (recordDate s) (diaryText s) x
    (artistName s) (moodScore s) (selectedTags s) (isAnalyzing s)
    (loadingStep s) (currentDate s) (storage s) (events s).

Definition setArtistName (x : string) (s : State) : State :=
  mkState (memories s) (language s) (recordDate s) (diaryText s) (songTitle s)
    x (moodScore s) (selectedTags s) (isAnalyzing s)
    (loadingStep s) (currentDate s) (storage s) (events s).

Definition setMoodScore (x : Z) (s : State) : State :=
  mkState (memories s) (language s) (recordDate s) (diaryText s) (songTitle s)
    (artistName s) x (selectedTags s) (isAnalyzing s)
    (loadingStep s) (currentDate s) (storage s) (events s).

Definition setSelectedTags (x : list string) (s : State) : State :=
  mkState (memories s) (language s) (recordDate s) (diaryText s) (songTitle s)
    (artistName s) (moodScore s) x (isAnalyzing s)
    (loadingStep s) (currentDate s) (storage s) (events s).

Definition setIsAnalyzing (x : bool) (s : State) : State :=
  mkState (memories s) (language s) (recordDate s) (diaryText s) (songTitle s)
    (artistName s) (moodScore s) (selectedTags s) x
    (loadingStep s) (currentDate s) (storage s) (events s).

Definition setLoadingStep (x : string) (s : State) : State :=
  mkState (memories s) (language s) (recordDate s) (diaryText s) (songTitle s)
    (artistName s) (moodScore s) (selectedTags s) (isAnalyzing s)
    x (currentDate s) (storage s) (events s).

Definition setStorage (x : option string) (s : State) : State :=
  mkState (memories s) (language s) (recordDate s) (diaryText s) (songTitle s)
    (artistName s) (moodScore s) (selectedTags s) (isAnalyzing s)
    (loadingStep s) (currentDate s) x (events s).

Definition emit (es : list Event) (s : State) : State :=
  mkState (memories s) (language s) (recordDate s) (diaryText s) (songTitle s)
    (artistName s) (moodScore s) (selectedTags s) (isAnalyzing s)
    (loadingStep s) (currentDate s) (storage s) (events s ++ es).

(** ** Statements that may throw *)

Inductive Completion (A : Type) : Type :=
| Normal (a : A)
| Thrown.
Arguments Normal {A} a.
Arguments Thrown {A}.

(** A computation over the state: what was written before an exception
    stays written. *)
Definition M (A : Type) : Type := State -> State * Completion A.

Definition ret {A : Type} (a : A) : M A := fun s => (s, Normal a).

Definition throw {A : Type} : M A := fun s => (s, Thrown).

Definition bind {A B : Type} (m : M A) (k : A -> M B) : M B :=
  fun s =>
    match m s with
    | (s', Normal a) => k a s'
    | (s', Thrown) => (s', Thrown)
    end.

Definition exec (f : State -> State) : M unit := fun s => (f s, Normal tt).

Notation "x <- m ;; k" := (bind m (fun x => k))
  (at level 61, m at next level, right associativity).
Notation "m ;;; k" := (bind m (fun _ => k))
  (at level 61, right associativity).

(** [try { body } catch { handler } finally { finalizer }] with a handler
    and a finalizer that do not throw. *)
Definition try_catch_finally (body : M unit) (handler finalizer : State -> State)
  : State -> State :=
  fun s =>
    match body s with
    | (s', Normal _) => finalizer s'
    | (s', Thrown) => finalizer (handler s')
    end.

(** A service call: its events happen, its result comes back. *)
Definition call {A : Type} (r : A * list Event) : M A :=
  fun s => (emit (snd r) s, Normal (fst r)).

(** [v.key] as a statement: a TypeError on [null]; on a value that is not
    an object the property is just missing. *)
Definition get_prop (v : value) (k : string) : M (option value) :=
  match v with
  | VNull => throw
  | VObj o => ret (lookup o k)
  | _ => ret None
  end.

(** ** Helpers *)

Definition padStart2 (s : string) : string :=
  if (String.length s <? 2)%nat then
    if (String.length s <? 1)%nat then "00" else String "0" s
  else s.

Definition num_str (n : jsnum) : string :=
  match n with Num z => toString z | NaN => "NaN" end.

Definition add1 (n : jsnum) : jsnum :=
  match n with Num z => Num (z + 1) | NaN => NaN end.

Definition getTodayString (w : World) : string :=
  let d := ofTime (Num (now w)) in
  let year := getFullYear (tza w) d in
  let month := padStart2 (num_str (add1 (getMonth (tza w) d))) in
  let day := padStart2 (num_str (getDate (tza w) d)) in
  (num_str year ++ "-" ++ month ++ "-" ++ day)%string.

(** ** Loading, at mount *)

(** The effect that runs once: the value handed to [setMemories], if any,
    and what is written to the console.  [JSON.parse] throwing is the
    [None] of [JSON.parse]; the [catch] block takes it from there. *)
Definition loadMemories (saved : option string)
  : Completion (option value * list Event) :=
  match saved with
  | None => Normal (None, [])
  | Some text =>
      if falsy text then Normal (None, [])
      else match JSON.parse text with
           | Some v => Normal (Some v, [])
           | None => Normal (None, [ConsoleError "Failed to load memories"])
           end
  end.

(** The list in memory after mount: it starts as the empty array and is
    replaced by whatever was loaded. *)
Definition memories_after_mount (saved : option string) : value :=
  match loadMemories saved with
  | Normal (Some v, _) => v
  | _ => VArr []
  end.

(** ** Saving, deleting, feedback *)

Definition setItem (w : World) (text : string) : M unit :=
  if setItem_throws w then throw else exec (setStorage (Some text)).

Definition saveMemories (w : World) (newMemories : list Memory) : M unit :=
  exec (setMemories newMemories) ;;;
  setItem w (JSON.stringify (memories_to_value newMemories)).

Definition deleteMemory (w : World) (id : string) : M unit :=
  fun s =>
    let updatedMemories :=
      filter (fun m => negb (String.eqb (Types.id m) id)) (memories s) in
    saveMemories w updatedMemories s.

Definition handleFeedback (w : World) (id : string) (isCorrect : bool) : M unit :=
  fun s =>
    let updatedMemories :=
      map (fun m =>
             if String.eqb (Types.id m) id then
               mkMemory (Types.id m) (content m) (Types.moodScore m) (moodTags m)
                 (timestamp m) (song m) (analysis m) (imageUrl m)
                 (Some (if isCorrect then correct else incorrect))
                 (Types.language m)
             else m)
          (memories s) in
    saveMemories w updatedMemories s.

(** ** Tags *)

Definition toggleTag (tagLabel : string) (s : State) : State :=
  if includes (selectedTags s) tagLabel then
    setSelectedTags
      (filter (fun t => negb (String.eqb t tagLabel)) (selectedTags s)) s
  else if (List.length (selectedTags s) <? 3)%nat then
    setSelectedTags (selectedTags s ++ [tagLabel]) s
  else s.

(** ** Creating a record *)

(** [new Date(year, month - 1, day)] from [recordDate.split('-').map(Number)];
    a missing element is [undefined], which counts as [NaN]. *)
Definition targetDate_of (w : World) (recordDate : string) : Date :=
  let nums := map Number (split "-" recordDate) in
  let year := nth 0 nums NaN in
  let month := nth 1 nums NaN in
  let day := nth 2 nums NaN in
  ofYMD (tza w) year (sub month (Num 1)) day.

(** The comparator given to [sort]: [b.timestamp - a.timestamp]. *)
Definition byTimestampDesc (a b : Memory) : jsnum :=
  sub (timestamp b) (timestamp a).

(** The object literal [newMemory]. *)
Definition newMemory_of (w : World) (snap : State) (targetDate : Date)
    (analysis : value) (imageUrl : string) : Memory :=
  mkMemory (toString (now w)) (diaryText snap) (moodScore snap)
    (selectedTags snap) (getTime targetDate)
    (mkSong (artistName snap) (songTitle snap))
    analysis imageUrl None (language snap).

(** The body of the [try] block; [snap] is the state the handler was
    created with, which is where it reads the state variables. *)
Definition handleAnalyze_body (w : World) (snap : State) : M unit :=
  let targetDate := targetDate_of w (recordDate snap) in
  analysis <- call (analyzeMemory w (diaryText snap)
                      (mkSong (artistName snap) (songTitle snap))
                      (moodScore snap) (selectedTags snap) targetDate
                      (language snap)) ;;
  exec (setLoadingStep (UI_TEXT stepImage (language snap))) ;;;
  prompt <- get_prop analysis "imagePrompt" ;;
  imageUrl <- call (generateMemoryImage w prompt) ;;
  let newMemory := newMemory_of w snap targetDate analysis imageUrl in
  let updatedMemories := sort byTimestampDesc (newMemory :: memories snap) in
  saveMemories w updatedMemories ;;;
  exec (setRecordDate (getTodayString w)) ;;;
  exec (setDiaryText EmptyString) ;;;
  exec (setSongTitle EmptyString) ;;;
  exec (setArtistName EmptyString) ;;;
  exec (setMoodScore 0) ;;;
  exec (setSelectedTags []).

Definition handleAnalyze (w : World) (s : State) : State :=
  if falsy (trim (songTitle s)) || falsy (trim (artistName s)) then s
  else
    try_catch_finally
      (handleAnalyze_body w s)
      (fun s' => emit [ConsoleError "error"; Alert (UI_TEXT errorMsg (language s))] s')
      (fun s' => setLoadingStep EmptyString (setIsAnalyzing false s'))
      (setLoadingStep (UI_TEXT stepAnalyzing (language s)) (setIsAnalyzing true s)).

(** ** Calendar *)

Definition getDaysInMonth (w : World) (date : Date) : jsnum :=
  getDate (tza w)
    (ofYMD (tza w) (getFullYear (tza w) date) (add1 (getMonth (tza w) date)) (Num 0)).

Definition getFirstDayOfMonth (w : World) (date : Date) : jsnum :=
  getDay (tza w)
    (ofYMD (tza w) (getFullYear (tza w) date) (getMonth (tza w) date) (Num 1)).

Definition getMemoriesForDate (w : World) (s : State) (day : Z) : list Memory :=
  filter (fun m =>
            let mDate := ofTime (timestamp m) in
            num_eq (getDate (tza w) mDate) (Num day)
            && num_eq (getMonth (tza w) mDate) (getMonth (tza w) (currentDate s))
            && num_eq (getFullYear (tza w) mDate) (getFullYear (tza w) (currentDate s)))
         (memories s).

Inductive Cell : Type :=
| EmptyCell (i : Z)
| DayCell (day : Z) (isToday : bool) (dayMemories : list Memory).

(** The values [from], [from + 1], ... that a counting loop visits while
    [i < bound] ([strict]) or [i <= bound]; none when the bound is [NaN]. *)
Definition loop_range (from : Z) (strict : bool) (bound : jsnum) : list Z :=
  match bound with
  | Num b =>
      let n := if strict then b - from else b - from + 1 in
      map (fun k => from + Z.of_nat k) (seq 0 (Z.to_nat n))
  | NaN => []
  end.

Definition renderCalendar (w : World) (s : State) : list Cell :=
  let daysInMonth := getDaysInMonth w (currentDate s) in
  let firstDay := getFirstDayOfMonth w (currentDate s) in
  map EmptyCell (loop_range 0 true firstDay)
  ++ map (fun day =>
            let dayMemories := getMemoriesForDate w s day in
            let checkDate :=
              ofYMD (tza w) (getFullYear (tza w) (currentDate s))
                (getMonth (tza w) (currentDate s)) (Num day) in
            let isToday := sameDateString (tza w) (ofTime (Num (now w))) checkDate in
            DayCell day isToday dayMemories)
         (loop_range 1 false daysInMonth).

(** ** A session *)

Definition initial (today : string) (cur : Date) : State :=
  mkState [] ja today EmptyString EmptyString EmptyString 0 [] false EmptyString
    cur None [].

(** What the user does; each action comes with the world's answers. *)
Inductive Action : Type :=
| Create (w : World)                       (* press the save button *)
| Delete (w : World) (id : string)
| SetFeedback (w : World) (id : string) (isCorrect : bool)
| FillForm (date title artist text : string) (mood : Z)  (* fill in the form *)
| ToggleTag (tagLabel : string)
| SetLanguage (l : Language).

Definition setLanguage (l : Language) (s : State) : State :=
  mkState (memories s) l (recordDate s) (diaryText s) (songTitle s)
    (artistName s) (moodScore s) (selectedTags s) (isAnalyzing s)
    (loadingStep s) (currentDate s) (storage s) (events s).

Definition step (s : State) (a : Action) : State :=
  match a with
  | Create w => handleAnalyze w s
  | Delete w id => fst (deleteMemory w id s)
  | SetFeedback w id b => fst (handleFeedback w id b s)
  | FillForm date title artist text mood =>
      setMoodScore mood
        (setDiaryText text
           (setArtistName artist (setSongTitle title (setRecordDate date s))))
  | ToggleTag tagLabel => toggleTag tagLabel s
  | SetLanguage l => setLanguage l s
  end.

Definition run (s : State) (actions : list Action) : State :=
  fold_left step actions s.

End App.

Import App.

(* ================================================================== *)
(** * Part VIII. Vocabulary of the properties                           *)
(* ================================================================== *)

(** A field that [handleAnalyze] takes for missing: [!x.trim()]. *)
Definition blank (x : string) : bool := falsy (trim x).

Definition submittable (s : State) : bool :=
  negb (blank (songTitle s) || blank (artistName s)).

(** What [analyzeMemory] hands back for the form of [s]. *)
Definition analysis_for (w : World) (s : State) : value :=
  fst (analyzeMemory w (diaryText s) (mkSong (artistName s) (songTitle s))
         (moodScore s) (selectedTags s) (targetDate_of w (recordDate s))
         (language s)).

(** [analysis.imagePrompt] when [analysis] is not [null]. *)
Definition prompt_of (analysis : value) : option value :=
  match analysis with
  | VObj o => lookup o "imagePrompt"
  | _ => None
  end.

(** The record that a run of [handleAnalyze] builds once both provider
    calls are behind it. *)
Definition created (w : World) (s : State) : Memory :=
  newMemory_of w s (targetDate_of w (recordDate s)) (analysis_for w s)
    (fst (generateMemoryImage w (prompt_of (analysis_for w s)))).

(** The analysis call fails: the promise is rejected, the reply has no
    text, or the text is not JSON. *)
Definition analysis_fails (w : World) : bool :=
  match analysis_reply w with
  | Rejected => true
  | Resolved None => true
  | Resolved (Some text) =>
      falsy text || match JSON.parse text with Some _ => false | None => true end
  end.

(** The image call fails: rejected, or no part with inline data. *)
Definition image_fails (w : World) : bool :=
  match image_reply w with
  | Rejected => true
  | Resolved None => true
  | Resolved (Some parts) =>
      match first_inline parts with Some _ => false | None => true end
  end.

(** The date string of the form does not denote an instant. *)
Definition malformed_date (w : World) (recordDate : string) : bool :=
  is_nan (getTime (targetDate_of w recordDate)).

(** [a] may stand before [b] in a list sorted by timestamp, descending. *)
Definition descending (a b : Memory) : Prop :=
  num_le (timestamp b) (timestamp a) = true.

Definition sorted_desc (l : list Memory) : Prop := StronglySorted descending l.

Definition numeric (m : Memory) : Prop := is_nan (timestamp m) = false.

(** Every creation of the session is made with a well-formed date. *)
Fixpoint dates_well_formed (s : State) (actions : list Action) : Prop :=
  match actions with
  | [] => True
  | a :: rest =>
      match a with
      | Create w => malformed_date w (recordDate s) = false
      | _ => True
      end
      /\ dates_well_formed (step s a) rest
  end.

(** The clock readings of the creations of a session, in order. *)
Fixpoint clock_readings (actions : list Action) : list Z :=
  match actions with
  | [] => []
  | Create w :: rest => now w :: clock_readings rest
  | _ :: rest => clock_readings rest
  end.

(** The events that [s'] has on top of [s]. *)
Definition new_events (s s' : State) : list Event :=
  skipn (List.length (events s)) (events s').

(** A run of [handleAnalyze] gets as far as building its record. *)
Definition builds_record (w : World) (s : State) : bool :=
  submittable s
  && match analysis_for w s with VNull => false | _ => true end.

(** The records built during a session, in order of creation. *)
Fixpoint produced (s : State) (actions : list Action) : list Memory :=
  match actions with
  | [] => []
  | a :: rest =>
      match a with
      | Create w => if builds_record w s then [created w s] else []
      | _ => []
      end ++ produced (step s a) rest
  end.

(** How the [try] block of [handleAnalyze] ends. *)
Definition body_completion (w : World) (s : State) : Completion unit :=
  snd (handleAnalyze_body w s
         (setLoadingStep (UI_TEXT stepAnalyzing (language s))
            (setIsAnalyzing true s))).

(** The emotion label of the fallback. *)
Definition fallback_sentinel (lang : Language) : string :=
  match lang with ja => "解析不能" | en => "Analysis Failed" end.

(** [m.analysis.inferredEmotion] *)
Definition inferredEmotion (m : Memory) : option value :=
  match analysis m with
  | VObj o => lookup o "inferredEmotion"
  | _ => None
  end.

(** A session that has just started, on some day. *)
Definition just_mounted : State :=
  initial "2023-11-15" (ofTime (Num 1700000000000)).

(** Tokyo, no provider within reach, storage in order. *)
Definition offline : World :=
  mkWorld 32400000 1700000000000 Rejected Rejected false.

(** The same world, [ms] milliseconds later. *)
Definition later (ms : Z) (w : World) : World :=
  mkWorld (tza w) (now w + ms) (analysis_reply w) (image_reply w)
    (setItem_throws w).

(** The events of a run of [handleAnalyze] that is let through, by where
    it ends. *)
Definition run_events (w : World) (s : State) : list Event :=
  let a := analyzeMemory w (diaryText s) (mkSong (artistName s) (songTitle s))
             (moodScore s) (selectedTags s) (targetDate_of w (recordDate s))
             (language s) in
  let failure := [ConsoleError "error"; Alert (UI_TEXT errorMsg (language s))] in
  (snd a
   ++ match fst a with
      | VNull => failure
      | _ => snd (generateMemoryImage w (prompt_of (fst a)))
             ++ (if setItem_throws w then failure else [])
      end)%list.

(** The size of a value: the fuel that parsing its text takes. *)
Fixpoint jsize (v : value) : nat :=
  match v with
  | VArr l => S ((fix sum (l : list value) : nat :=
                    match l with [] => O | x :: r => S (jsize x + sum r) end) l)
  | VObj l => S ((fix sum (l : list (string * value)) : nat :=
                    match l with [] => O | x :: r => S (jsize (snd x) + sum r) end) l)
  | _ => 1
  end.

(** JSON data: no [NaN] inside, and objects with distinct keys. *)
Definition json_data (v : value) : Prop := NoNaN v /\ DistinctKeys v.

(** What may follow a value in a text: nothing, or a delimiter. *)
Definition delimited (rest : string) : Prop :=
  match rest with
  | EmptyString => True
  | String c _ => c = ","%char \/ c = "]"%char \/ c = "}"%char
  end.

(** A character that can begin the text of a value. *)
Definition value_start (c : ascii) : bool :=
  is_digit c || Ascii.eqb c "-" || Ascii.eqb c "n" || Ascii.eqb c "t"
  || Ascii.eqb c "f" || Ascii.eqb c dquote || Ascii.eqb c "[" || Ascii.eqb c "{".

Ltac run_handleAnalyze H :=
  unfold submittable, blank in H; apply negb_true_iff in H;
  unfold handleAnalyze, try_catch_finally, handleAnalyze_body, created,
    analysis_for, run_events, saveMemories, setItem, bind, call, exec, get_prop,
    throw, ret;
  rewrite H;
  match goal with
  | |- context [analyzeMemory ?w ?a ?b ?c ?d ?e ?f] =>
      let an := fresh "an" in
      let evs := fresh "evs" in
      destruct (analyzeMemory w a b c d e f) as [an evs];
      cbn [fst snd]; destruct an; cbn [fst snd prompt_of]
  end;
  try match goal with
      | |- context [generateMemoryImage ?w ?p] =>
          let url := fresh "url" in
          let evi := fresh "evi" in
          destruct (generateMemoryImage w p) as [url evi]
      end;
  cbn [fst snd];
  try match goal with
      | |- context [setItem_throws ?w] => destruct (setItem_throws w)
      end;
  cbn -[sort stringify getTodayString UI_TEXT];
  repeat rewrite <- List.app_assoc; repeat rewrite List.app_nil_r; try reflexivity.

(** Closes [NoDup l] for a list of distinct string literals. *)
Ltac distinct_strings :=
  repeat (constructor;
          [ cbn; let H := fresh "H" in
            intros H;
            repeat (destruct H as [H | H]; [discriminate H|]);
            contradiction
          | ]);
  constructor.

(** Replaces the list of a [Forall] goal by its value. *)
Ltac evaluate_list :=
  match goal with
  | |- Forall _ ?l => let l' := eval vm_compute in l in change l with l'
  end.

Ltac fuel_S f :=
  let f' := fresh f in
  destruct f as [|f']; [simpl in *; lia|].

(** A record whose analysis is JSON data. *)
Definition analysis_is_json (m : Memory) : Prop := json_data (analysis m).

(* ================================================================== *)
(** * Part VIII (continued). More of the component                      *)
(* ================================================================== *)

(** ** [Date.prototype.setMonth] *)

Definition TimeWithinDay (t : Z) : Z := t mod msPerDay.

(** [d.setMonth(month)]: the month is replaced, the day of the month and
    the time of day are kept; a day that the new month does not have
    carries over into the next one.  The result is the date after the
    call (its time value is what the call returns). *)
Definition setMonth (zone : Z) (d : Date) (month : jsnum) : Date :=
  match getTime d, month with
  | Num t, Num m =>
      let lt := LocalTime zone t in
      mkDate (TimeClip (UTC zone
                (MakeDay (YearFromDay (Day lt)) m (DateFromDay (Day lt)) * msPerDay
                 + TimeWithinDay lt)))
  | _, _ => mkDate NaN
  end.

(** [a + b] on numbers. *)
Definition add (a b : jsnum) : jsnum :=
  match a, b with
  | Num x, Num y => Num (x + y)
  | _, _ => NaN
  end.

(** ** The rest of [App.tsx] *)

Definition setCurrentDate (x : Date) (s : State) : State :=
  mkState (memories s) (language s) (recordDate s) (diaryText s) (songTitle s)
    (artistName s) (moodScore s) (selectedTags s) (isAnalyzing s)
    (loadingStep s) x (storage s) (events s).

(** [changeMonth]: [setMonth] on the current date, then two copies
    ([new Date(number)], [new Date(date)]). *)
Definition changeMonth (w : World) (offset : Z) (s : State) : State :=
  let newDate :=
    ofTime (getTime (setMonth (tza w) (currentDate s)
                       (add (getMonth (tza w) (currentDate s)) (Num offset)))) in
  setCurrentDate (ofTime (getTime newDate)) s.

(** [handleReset]: [confirmed] is the answer to [window.confirm]. *)
Definition handleReset (w : World) (confirmed : bool) (s : State) : State :=
  if confirmed then
    setRecordDate (getTodayString w)
      (setSelectedTags []
         (setMoodScore 0
            (setArtistName EmptyString
               (setSongTitle EmptyString (setDiaryText EmptyString s)))))
  else s.

(** ** The tag buttons *)

Record TagDefinition : Type := mkTag {
  tag_id : string;
  label : Language -> string
}.

Definition both (j e : string) (l : Language) : string :=
  match l with ja => j | en => e end.

Definition EMOTION_TAGS : list TagDefinition :=
  [ mkTag "relax" (both "リラックス" "Relax");
    mkTag "focus" (both "集中" "Focus");
    mkTag "blue" (both "憂鬱" "Blue");
    mkTag "excited" (both "ワクワク" "Excited");
    mkTag "nostalgic" (both "懐かしい" "Nostalgic");
    mkTag "determined" (both "決意" "Determined");
    mkTag "tired" (both "疲れた" "Tired");
    mkTag "grateful" (both "感謝" "Grateful");
    mkTag "angry" (both "怒り" "Angry");
    mkTag "calm" (both "穏やか" "Calm");
    mkTag "lonely" (both "孤独" "Lonely");
    mkTag "accomplished" (both "達成感" "Accomplished") ].

(** The button of a tag: it toggles the label of the tag in the language
    of the moment, and is drawn as selected when that label is among the
    selected ones. *)
Definition pressTag (tagDef : TagDefinition) (s : State) : State :=
  toggleTag (label tagDef (language s)) s.

Definition drawn_selected (tagDef : TagDefinition) (s : State) : bool :=
  includes (selectedTags s) (label tagDef (language s)).

(** ** The card of a record ([components/MemoryCard.tsx]) *)

(** [handleDelete]: [confirmed] is the answer to [window.confirm];
    [onDelete] is [deleteMemory]. *)
Definition handleDelete (w : World) (confirmed : bool) (memory : Memory) : M unit :=
  if confirmed then deleteMemory w (Types.id memory) else ret tt.

(** ** More vocabulary *)

(** Number of days of month [mn] (0 = January) of year [y]. *)
Definition month_length (y mn : Z) : Z :=
  match mn with
  | 1 => 28 + InLeapYear y
  | 3 | 5 | 8 | 10 => 30
  | _ => 31
  end.

(** A time value that a [Date] can hold. *)
Definition in_range (t : Z) : Prop := (Z.abs t <= maxTime)%Z.

(** The day number of the local calendar day of instant [t]. *)
Definition local_day (zone t : Z) : Z := Day (LocalTime zone t).

(** The instant at which local day [d] begins. *)
Definition local_midnight (zone d : Z) : Z := UTC zone (d * msPerDay).

(** The world of an action that writes to the slot. *)
Definition action_world (a : Action) : option World :=
  match a with
  | Create w | Delete w _ | SetFeedback w _ _ => Some w
  | _ => None
  end.

(** No write to the slot fails during the session. *)
Definition writes_succeed (actions : list Action) : Prop :=
  Forall (fun a => match action_world a with
                   | Some w => setItem_throws w = false
                   | None => True
                   end) actions.

(** The list and the slot agree: nothing was ever written and the list is
    empty, or the slot holds the text of the list. *)
Definition mirrored (s : State) : Prop :=
  (storage s = None /\ memories s = [])
  \/ storage s = Some (JSON.stringify (memories_to_value (memories s))).

(** A record without its feedback. *)
Definition without_feedback (m : Memory) : Memory :=
  mkMemory (Types.id m) (content m) (Types.moodScore m) (moodTags m)
    (timestamp m) (song m) (analysis m) (imageUrl m) None (Types.language m).


(** ** Replies within the reach of the model *)

(** Number.MAX_SAFE_INTEGER: up to it, in absolute value, a JavaScript
    number holds every integer exactly. *)
Definition MAX_SAFE_INTEGER : Z := 9007199254740991.

(** Every number of the value is an integer that a JavaScript number
    holds exactly (so none is [NaN]). *)
Fixpoint exact_numbers (v : value) : Prop :=
  match v with
  | VNum (Num z) => Z.abs z <= MAX_SAFE_INTEGER
  | VNum NaN => False
  | VArr l => (fix all (l : list value) : Prop :=
                 match l with [] => True | x :: r => exact_numbers x /\ all r end) l
  | VObj l => (fix all (l : list (string * value)) : Prop :=
                 match l with
                 | [] => True
                 | x :: r => exact_numbers (snd x) /\ all r
                 end) l
  | _ => True
  end.

(** The reply of the analysis lies where [JSON.parse] of the model and of
    the platform agree: the call is rejected, or the reply has no text, or
    the empty text, or a text that parses -- no fraction and no exponent,
    see the limits of [JSON] -- to a value whose numbers are held
    exactly.  A reply such as 1e999, which the platform reads as Infinity
    and writes back as null, is outside. *)
Definition reply_in_scope (w : World) : Prop :=
  match analysis_reply w with
  | Resolved (Some text) =>
      text = EmptyString
      \/ exists v, JSON.parse text = Some v /\ exact_numbers v
  | _ => True
  end.

(** Every creation of the session gets such a reply. *)
Definition replies_in_scope (actions : list Action) : Prop :=
  Forall (fun a => match a with
                   | Create w => reply_in_scope w
                   | _ => True
                   end) actions.

(** ** Sample states and worlds *)

(** The form filled in for 10 November 2023. *)
Definition form_filled : State :=
  step just_mounted
    (FillForm "2023-11-10" "Fly Me to the Moon" "Sample Artist" EmptyString 30).

(** One record, then two, created a minute apart. *)
Definition one_record : State := step form_filled (Create offline).

Definition two_records : State :=
  run one_record
    [ FillForm "2023-11-12" "Moon River" "Sample Artist" EmptyString 0;
      Create (later 60000 offline) ].

(** A reply of the analysis in the shape that was asked for. *)
Definition sample_reply : value :=
  VObj [ ("inferredEmotion", VStr "Quiet Determination");
         ("analysisText", VStr "The melody stays with you.");
         ("moodColor", VStr "#3b82f6");
         ("imagePrompt", VStr "soft blue waves") ].

(** A world in which both provider calls answer. *)
Definition answering : World :=
  mkWorld 32400000 1700000000000
    (Resolved (Some (JSON.stringify sample_reply)))
    (Resolved (Some [None; Some ("image/png", "AAAA")]))
    false.

(** The calendar open on 31 January 2024. *)
Definition end_of_january : State :=
  initial "2024-01-31" (ofYMD (tza offline) (Num 2024) (Num 0) (Num 31)).

(* ================================================================== *)
(** * Part IX. Facts about the platform                                 *)
(* ================================================================== *)

Section SortFacts.
Context {A : Type} (comparefn : A -> A -> jsnum).

Lemma insert_Permutation (x : A) (l : list A) :
  Permutation (insert comparefn x l) (x :: l).
Proof.
  induction l as [|y l IH]; simpl.
  - apply Permutation_refl.
  - destruct (comes_after comparefn x y).
    + eapply perm_trans; [apply perm_skip, IH | apply perm_swap].
    + apply Permutation_refl.
Qed.

Lemma sort_Permutation (l : list A) : Permutation (sort comparefn l) l.
Proof.
  induction l as [|x l IH]; simpl.
  - apply perm_nil.
  - eapply perm_trans; [apply insert_Permutation | apply perm_skip, IH].
Qed.

Lemma sort_In (x : A) (l : list A) : In x (sort comparefn l) <-> In x l.
Proof.
  split; apply Permutation_in;
    [apply sort_Permutation | apply Permutation_sym, sort_Permutation].
Qed.

(** An element that nothing has to overtake stays in front. *)
Lemma sort_keeps_head (x : A) (l : list A) :
  (forall y, In y l -> comes_after comparefn x y = false) ->
  sort comparefn (x :: l) = x :: sort comparefn l.
Proof.
  intros H. simpl.
  destruct (sort comparefn l) as [|y l'] eqn:E; [reflexivity|].
  simpl. rewrite H; [reflexivity|].
  apply sort_In. rewrite E. now left.
Qed.
End SortFacts.

(** [YearFromDay] is the year of the standard: the largest [y] whose
    first day is not after day [d]. *)
Lemma YearFromDay_spec (d : Z) :
  (DayFromYear (YearFromDay d) <= d < DayFromYear (YearFromDay d + 1))%Z.
Proof.
  unfold YearFromDay, DayFromYear.
  repeat match goal with
         | |- context [if ?b then _ else _] => destruct b eqn:?
         end;
    Z.to_euclidean_division_equations; lia.
Qed.

Lemma descending_trans (a b c : Memory) :
  descending a b -> descending b c -> descending a c.
Proof.
  unfold descending.
  destruct (timestamp a), (timestamp b), (timestamp c); simpl;
    try discriminate; rewrite !Z.leb_le; lia.
Qed.

Lemma insert_sorted_desc (m : Memory) (l : list Memory) :
  numeric m -> Forall numeric l -> sorted_desc l ->
  sorted_desc (insert byTimestampDesc m l).
Proof.
  intros Hm Hl Hs. induction Hs as [|y l Hs IH Hy]; simpl.
  - constructor; constructor.
  - inversion Hl as [|? ? Hny Hnl]; subst.
    assert (Hcmp : comes_after byTimestampDesc m y = true -> descending y m).
    { unfold comes_after, byTimestampDesc, descending, numeric in *.
      destruct (timestamp m), (timestamp y); simpl in *; try discriminate.
      rewrite Z.ltb_lt, Z.leb_le. lia. }
    assert (Hcmp' : comes_after byTimestampDesc m y = false -> descending m y).
    { unfold comes_after, byTimestampDesc, descending, numeric in *.
      destruct (timestamp m), (timestamp y); simpl in *; try discriminate.
      rewrite Z.ltb_ge, Z.leb_le. lia. }
    destruct (comes_after byTimestampDesc m y) eqn:E.
    + constructor; [apply IH; assumption|].
      eapply Permutation_Forall;
        [apply Permutation_sym, insert_Permutation|].
      constructor; [apply Hcmp; reflexivity | assumption].
    + constructor; [constructor; assumption|].
      constructor; [apply Hcmp'; reflexivity|].
      eapply Forall_impl; [|exact Hy].
      intros z Hz. eapply descending_trans; [apply Hcmp'; reflexivity | exact Hz].
Qed.

Lemma sort_sorted_desc (l : list Memory) :
  Forall numeric l -> sorted_desc (sort byTimestampDesc l).
Proof.
  induction 1 as [|m l Hm Hl IH]; simpl.
  - constructor.
  - apply insert_sorted_desc; [assumption| |assumption].
    eapply Permutation_Forall; [apply Permutation_sym, sort_Permutation|assumption].
Qed.

Lemma filter_sorted_desc (f : Memory -> bool) (l : list Memory) :
  sorted_desc l -> sorted_desc (filter f l).
Proof.
  induction 1 as [|m l Hs IH Hm]; simpl; [constructor|].
  destruct (f m); [|assumption].
  constructor; [assumption|].
  rewrite Forall_forall in *. intros z Hz.
  apply filter_In in Hz. apply Hm, Hz.
Qed.

Lemma map_sorted_desc (g : Memory -> Memory) (l : list Memory) :
  (forall m, timestamp (g m) = timestamp m) ->
  sorted_desc l -> sorted_desc (map g l).
Proof.
  intros Hg. induction 1 as [|m l Hs IH Hm]; simpl; constructor; [assumption|].
  rewrite Forall_forall in *. intros z Hz.
  apply in_map_iff in Hz. destruct Hz as [z' [<- Hz']].
  unfold descending. rewrite !Hg. apply Hm, Hz'.
Qed.

Lemma to_int_not_nil (z : Z) :
  Z.to_int z <> Decimal.Pos Decimal.Nil /\ Z.to_int z <> Decimal.Neg Decimal.Nil.
Proof.
  destruct z as [|p|p]; simpl; split; intros E; try discriminate;
    injection E as E; exact (DecimalPos.Unsigned.to_uint_nonnil p E).
Qed.

Lemma toString_inj (a b : Z) : toString a = toString b -> a = b.
Proof.
  unfold toString. intros H.
  apply DecimalZ.to_int_inj.
  assert (E : Some (Z.to_int a) = Some (Z.to_int b)).
  { rewrite <- (DecimalString.NilZero.isi (Z.to_int a)), <- (DecimalString.NilZero.isi (Z.to_int b));
      try apply to_int_not_nil.
    now rewrite H. }
  now injection E.
Qed.

(* ================================================================== *)
(** * Part X. What one run of [handleAnalyze] does                      *)
(* ================================================================== *)

Lemma handleAnalyze_blank (w : World) (s : State) :
  submittable s = false -> handleAnalyze w s = s.
Proof.
  unfold submittable, blank, handleAnalyze. intros H.
  apply negb_false_iff in H. now rewrite H.
Qed.

Lemma handleAnalyze_memories (w : World) (s : State) :
  submittable s = true ->
  memories (handleAnalyze w s) =
    match analysis_for w s with
    | VNull => memories s
    | _ => sort byTimestampDesc (created w s :: memories s)
    end.
Proof. intros H. run_handleAnalyze H. Qed.

Lemma handleAnalyze_storage (w : World) (s : State) :
  submittable s = true ->
  storage (handleAnalyze w s) =
    match analysis_for w s with
    | VNull => storage s
    | _ =>
        if setItem_throws w then storage s
        else Some (JSON.stringify (memories_to_value
                     (sort byTimestampDesc (created w s :: memories s))))
    end.
Proof. intros H. run_handleAnalyze H. Qed.

Lemma handleAnalyze_events (w : World) (s : State) :
  submittable s = true ->
  events (handleAnalyze w s) = (events s ++ run_events w s)%list.
Proof. intros H. run_handleAnalyze H. Qed.

Lemma saveMemories_memories (w : World) (ms : list Memory) (s : State) :
  memories (fst (saveMemories w ms s)) = ms.
Proof.
  unfold saveMemories, setItem, bind, exec, throw.
  destruct (setItem_throws w); reflexivity.
Qed.

Lemma new_events_app (s s' : State) (es : list Event) :
  events s' = (events s ++ es)%list -> new_events s s' = es.
Proof.
  unfold new_events. intros ->.
  rewrite skipn_app, skipn_all, Nat.sub_diag. reflexivity.
Qed.

Lemma analyzeMemory_events (w : World) d sg sc tg dt lg :
  filter is_alert (snd (analyzeMemory w d sg sc tg dt lg)) = []
  /\ exists rest,
       snd (analyzeMemory w d sg sc tg dt lg) = CallAnalysis d sg sc tg dt lg :: rest.
Proof.
  unfold analyzeMemory.
  destruct (analysis_reply w) as [|[text|]]; simpl; eauto.
  destruct (falsy text); simpl; eauto.
  destruct (JSON.parse text); simpl; eauto.
Qed.

Lemma generateMemoryImage_events (w : World) (p : option value) :
  filter is_alert (snd (generateMemoryImage w p)) = [].
Proof.
  unfold generateMemoryImage.
  destruct (image_reply w) as [|[parts|]]; simpl; auto.
  destruct (first_inline parts) as [[mt dat]|]; reflexivity.
Qed.

Lemma analysis_fails_fallback (w : World) (s : State) :
  analysis_fails w = true -> analysis_for w s = fallback (language s).
Proof.
  unfold analysis_fails, analysis_for, analyzeMemory.
  destruct (analysis_reply w) as [|[text|]]; simpl; auto.
  destruct (falsy text); simpl; auto.
  destruct (JSON.parse text); simpl; [discriminate | auto].
Qed.

Lemma image_fails_empty (w : World) (p : option value) :
  image_fails w = true -> fst (generateMemoryImage w p) = EmptyString.
Proof.
  unfold image_fails, generateMemoryImage.
  destruct (image_reply w) as [|[parts|]]; simpl; auto.
  destruct (first_inline parts) as [[mt dat]|]; [discriminate | auto].
Qed.

Lemma body_completion_Thrown (w : World) (s : State) :
  body_completion w s = Thrown <->
  analysis_for w s = VNull \/ (analysis_for w s <> VNull /\ setItem_throws w = true).
Proof.
  unfold body_completion, handleAnalyze_body, analysis_for, saveMemories,
    setItem, bind, call, exec, get_prop, throw, ret.
  match goal with
  | |- context [analyzeMemory ?w ?a ?b ?c ?d ?e ?f] =>
      destruct (analyzeMemory w a b c d e f) as [an evs]
  end.
  cbn [fst snd].
  destruct an; cbn [fst snd];
    try (split; [intros _; now left | reflexivity]);
    destruct (setItem_throws w); cbn [fst snd];
    (split;
     [ intros H;
       first [discriminate H | right; split; [discriminate | reflexivity]]
     | intros [H | [_ H]]; first [discriminate H | reflexivity] ]).
Qed.

Lemma includes_In (l : list string) (x : string) :
  includes l x = true <-> In x l.
Proof.
  unfold includes. rewrite existsb_exists. split.
  - intros [y [Hy E]]. apply String.eqb_eq in E. now subst.
  - intros H. exists x. split; [assumption | apply String.eqb_refl].
Qed.

Lemma toggleTag_length (tag : string) (s : State) :
  (List.length (selectedTags s) <= 3)%nat ->
  (List.length (selectedTags (toggleTag tag s)) <= 3)%nat.
Proof.
  intros H. unfold toggleTag.
  destruct (includes (selectedTags s) tag).
  - simpl. etransitivity; [apply filter_length_le | exact H].
  - destruct (Nat.ltb_spec (List.length (selectedTags s)) 3); simpl.
    + rewrite length_app. simpl. lia.
    + exact H.
Qed.

(* ================================================================== *)
(** * Part XI. Facts about [JSON]                                       *)
(* ================================================================== *)

(** ** Strings *)

Lemma str_app_assoc (a b c : string) : ((a ++ b) ++ c = a ++ (b ++ c))%string.
Proof. induction a as [|x a IH]; simpl; [reflexivity | now rewrite IH]. Qed.

Lemma str_app_nil_r (a : string) : (a ++ EmptyString)%string = a.
Proof. induction a as [|x a IH]; simpl; [reflexivity | now rewrite IH]. Qed.

Lemma str_length_app (a b : string) :
  String.length (a ++ b)%string = (String.length a + String.length b)%nat.
Proof. induction a as [|x a IH]; simpl; [reflexivity | now rewrite IH]. Qed.

Lemma parse_chars_escape (s rest : string) :
  parse_chars (escape s ++ String dquote rest)%string = Some (s, rest).
Proof.
  induction s as [|c s IH]; [reflexivity|].
  cbn [escape]. rewrite str_app_assoc.
  destruct c as [[] [] [] [] [] [] [] []];
    cbn; rewrite IH; reflexivity.
Qed.

(** ** Numbers *)

Lemma delimited_not_number (rest : string) :
  delimited rest ->
  more_number rest = false
  /\ match rest with String c _ => is_digit c = false | EmptyString => True end.
Proof.
  destruct rest as [|c r]; simpl; [auto|].
  intros [-> | [-> | ->]]; split; reflexivity.
Qed.

Lemma span_digits_uint (u : Decimal.uint) (rest : string) :
  match rest with String c _ => is_digit c = false | EmptyString => True end ->
  span_digits (DecimalString.NilEmpty.string_of_uint u ++ rest)%string
  = (DecimalString.NilEmpty.string_of_uint u, rest).
Proof.
  intros Hrest.
  induction u as [|u IH|u IH|u IH|u IH|u IH|u IH|u IH|u IH|u IH|u IH];
    [|cbn; rewrite IH; reflexivity ..].
  cbn [DecimalString.NilEmpty.string_of_uint append].
  destruct rest as [|c r]; [reflexivity|].
  cbn [span_digits]. now rewrite Hrest.
Qed.

Lemma unorm_to_uint (p : positive) :
  Decimal.unorm (Pos.to_uint p) = Pos.to_uint p.
Proof.
  rewrite <- (DecimalPos.Unsigned.to_of (Pos.to_uint p)).
  now rewrite DecimalPos.Unsigned.of_to.
Qed.

Lemma parse_digits_pos (p : positive) (rest : string) :
  delimited rest ->
  parse_digits (DecimalString.NilEmpty.string_of_uint (Pos.to_uint p) ++ rest)%string
  = Some (Z.pos p, rest).
Proof.
  intros Hd. apply delimited_not_number in Hd. destruct Hd as [Hmore Hdig].
  unfold parse_digits. rewrite span_digits_uint by exact Hdig.
  rewrite DecimalString.NilEmpty.usu, unorm_to_uint.
  rewrite (Decimal.internal_uint_dec_lb _ _ eq_refl), Hmore. cbn [andb negb].
  unfold N.of_uint. now rewrite DecimalPos.Unsigned.of_to.
Qed.

Lemma string_of_uint_pos (p : positive) :
  DecimalString.NilZero.string_of_uint (Pos.to_uint p)
  = DecimalString.NilEmpty.string_of_uint (Pos.to_uint p).
Proof.
  unfold DecimalString.NilZero.string_of_uint.
  destruct (Pos.to_uint p) eqn:E; try reflexivity.
  exfalso. exact (DecimalPos.Unsigned.to_uint_nonnil p E).
Qed.

Lemma uint_starts_with_digit (u : Decimal.uint) :
  u <> Decimal.Nil ->
  exists c t, DecimalString.NilEmpty.string_of_uint u = String c t /\ is_digit c = true.
Proof.
  destruct u; intros H; try (exfalso; now apply H); cbn; eauto.
Qed.

Lemma parse_value_number (f : nat) (z : Z) (rest : string) :
  delimited rest ->
  parse_value (S f) (toString z ++ rest)%string = Some (VNum (Num z), rest).
Proof.
  intros Hd. unfold toString.
  destruct z as [|p|p]; cbn [Z.to_int DecimalString.NilZero.string_of_int].
  - cbn [DecimalString.NilZero.string_of_uint append].
    change (String "0" rest) with
      (DecimalString.NilEmpty.string_of_uint (Decimal.D0 Decimal.Nil) ++ rest)%string.
    destruct (delimited_not_number rest Hd) as [Hmore Hdig].
    pose proof (span_digits_uint (Decimal.D0 Decimal.Nil) rest Hdig) as Hsp.
    cbn [DecimalString.NilEmpty.string_of_uint append] in *.
    cbn [parse_value skip_ws].
    change (is_json_ws "0") with false. cbv iota.
    change (Ascii.eqb "0" "n") with false.
    change (Ascii.eqb "0" "t") with false.
    change (Ascii.eqb "0" "f") with false.
    change (Ascii.eqb "0" dquote) with false.
    change (Ascii.eqb "0" "[") with false.
    change (Ascii.eqb "0" "{") with false.
    change (Ascii.eqb "0" "-") with false.
    cbv iota. unfold parse_digits. rewrite Hsp. cbn. rewrite Hmore. reflexivity.
  - rewrite string_of_uint_pos.
    pose proof (parse_digits_pos p rest Hd) as Hp.
    destruct (uint_starts_with_digit (Pos.to_uint p)
                (DecimalPos.Unsigned.to_uint_nonnil p)) as [c [t [E Hc]]].
    rewrite E in *. cbn [append] in *.
    cbn [parse_value].
    assert (Hs : skip_ws (String c (t ++ rest)) = String c (t ++ rest)).
    { cbn. destruct c as [[] [] [] [] [] [] [] []]; try discriminate Hc; reflexivity. }
    rewrite Hs.
    assert (Hn : Ascii.eqb c "n" = false /\ Ascii.eqb c "t" = false
                 /\ Ascii.eqb c "f" = false /\ Ascii.eqb c dquote = false
                 /\ Ascii.eqb c "[" = false /\ Ascii.eqb c "{" = false
                 /\ Ascii.eqb c "-" = false).
    { destruct c as [[] [] [] [] [] [] [] []]; try discriminate Hc; repeat split. }
    destruct Hn as (-> & -> & -> & -> & -> & -> & ->).
    rewrite Hp. reflexivity.
  - rewrite string_of_uint_pos. cbn [append parse_value skip_ws].
    cbn [is_json_ws]. cbn.
    rewrite (parse_digits_pos p rest Hd). reflexivity.
Qed.

(** ** Values: [parse] undoes [stringify] *)

Lemma value_start_facts (c : ascii) :
  value_start c = true ->
  is_json_ws c = false /\ Ascii.eqb c "]" = false /\ Ascii.eqb c "}" = false.
Proof.
  destruct c as [[] [] [] [] [] [] [] []]; intros H; try discriminate H; repeat split.
Qed.

Lemma toString_start (z : Z) :
  exists c t, toString z = String c t /\ value_start c = true.
Proof.
  unfold toString. destruct z as [|p|p]; cbn [Z.to_int DecimalString.NilZero.string_of_int].
  - cbn. eauto.
  - rewrite string_of_uint_pos.
    destruct (uint_starts_with_digit (Pos.to_uint p)
                (DecimalPos.Unsigned.to_uint_nonnil p)) as [c [t [E Hc]]].
    exists c, t. split; [exact E|]. unfold value_start. now rewrite Hc.
  - eexists _, _. split; reflexivity.
Qed.

Lemma stringify_start (v : value) :
  NoNaN v -> exists c t, stringify v = String c t /\ value_start c = true.
Proof.
  destruct v as [|[]|[z|]|s|l|l]; cbn [stringify stringify_num quote]; intros H;
    try (eexists _, _; split; reflexivity).
  apply toString_start.
Qed.

Lemma obj_of_members_distinct (l : list (string * value)) :
  NoDup (map fst l) -> obj_of_members l = l.
Proof.
  unfold obj_of_members.
  assert (G : forall acc, NoDup (map fst (acc ++ l)) ->
                fold_left (fun o kv => obj_set o (fst kv) (snd kv)) l acc = acc ++ l).
  { induction l as [|[k v] l IH]; intros acc Hnd; simpl.
    - now rewrite List.app_nil_r.
    - assert (E : obj_set acc k v = acc ++ [(k, v)]).
      { clear IH. induction acc as [|[k' v'] acc IHa]; simpl; [reflexivity|].
        simpl in Hnd. inversion Hnd as [|? ? Hn Hnd']; subst.
        destruct (String.eqb_spec k' k) as [->|Hne].
        - exfalso. apply Hn. rewrite map_app. apply in_or_app. right. now left.
        - now rewrite IHa. }
      rewrite E, IH; rewrite <- List.app_assoc; [reflexivity | exact Hnd]. }
  intros H. apply (G []). exact H.
Qed.

Lemma commas_cons (x : string) (items : list string) :
  items <> [] -> commas (x :: items) = (x ++ String "," (commas items))%string.
Proof. destruct items; [intros H; now elim H | reflexivity]. Qed.

(** One element of an array, then the comma or the closing bracket. *)
Lemma parse_elements_step (f : nat) (v : value) (text after : string) :
  parse_value f text = Some (v, after) ->
  parse_elements (S f) text =
    match after with
    | String "," r =>
        match parse_elements f r with
        | Some (l, rest) => Some (v :: l, rest)
        | None => None
        end
    | String "]" r => Some ([v], r)
    | _ => parse_elements (S f) text
    end.
Proof.
  intros H. destruct after as [|c r]; [reflexivity|].
  destruct (Ascii.eqb_spec c ",") as [->|Hc].
  - cbn [parse_elements]. rewrite H. reflexivity.
  - destruct (Ascii.eqb_spec c "]") as [->|Hb].
    + cbn [parse_elements]. rewrite H. reflexivity.
    + destruct c as [[] [] [] [] [] [] [] []]; try reflexivity;
        try (now elim Hc); now elim Hb.
Qed.

(** One member of an object, then the comma or the closing brace. *)
Lemma parse_members_step (f : nat) (k : string) (v : value) (text after : string) :
  parse_value f text = Some (v, after) ->
  parse_members (S f) (quote k ++ String ":" text)%string =
    match after with
    | String "," r =>
        match parse_members f r with
        | Some (ms, rest) => Some ((k, v) :: ms, rest)
        | None => None
        end
    | String "}" r => Some ([(k, v)], r)
    | _ => parse_members (S f) (quote k ++ String ":" text)%string
    end.
Proof.
  intros H.
  assert (E : parse_members (S f) (quote k ++ String ":" text)%string =
              match skip_ws after with
              | String c' r4 =>
                  if Ascii.eqb c' ","
                  then match parse_members f r4 with
                       | Some (ms, rest) => Some ((k, v) :: ms, rest)
                       | None => None
                       end
                  else if Ascii.eqb c' "}" then Some ([(k, v)], r4) else None
              | EmptyString => None
              end).
  { unfold quote. cbn [append]. rewrite str_app_assoc.
    cbn [str1 append parse_members skip_ws].
    change (is_json_ws dquote) with false. cbv iota.
    change (Ascii.eqb dquote dquote) with true. cbv iota.
    rewrite parse_chars_escape. cbn [skip_ws].
    change (is_json_ws ":") with false. cbv iota.
    change (Ascii.eqb ":" ":") with true. cbv iota.
    rewrite H. reflexivity. }
  destruct after as [|c r]; [reflexivity|].
  destruct (Ascii.eqb_spec c ",") as [->|Hc]; [exact E|].
  destruct (Ascii.eqb_spec c "}") as [->|Hb]; [exact E|].
  destruct c as [[] [] [] [] [] [] [] []]; try reflexivity;
    try (now elim Hc); now elim Hb.
Qed.

Lemma parse_value_array (f : nat) (c : ascii) (t : string) :
  value_start c = true ->
  parse_value (S f) (String "[" (String c t)) =
    match parse_elements f (String c t) with
    | Some (l, rest) => Some (VArr l, rest)
    | None => None
    end.
Proof.
  intros Hc. destruct (value_start_facts c Hc) as (Hws & Hb & _).
  cbn [parse_value skip_ws].
  change (is_json_ws "[") with false. cbv iota.
  change (Ascii.eqb "[" "n") with false.
  change (Ascii.eqb "[" "t") with false.
  change (Ascii.eqb "[" "f") with false.
  change (Ascii.eqb "[" dquote) with false.
  change (Ascii.eqb "[" "[") with true. cbv iota.
  cbn [skip_ws]. now rewrite Hws, Hb.
Qed.

Lemma parse_value_object (f : nat) (t : string) :
  parse_value (S f) (String "{" (String dquote t)) =
    match parse_members f (String dquote t) with
    | Some (ms, rest) => Some (VObj (obj_of_members ms), rest)
    | None => None
    end.
Proof. reflexivity. Qed.

Lemma parse_stringify_value (n : nat) :
  forall v, (jsize v <= n)%nat -> NoNaN v -> DistinctKeys v ->
  forall f rest, delimited rest -> (jsize v <= f)%nat ->
    parse_value f (stringify v ++ rest)%string = Some (v, rest).
Proof.
  induction n as [|n IH]; intros v Hn Hnan Hkeys f rest Hd Hf.
  { destruct v; simpl in Hn; lia. }
  destruct v as [|b|[z|]|s|l|l].
  - fuel_S f. reflexivity.
  - fuel_S f. destruct b; reflexivity.
  - fuel_S f. apply parse_value_number, Hd.
  - destruct Hnan.
  - fuel_S f. cbn [stringify quote append]. rewrite str_app_assoc.
    cbn [str1 append parse_value skip_ws]. cbn.
    now rewrite parse_chars_escape.
  - (* arrays *)
    fuel_S f.
    assert (E : forall l f rest,
               l <> [] -> (jsize (VArr l) <= S n)%nat ->
               NoNaN (VArr l) -> DistinctKeys (VArr l) -> delimited rest ->
               (jsize (VArr l) <= S f)%nat ->
               parse_elements f (commas (map stringify l) ++ String "]" rest)%string
               = Some (l, rest)).
    { clear - IH. induction l as [|v l IHl]; intros f rest Hne Hn Hnan Hkeys Hd Hf;
        [now elim Hne|].
      cbn in Hn, Hf. destruct Hnan as [Hnv Hnl]. destruct Hkeys as [Hkv Hkl].
      fuel_S f.
      destruct l as [|v' l'].
      - cbn [map commas].
        rewrite (parse_elements_step _ v _ (String "]" rest)); [reflexivity|].
        apply IH; try assumption; try lia. simpl; auto.
      - rewrite map_cons, commas_cons by discriminate.
        rewrite str_app_assoc. cbn [append].
        rewrite (parse_elements_step _ v _
                   (String "," (commas (map stringify (v' :: l')) ++ String "]" rest)));
          [|apply IH; try assumption; try lia; simpl; auto].
        rewrite IHl; [reflexivity|discriminate| | | | |]; try assumption.
        + cbn. cbn in Hn. lia.
        + cbn. cbn in Hf. lia. }
    destruct l as [|v l]; [reflexivity|].
    cbn [stringify append]. rewrite str_app_assoc.
    specialize (E (v :: l) f0 rest).
    destruct Hnan as [Hnv Hnl].
    destruct (stringify_start v Hnv) as [c [t [Ev Hc]]].
    assert (Es : exists t', (commas (map stringify (v :: l)) ++ "]" ++ rest)%string
                            = String c t').
    { destruct l; [cbn [map commas] | rewrite map_cons, commas_cons by discriminate];
        rewrite ?str_app_assoc; rewrite Ev; cbn [append]; eauto. }
    destruct Es as [t' Es]. rewrite Es. rewrite parse_value_array by exact Hc.
    rewrite <- Es. cbn [append] in *.
    rewrite E; try assumption; try discriminate; [reflexivity| split; assumption].
  - (* objects *)
    fuel_S f.
    set (member := fun kv : string * value =>
                     (quote (fst kv) ++ String ":" (stringify (snd kv)))%string).
    assert (E : forall l f rest,
               l <> [] -> (jsize (VObj l) <= S n)%nat ->
               NoNaN (VObj l) -> DistinctKeys (VObj l) -> delimited rest ->
               (jsize (VObj l) <= S f)%nat ->
               parse_members f (commas (map member l) ++ String "}" rest)%string
               = Some (l, rest)).
    { clear - IH. induction l as [|[k v] l IHl];
        intros f rest Hne Hn Hnan Hkeys Hd Hf; [now elim Hne|].
      cbn in Hn, Hf. destruct Hnan as [Hnv Hnl].
      destruct Hkeys as [Hnd [Hkv Hkl]]. cbn [snd fst] in *.
      fuel_S f.
      destruct l as [|kv' l'].
      - cbn [map commas]. unfold member at 1. cbn [fst snd].
        rewrite str_app_assoc. cbn [append].
        rewrite (parse_members_step _ k v _ (String "}" rest)); [reflexivity|].
        apply IH; try assumption; try lia. simpl; auto.
      - rewrite map_cons, commas_cons by discriminate.
        unfold member at 1. cbn [fst snd].
        rewrite !str_app_assoc. cbn [append].
        rewrite (parse_members_step _ k v _
                   (String "," (commas (map member (kv' :: l')) ++ String "}" rest)));
          [|apply IH; try assumption; try lia; simpl; auto].
        rewrite IHl; [reflexivity|discriminate| | | | |]; try assumption.
        + cbn. cbn in Hn. lia.
        + split; [now inversion Hnd | exact Hkl].
        + cbn. cbn in Hf. lia. }
    destruct l as [|kv l]; [reflexivity|].
    cbn [stringify append]. fold member. rewrite str_app_assoc.
    specialize (E (kv :: l) f0 rest).
    assert (Es : exists t', (commas (map member (kv :: l)) ++ "}" ++ rest)%string
                            = String dquote t').
    { destruct l; [cbn [map commas] | rewrite map_cons, commas_cons by discriminate];
        unfold member at 1; rewrite ?str_app_assoc; cbn [quote append]; eauto. }
    destruct Es as [t' Es]. rewrite Es. rewrite parse_value_object.
    rewrite <- Es. cbn [append] in *.
    rewrite E; try assumption; try discriminate.
    rewrite obj_of_members_distinct; [reflexivity | apply Hkeys].
Qed.

Lemma toString_length (z : Z) : (1 <= String.length (toString z))%nat.
Proof.
  destruct (toString_start z) as [c [t [E _]]]. rewrite E. simpl. lia.
Qed.

Lemma commas_length (items : list string) :
  (fold_right (fun x n => String.length x + n) 0 items + List.length items
   <= S (String.length (commas items)))%nat.
Proof.
  induction items as [|x items IH]; [simpl; lia|].
  destruct items as [|y items].
  - simpl. lia.
  - rewrite commas_cons by discriminate.
    rewrite str_length_app. cbn [String.length fold_right List.length] in *. lia.
Qed.

Lemma jsize_le_length (n : nat) :
  forall v, (jsize v <= n)%nat -> (jsize v <= String.length (stringify v))%nat.
Proof.
  induction n as [|n IH]; intros v Hn.
  { destruct v; simpl in Hn; lia. }
  destruct v as [|b|[z|]|s|l|l]; try (simpl; lia).
  - destruct b; simpl; lia.
  - cbn [stringify stringify_num jsize]. apply toString_length.
  - cbn [stringify]. cbn [String.length]. rewrite str_length_app.
    pose proof (commas_length (map stringify l)) as Hc.
    assert (G : forall l : list value, (jsize (VArr l) <= S n)%nat ->
                (jsize (VArr l)
                 <= S (fold_right (fun x n => String.length x + n) 0 (map stringify l)
                       + List.length (map stringify l)))%nat).
    { clear - IH. induction l as [|v l IHl]; intros H; [simpl; lia|].
      cbn in H. cbn [map fold_right List.length].
      assert (H1 : (jsize v <= String.length (stringify v))%nat) by (apply IH; lia).
      assert (H2 : (jsize (VArr l) <= S n)%nat) by (cbn; lia).
      specialize (IHl H2). cbn in IHl. cbn. lia. }
    specialize (G l Hn). cbn [String.length]. lia.
  - cbn [stringify]. cbn [String.length]. rewrite str_length_app.
    set (member := fun kv : string * value =>
                     (quote (fst kv) ++ String ":" (stringify (snd kv)))%string).
    pose proof (commas_length (map member l)) as Hc.
    assert (G : forall l : list (string * value), (jsize (VObj l) <= S n)%nat ->
                (jsize (VObj l)
                 <= S (fold_right (fun x n => String.length x + n) 0 (map member l)
                       + List.length (map member l)))%nat).
    { clear - IH. induction l as [|[k v] l IHl]; intros H; [simpl; lia|].
      cbn in H. cbn [map fold_right List.length].
      assert (H1 : (jsize v <= String.length (stringify v))%nat) by (apply IH; lia).
      assert (H2 : (jsize (VObj l) <= S n)%nat) by (cbn; lia).
      specialize (IHl H2). cbn in IHl.
      unfold member at 1. cbn [fst snd]. rewrite str_length_app.
      cbn [String.length jsize snd]. cbn. lia. }
    specialize (G l Hn). cbn [String.length]. lia.
Qed.

Theorem parse_stringify (v : value) :
  NoNaN v -> DistinctKeys v -> JSON.parse (JSON.stringify v) = Some v.
Proof.
  intros Hnan Hkeys. unfold parse.
  pose proof (parse_stringify_value (jsize v) v (le_n _) Hnan Hkeys
                (S (String.length (stringify v))) EmptyString I) as H.
  rewrite str_app_nil_r in H. rewrite H; [reflexivity|].
  pose proof (jsize_le_length (jsize v) v (le_n _)). lia.
Qed.

(** ** What [parse] builds *)

Lemma json_data_arr (l : list value) :
  json_data (VArr l) <-> Forall json_data l.
Proof.
  unfold json_data. induction l as [|x l IH]; cbn.
  - split; [constructor | auto].
  - cbn in IH. split.
    + intros [[Hx Hl] [Kx Kl]]. constructor; [split; assumption|].
      apply IH. split; assumption.
    + intros H. inversion H as [|? ? [Hx Kx] Hl]; subst.
      apply IH in Hl. destruct Hl as [Hl Kl]. repeat split; assumption.
Qed.

Lemma json_data_obj (l : list (string * value)) :
  json_data (VObj l) <->
  NoDup (map fst l) /\ Forall (fun kv => json_data (snd kv)) l.
Proof.
  unfold json_data. induction l as [|x l IH]; cbn.
  - split; [intros _; split; constructor | intros _; repeat split; constructor].
  - cbn in IH. split.
    + intros [[Hx Hl] [Hnd [Kx Kl]]]. split; [exact Hnd|].
      constructor; [split; assumption|].
      apply IH. repeat split; try assumption. now inversion Hnd.
    + intros [Hnd H]. inversion H as [|? ? [Hx Kx] Hl]; subst.
      assert (Hnd' : NoDup (map fst l)) by now inversion Hnd.
      destruct (proj2 IH (conj Hnd' Hl)) as [Hl' [_ Kl]].
      repeat split; assumption.
Qed.

Lemma obj_set_fst (o : list (string * value)) (k : string) (v : value) (x : string) :
  In x (map fst (obj_set o k v)) -> x = k \/ In x (map fst o).
Proof.
  induction o as [|[k' v'] o IH]; simpl.
  - intros [<- | []]. now left.
  - destruct (String.eqb_spec k' k) as [->|Hne]; simpl.
    + intros [<- | H]; auto.
    + intros [<- | H]; auto. apply IH in H. tauto.
Qed.

Lemma obj_set_shape (o : list (string * value)) (k : string) (v : value) :
  NoDup (map fst o) -> Forall (fun kv => json_data (snd kv)) o -> json_data v ->
  NoDup (map fst (obj_set o k v))
  /\ Forall (fun kv => json_data (snd kv)) (obj_set o k v).
Proof.
  induction o as [|[k' v'] o IH]; simpl; intros Hnd Hall Hv.
  - split; constructor; auto; constructor.
  - inversion Hnd as [|? ? Hn Hnd']; subst.
    inversion Hall as [|? ? Hv' Hall']; subst.
    destruct (String.eqb_spec k' k) as [->|Hne]; simpl.
    + split; constructor; assumption.
    + destruct (IH Hnd' Hall' Hv) as [H1 H2].
      split; constructor; try assumption.
      intros Hin. apply obj_set_fst in Hin. destruct Hin as [-> | Hin]; auto.
Qed.

Lemma obj_of_members_shape (ms : list (string * value)) :
  Forall (fun kv => json_data (snd kv)) ms ->
  json_data (VObj (obj_of_members ms)).
Proof.
  intros H. apply json_data_obj. unfold obj_of_members.
  assert (G : forall acc,
             NoDup (map fst acc) -> Forall (fun kv => json_data (snd kv)) acc ->
             NoDup (map fst (fold_left (fun o kv => obj_set o (fst kv) (snd kv)) ms acc))
             /\ Forall (fun kv => json_data (snd kv))
                  (fold_left (fun o kv => obj_set o (fst kv) (snd kv)) ms acc)).
  { induction H as [|[k v] ms Hv Hms IH]; intros acc Hnd Hall; simpl; [auto|].
    destruct (obj_set_shape acc k v Hnd Hall Hv) as [H1 H2]. apply IH; assumption. }
  apply G; constructor.
Qed.

Lemma keyword_value (w : string) (v v' : value) (s r : string) :
  keyword w v s = Some (v', r) -> v' = v.
Proof.
  unfold keyword. destruct (strip_prefix w s); [|discriminate].
  now intros [= <- _].
Qed.

Lemma parse_shape (f : nat) :
  (forall s v r, parse_value f s = Some (v, r) -> json_data v)
  /\ (forall s l r, parse_elements f s = Some (l, r) -> Forall json_data l)
  /\ (forall s ms r, parse_members f s = Some (ms, r) ->
        Forall (fun kv => json_data (snd kv)) ms).
Proof.
  induction f as [|f [IHv [IHe IHm]]].
  { repeat split; intros; discriminate. }
  split; [|split].
  - intros s v r. cbn [parse_value].
    destruct (skip_ws s) as [|c t]; [discriminate|].
    destruct (Ascii.eqb c "n");
      [intros H; apply keyword_value in H; subst; split; exact I|].
    destruct (Ascii.eqb c "t");
      [intros H; apply keyword_value in H; subst; split; exact I|].
    destruct (Ascii.eqb c "f");
      [intros H; apply keyword_value in H; subst; split; exact I|].
    destruct (Ascii.eqb c dquote).
    { destruct (parse_chars t) as [[x y]|]; [|discriminate].
      intros [= <- _]. split; exact I. }
    destruct (Ascii.eqb c "[").
    { destruct (skip_ws t) as [|c' t']; [discriminate|].
      destruct (Ascii.eqb c' "]"); [intros [= <- _]; split; exact I|].
      destruct (parse_elements f t) as [[l y]|] eqn:E; [|discriminate].
      intros [= <- _]. apply json_data_arr. eapply IHe, E. }
    destruct (Ascii.eqb c "{").
    { destruct (skip_ws t) as [|c' t']; [discriminate|].
      destruct (Ascii.eqb c' "}"); [intros [= <- _]; repeat split; constructor|].
      destruct (parse_members f t) as [[ms y]|] eqn:E; [|discriminate].
      intros [= <- _]. apply obj_of_members_shape. eapply IHm, E. }
    destruct (Ascii.eqb c "-").
    { destruct (parse_digits t) as [[x y]|]; [|discriminate].
      intros [= <- _]. split; exact I. }
    destruct (parse_digits (String c t)) as [[x y]|]; [|discriminate].
    intros [= <- _]. split; exact I.
  - intros s l r. cbn [parse_elements].
    destruct (parse_value f s) as [[v y]|] eqn:E; [|discriminate].
    destruct (skip_ws y) as [|c t]; [discriminate|].
    destruct (Ascii.eqb c ",").
    { destruct (parse_elements f t) as [[l' z]|] eqn:E'; [|discriminate].
      intros [= <- _]. constructor; [eapply IHv, E | eapply IHe, E']. }
    destruct (Ascii.eqb c "]"); [|discriminate].
    intros [= <- _]. constructor; [eapply IHv, E | constructor].
  - intros s ms r. cbn [parse_members].
    destruct (skip_ws s) as [|q t]; [discriminate|].
    destruct (Ascii.eqb q dquote); [|discriminate].
    destruct (parse_chars t) as [[k r1]|]; [|discriminate].
    destruct (skip_ws r1) as [|c r2]; [discriminate|].
    destruct (Ascii.eqb c ":"); [|discriminate].
    destruct (parse_value f r2) as [[v r3]|] eqn:E; [|discriminate].
    destruct (skip_ws r3) as [|c' r4]; [discriminate|].
    destruct (Ascii.eqb c' ",").
    { destruct (parse_members f r4) as [[ms' z]|] eqn:E'; [|discriminate].
      intros [= <- _]. constructor; [eapply IHv, E | eapply IHm, E']. }
    destruct (Ascii.eqb c' "}"); [|discriminate].
    intros [= <- _]. constructor; [eapply IHv, E | constructor].
Qed.

Lemma parse_json_data (text : string) (v : value) :
  JSON.parse text = Some v -> json_data v.
Proof.
  unfold parse.
  destruct (parse_value (S (String.length text)) text) as [[v' r]|] eqn:E;
    [|discriminate].
  destruct (falsy (skip_ws r)); [|discriminate].
  intros [= <-]. eapply (proj1 (parse_shape _)), E.
Qed.

(* ================================================================== *)
(** * Part XII. The properties of the specification                     *)
(* ================================================================== *)

(** ** Tag selection *)

(** C4.  Toggling a tag that is selected removes it (the others keep their
    order); toggling a tag that is not selected appends it while fewer than
    three are selected, and changes nothing when three are.  Hence no
    sequence of toggles from the empty selection selects more than three
    tags, and toggling four distinct tags leaves the first three. *)
Theorem toggleTag_bounded_multiselect :
  forall (s : State) (tag : string),
    (In tag (selectedTags s) ->
       selectedTags (toggleTag tag s)
       = filter (fun t => negb (String.eqb t tag)) (selectedTags s)
       /\ ~ In tag (selectedTags (toggleTag tag s)))
    /\ (~ In tag (selectedTags s) -> (List.length (selectedTags s) < 3)%nat ->
          selectedTags (toggleTag tag s) = (selectedTags s ++ [tag])%list)
    /\ (~ In tag (selectedTags s) -> List.length (selectedTags s) = 3%nat ->
          toggleTag tag s = s)
    /\ (forall tags, selectedTags s = [] ->
          (List.length (selectedTags (run s (map ToggleTag tags))) <= 3)%nat)
    /\ (forall a b c d, selectedTags s = [] -> NoDup [a; b; c; d] ->
          selectedTags (run s (map ToggleTag [a; b; c; d])) = [a; b; c]).
Proof.
  intros s tag. split; [|split; [|split; [|split]]].
  - intros H. apply includes_In in H. unfold toggleTag. rewrite H. simpl.
    split; [reflexivity|].
    intros Hin. apply filter_In in Hin. destruct Hin as [_ Hne].
    now rewrite String.eqb_refl in Hne.
  - intros Hn Hlen. unfold toggleTag.
    destruct (includes (selectedTags s) tag) eqn:E.
    + apply includes_In in E. contradiction.
    + apply Nat.ltb_lt in Hlen. now rewrite Hlen.
  - intros Hn Hlen. unfold toggleTag.
    destruct (includes (selectedTags s) tag) eqn:E.
    + apply includes_In in E. contradiction.
    + rewrite Hlen. reflexivity.
  - intros tags Hs.
    assert (G : forall s0, (List.length (selectedTags s0) <= 3)%nat ->
                (List.length (selectedTags (run s0 (map ToggleTag tags))) <= 3)%nat).
    { induction tags as [|t tags IH]; intros s0 H0; simpl; [exact H0|].
      apply IH, toggleTag_length, H0. }
    apply G. rewrite Hs. simpl. lia.
  - intros a b c d Hs Hnd.
    inversion Hnd as [|? ? Ha Hnd1]; subst.
    inversion Hnd1 as [|? ? Hb Hnd2]; subst.
    inversion Hnd2 as [|? ? Hc _]; subst.
    assert (Add : forall s0 t, ~ In t (selectedTags s0) ->
                    (List.length (selectedTags s0) < 3)%nat ->
                    selectedTags (toggleTag t s0) = (selectedTags s0 ++ [t])%list).
    { intros s0 t Hn Hlen. unfold toggleTag.
      destruct (includes (selectedTags s0) t) eqn:E.
      - apply includes_In in E. contradiction.
      - apply Nat.ltb_lt in Hlen. now rewrite Hlen. }
    assert (Full : forall s0 t, ~ In t (selectedTags s0) ->
                     List.length (selectedTags s0) = 3%nat -> toggleTag t s0 = s0).
    { intros s0 t Hn Hlen. unfold toggleTag.
      destruct (includes (selectedTags s0) t) eqn:E.
      - apply includes_In in E. contradiction.
      - now rewrite Hlen. }
    unfold run. simpl fold_left.
    assert (E1 : selectedTags (toggleTag a s) = [a]).
    { rewrite Add; rewrite Hs; simpl; auto. }
    assert (E2 : selectedTags (toggleTag b (toggleTag a s)) = [a; b]).
    { rewrite Add; rewrite E1; simpl; [reflexivity| |lia].
      intros [E | []]. apply Ha. subst. simpl. auto. }
    assert (E3 : selectedTags (toggleTag c (toggleTag b (toggleTag a s))) = [a; b; c]).
    { rewrite Add; rewrite E2; simpl; [reflexivity| |lia].
      intros [E | [E | []]]; subst; [apply Ha | apply Hb]; simpl; auto. }
    rewrite Full; [exact E3 | | now rewrite E3].
    rewrite E3. simpl.
    intros [E | [E | [E | []]]]; subst;
      [apply Ha | apply Hb | apply Hc]; simpl; auto.
Qed.

Lemma toggleTag_bounded_multiselect_witness :
  let s2 := setSelectedTags ["Relax"; "Calm"] just_mounted in
  let s3 := setSelectedTags ["Relax"; "Calm"; "Focus"] just_mounted in
  selectedTags (toggleTag "Relax" s2) = ["Calm"]
  /\ selectedTags (toggleTag "Blue" s2) = ["Relax"; "Calm"; "Blue"]
  /\ toggleTag "Blue" s3 = s3
  /\ (List.length (selectedTags
        (run just_mounted (map ToggleTag ["Relax"; "Calm"; "Focus"; "Blue"; "Calm"; "Tired"])))
      <= 3)%nat
  /\ selectedTags (run just_mounted (map ToggleTag ["Relax"; "Calm"; "Focus"; "Blue"]))
     = ["Relax"; "Calm"; "Focus"].
Proof.
  intros s2 s3.
  assert (ne : forall x y : string, String.eqb x y = false -> x <> y)
    by (intros x y; apply String.eqb_neq).
  split; [|split; [|split; [|split]]].
  - destruct (toggleTag_bounded_multiselect s2 "Relax") as [H _].
    destruct H as [H _]; [simpl; auto | exact H].
  - destruct (toggleTag_bounded_multiselect s2 "Blue") as [_ [H _]].
    apply H; [|simpl; lia].
    simpl. intros [E | [E | []]]; revert E; apply ne; reflexivity.
  - destruct (toggleTag_bounded_multiselect s3 "Blue") as [_ [_ [H _]]].
    apply H; [|reflexivity].
    simpl. intros [E | [E | [E | []]]]; revert E; apply ne; reflexivity.
  - destruct (toggleTag_bounded_multiselect just_mounted "Relax") as [_ [_ [_ [H _]]]].
    apply H. reflexivity.
  - destruct (toggleTag_bounded_multiselect just_mounted "Relax") as [_ [_ [_ [_ H]]]].
    apply H; [reflexivity|].
    repeat constructor; simpl;
      intros E; repeat (destruct E as [E | E]; [revert E; apply ne; reflexivity|]);
      exact E.
Defined.

(** ** Order of the list *)

Lemma step_memories (s : State) (a : Action) :
  memories (step s a) =
    match a with
    | Create w =>
        if builds_record w s
        then sort byTimestampDesc (created w s :: memories s)
        else memories s
    | Delete w id =>
        filter (fun m => negb (String.eqb (Types.id m) id)) (memories s)
    | SetFeedback w id b =>
        map (fun m =>
               if String.eqb (Types.id m) id then
                 mkMemory (Types.id m) (content m) (Types.moodScore m) (moodTags m)
                   (timestamp m) (song m) (analysis m) (imageUrl m)
                   (Some (if b then correct else incorrect)) (Types.language m)
               else m)
            (memories s)
    | _ => memories s
    end.
Proof.
  destruct a as [w|w i|w i b|d t a x m|t|l]; simpl; try reflexivity.
  - unfold builds_record. destruct (submittable s) eqn:E; simpl.
    + rewrite handleAnalyze_memories by assumption.
      destruct (analysis_for w s); reflexivity.
    + now rewrite handleAnalyze_blank.
  - unfold deleteMemory. apply saveMemories_memories.
  - unfold handleFeedback. apply saveMemories_memories.
  - unfold toggleTag.
    destruct (includes (selectedTags s) t); [reflexivity|].
    destruct (List.length (selectedTags s) <? 3)%nat; reflexivity.
Qed.

Lemma step_keeps_order (s : State) (a : Action) :
  match a with
  | Create w => malformed_date w (recordDate s) = false
  | _ => True
  end ->
  Forall numeric (memories s) /\ sorted_desc (memories s) ->
  Forall numeric (memories (step s a)) /\ sorted_desc (memories (step s a)).
Proof.
  intros Ha [Hn Hs]. rewrite step_memories.
  destruct a as [w|w i|w i b|d t a x m|t|l]; try (split; assumption).
  - destruct (builds_record w s); [|split; assumption].
    assert (Hall : Forall numeric (created w s :: memories s)).
    { constructor; [exact Ha | exact Hn]. }
    split; [|apply sort_sorted_desc, Hall].
    eapply Permutation_Forall; [apply Permutation_sym, sort_Permutation | exact Hall].
  - split; [|apply filter_sorted_desc, Hs].
    rewrite Forall_forall in *. intros m Hm. apply filter_In in Hm. apply Hn, Hm.
  - split; [|apply map_sorted_desc; [|exact Hs]].
    + rewrite Forall_forall in *. intros m Hm.
      apply in_map_iff in Hm. destruct Hm as [m' [<- Hm']].
      specialize (Hn m' Hm'). destruct (String.eqb (Types.id m') i); exact Hn.
    + intros m. destruct (String.eqb (Types.id m) i); reflexivity.
Qed.

Lemma sorted_desc_suffix (l1 l2 : list Memory) :
  sorted_desc (l1 ++ l2) -> sorted_desc l2.
Proof.
  induction l1 as [|m l1 IH]; simpl; [auto|].
  intros H. apply StronglySorted_inv in H. apply IH, H.
Qed.

Lemma sorted_desc_timestamps (l : list Memory) :
  sorted_desc l ->
  StronglySorted (fun a b => num_le b a = true) (map timestamp l).
Proof.
  induction 1 as [|m l Hs IH Hm]; simpl; constructor; [assumption|].
  rewrite Forall_forall in *. intros t Ht.
  apply in_map_iff in Ht. destruct Ht as [m' [<- Hm']]. apply Hm, Hm'.
Qed.

(** C1 (as stated, refuted).  Three creations in a row, the second one with
    the date field left empty: the record of 1 November ends up in front of
    the record of 10 November, with the dateless record between them. *)
Lemma memories_unsorted_after_empty_date :
  let session :=
    [ FillForm "2023-11-10" "Fly Me to the Moon" "Sample Artist" EmptyString 30;
      Create offline;
      FillForm EmptyString "Moon River" "Sample Artist" EmptyString 0;
      Create offline;
      FillForm "2023-11-01" "Blue Moon" "Sample Artist" EmptyString (-10);
      Create offline ] in
  map timestamp (memories (run just_mounted session))
  = [Num 1698764400000; NaN; Num 1699542000000]
  /\ ~ sorted_desc (memories (run just_mounted session)).
Proof.
  intros session.
  assert (E : map timestamp (memories (run just_mounted session))
              = [Num 1698764400000; NaN; Num 1699542000000])
    by (vm_compute; reflexivity).
  split; [exact E|].
  intros H. apply sorted_desc_timestamps in H. rewrite E in H.
  inversion H as [|? ? _ Hall]; subst.
  inversion Hall as [|? ? Hnan _]; subst.
  discriminate Hnan.
Qed.

(** C1 (amended).  Whatever is created, deleted and marked, starting from
    an empty list: as long as every creation is made with a date that
    denotes an instant, the list is sorted by timestamp, descending; of two
    records in it, the one that stands first has the later or equal
    timestamp. *)
Theorem memories_sorted_when_dates_well_formed :
  forall (s0 : State) (actions : list Action),
    memories s0 = [] ->
    dates_well_formed s0 actions ->
    sorted_desc (memories (run s0 actions))
    /\ (forall l1 m1 l2 m2 l3,
          memories (run s0 actions) = (l1 ++ m1 :: l2 ++ m2 :: l3)%list ->
          num_le (timestamp m2) (timestamp m1) = true).
Proof.
  intros s0 actions Hempty Hdates.
  assert (Inv : Forall numeric (memories (run s0 actions))
                /\ sorted_desc (memories (run s0 actions))).
  { assert (I0 : Forall numeric (memories s0) /\ sorted_desc (memories s0))
      by (rewrite Hempty; split; constructor).
    clear Hempty. revert s0 Hdates I0.
    induction actions as [|a actions IH]; intros s0 Hdates I0; [exact I0|].
    destruct Hdates as [Ha Hrest]. simpl.
    apply IH; [exact Hrest|]. apply step_keeps_order; assumption. }
  destruct Inv as [_ Hs]. split; [exact Hs|].
  intros l1 m1 l2 m2 l3 E. rewrite E in Hs.
  apply sorted_desc_suffix in Hs.
  inversion Hs as [|? ? _ Hall]; subst.
  rewrite Forall_forall in Hall. apply Hall.
  apply in_or_app. right. now left.
Qed.

Lemma memories_sorted_when_dates_well_formed_witness :
  let session :=
    [ FillForm "2023-11-10" "Fly Me to the Moon" "Sample Artist" EmptyString 30;
      Create offline;
      FillForm "2023-11-12" "Moon River" "Sample Artist" EmptyString 0;
      Create (later 60000 offline);
      Delete offline "1700000000000";
      FillForm "2023-11-01" "Blue Moon" "Sample Artist" EmptyString (-10);
      Create (later 120000 offline);
      SetFeedback offline "1700000060000" true ] in
  sorted_desc (memories (run just_mounted session)).
Proof.
  intros session.
  apply (memories_sorted_when_dates_well_formed just_mounted session).
  - reflexivity.
  - vm_compute. repeat split; reflexivity.
Defined.

(** ** Identifiers *)

Lemma created_id (w : World) (s : State) :
  Types.id (created w s) = toString (now w).
Proof. reflexivity. Qed.

Lemma produced_ids (actions : list Action) :
  forall s i,
    In i (map Types.id (produced s actions)) ->
    exists t, In t (clock_readings actions) /\ i = toString t.
Proof.
  induction actions as [|a actions IH]; intros s i Hi; simpl in *; [contradiction|].
  rewrite map_app in Hi. apply in_app_or in Hi. destruct Hi as [Hi | Hi].
  - destruct a as [w|w j|w j b|d t a x m|t|l]; simpl in Hi; try contradiction.
    destruct (builds_record w s); simpl in Hi; [|contradiction].
    destruct Hi as [<- | []]. exists (now w). split; [now left | reflexivity].
  - apply IH in Hi. destruct Hi as [t [Ht E]]. exists t. split; [|exact E].
    destruct a; simpl; auto.
Qed.

(** C2 (as stated, refuted).  Two creations that read the same value of
    the clock give their records the same id; both records are in the
    list. *)
Lemma same_clock_reading_same_id :
  let session :=
    [ FillForm "2023-11-10" "Fly Me to the Moon" "Sample Artist" EmptyString 30;
      Create offline;
      FillForm "2023-11-12" "Moon River" "Sample Artist" EmptyString 0;
      Create offline ] in
  map Types.id (produced just_mounted session) = ["1700000000000"; "1700000000000"]
  /\ map Types.id (memories (run just_mounted session)) = ["1700000000000"; "1700000000000"]
  /\ ~ NoDup (map Types.id (produced just_mounted session)).
Proof.
  intros session.
  assert (E : map Types.id (produced just_mounted session)
              = ["1700000000000"; "1700000000000"]) by (vm_compute; reflexivity).
  split; [exact E|]. split; [vm_compute; reflexivity|].
  rewrite E. intros H. inversion H as [|? ? Hn _]; subst.
  apply Hn. now left.
Qed.

(** C2 (amended).  The id of a record is the clock reading of its creation,
    in decimal.  So the records built in one session have distinct ids as
    long as their creations read distinct values of the millisecond
    clock. *)
Theorem ids_distinct_when_clock_readings_distinct :
  forall (s : State) (actions : list Action),
    NoDup (clock_readings actions) ->
    NoDup (map Types.id (produced s actions))
    /\ (forall w s', builds_record w s' = true ->
          In (created w s') (memories (handleAnalyze w s'))
          /\ Types.id (created w s') = toString (now w)).
Proof.
  intros s actions Hnd. split.
  - revert s. induction actions as [|a actions IH]; intros s; simpl; [constructor|].
    assert (Hrest : NoDup (clock_readings actions))
      by (destruct a; simpl in Hnd; try assumption; now inversion Hnd).
    destruct a as [w|w j|w j b|d t a x m|t|l]; simpl; try (apply IH, Hrest).
    destruct (builds_record w s); simpl; [|apply IH, Hrest].
    constructor; [|apply IH, Hrest].
    intros Hin. apply produced_ids in Hin. destruct Hin as [t [Ht E]].
    change (toString (now w) = toString t) in E.
    apply toString_inj in E. subst t.
    simpl in Hnd. inversion Hnd as [|? ? Hn _]; subst. contradiction.
  - intros w s' Hb. split; [|reflexivity].
    unfold builds_record in Hb. apply andb_true_iff in Hb. destruct Hb as [Hsub Han].
    rewrite handleAnalyze_memories by assumption.
    destruct (analysis_for w s') eqn:E; try discriminate Han;
      apply sort_In; now left.
Qed.

Lemma ids_distinct_when_clock_readings_distinct_witness :
  let session :=
    [ FillForm "2023-11-10" "Fly Me to the Moon" "Sample Artist" EmptyString 30;
      Create offline;
      FillForm "2023-11-12" "Moon River" "Sample Artist" EmptyString 0;
      Create (later 60000 offline) ] in
  NoDup (map Types.id (produced just_mounted session)).
Proof.
  intros session.
  refine (proj1 (ids_distinct_when_clock_readings_distinct just_mounted session _)).
  simpl. constructor; [simpl; intros [E | []]; discriminate E|].
  constructor; [simpl; tauto | constructor].
Defined.

(** ** The creation sequence *)

(** C5 (as stated, refuted).  A submission with a title, an artist and an
    empty date field is not stopped: both provider calls go out and a
    record, with [NaN] for its timestamp, reaches the list and the slot. *)
Lemma malformed_date_is_not_blocked :
  let s := setArtistName "Sample Artist"
             (setSongTitle "Fly Me to the Moon" (setRecordDate EmptyString just_mounted)) in
  malformed_date offline (recordDate s) = true
  /\ List.length (filter is_provider_call (new_events s (handleAnalyze offline s))) = 2%nat
  /\ map timestamp (memories (handleAnalyze offline s)) = [NaN]
  /\ storage (handleAnalyze offline s) <> None
  /\ handleAnalyze offline s <> s.
Proof.
  intros s. split; [vm_compute; reflexivity|].
  split; [vm_compute; reflexivity|].
  split; [vm_compute; reflexivity|].
  split.
  - vm_compute. discriminate.
  - intros E. apply (f_equal (fun x => List.length (memories x))) in E.
    vm_compute in E. discriminate E.
Qed.

(** C5 (amended).  A submission whose song title or artist is blank (empty
    once trimmed) changes nothing at all: no provider call, no record, no
    write to the slot, no notice, and the form stays as it is. *)
Theorem blank_submission_is_dropped :
  forall (w : World) (s : State),
    blank (songTitle s) = true \/ blank (artistName s) = true ->
    handleAnalyze w s = s
    /\ new_events s (handleAnalyze w s) = []
    /\ memories (handleAnalyze w s) = memories s
    /\ storage (handleAnalyze w s) = storage s
    /\ isAnalyzing (handleAnalyze w s) = isAnalyzing s.
Proof.
  intros w s H.
  assert (E : handleAnalyze w s = s).
  { apply handleAnalyze_blank. unfold submittable.
    destruct H as [-> | ->]; [reflexivity | now rewrite orb_true_r]. }
  rewrite E. repeat split.
  unfold new_events. apply skipn_all.
Qed.

Lemma blank_submission_is_dropped_witness :
  let s := setArtistName "Sample Artist"
             (setSongTitle "   " (setRecordDate "2023-11-10" just_mounted)) in
  handleAnalyze offline s = s.
Proof.
  intros s.
  refine (proj1 (blank_submission_is_dropped offline s _)).
  left. vm_compute. reflexivity.
Defined.

(** C3.  When the analysis call fails, a submission with a title and an
    artist still builds its record and puts it in the list, next to the
    records that were there: the analysis of the record is the fallback
    object -- the label that says that the analysis failed, the apology,
    the grey [#cbd5e1] and the prompt for an abstract picture, the first
    two in the language of the session --, its image is the empty string
    when the image call fails too, and with the storage in order the
    [try] block ends normally, the list is written and no notice is
    shown.  The record is the head of the list when no record has a later
    timestamp.  In particular for the title Fly Me to the Moon by Sample
    Artist, mood 30, tag Nostalgic. *)
Theorem analysis_failure_stores_fallback :
  forall (w : World) (s : State),
    submittable s = true ->
    analysis_fails w = true ->
    let s' := handleAnalyze w s in
    let payload :=
      VObj [ ("inferredEmotion",
              VStr (match language s with
                    | ja => "解析不能"
                    | en => "Analysis Failed"
                    end));
             ("analysisText",
              VStr (match language s with
                    | ja => "申し訳ありません、分析中にエラーが発生しました。もう少し時間を置いてから試してみてください。"
                    | en => "Sorry, an error occurred during analysis. Please try again in a moment."
                    end));
             ("moodColor", VStr "#cbd5e1");
             ("imagePrompt", VStr "abstract minimalist geometric art, soft colors") ] in
    Permutation (memories s') (created w s :: memories s)
    /\ In (created w s) (memories s')
    /\ analysis (created w s) = payload
    /\ inferredEmotion (created w s) = Some (VStr (fallback_sentinel (language s)))
    /\ (image_fails w = true -> imageUrl (created w s) = EmptyString)
    /\ (setItem_throws w = false ->
          body_completion w s = Normal tt
          /\ storage s' = Some (JSON.stringify (memories_to_value (memories s')))
          /\ filter is_alert (new_events s s') = [])
    /\ ((forall m, In m (memories s) ->
           num_le (timestamp m) (timestamp (created w s)) = true) ->
        exists rest,
          memories s' = created w s :: rest /\ Permutation rest (memories s))
    /\ (songTitle s = "Fly Me to the Moon" -> artistName s = "Sample Artist" ->
        moodScore s = 30 -> selectedTags s = ["Nostalgic"] ->
        image_fails w = true ->
        (forall m, In m (memories s) ->
           num_le (timestamp m) (timestamp (created w s)) = true) ->
        exists m rest,
          memories s' = m :: rest
          /\ analysis m = payload
          /\ inferredEmotion m = Some (VStr (fallback_sentinel (language s)))
          /\ imageUrl m = EmptyString
          /\ song m = mkSong "Sample Artist" "Fly Me to the Moon"
          /\ Types.moodScore m = 30
          /\ moodTags m = ["Nostalgic"]).
Proof.
  intros w s Hsub Hfail s' payload.
  pose proof (analysis_fails_fallback w s Hfail) as Han.
  assert (Hpay : analysis (created w s) = payload).
  { unfold created, newMemory_of. cbn [analysis]. rewrite Han.
    unfold payload. destruct (language s); reflexivity. }
  assert (Hmem : memories s' = sort byTimestampDesc (created w s :: memories s)).
  { unfold s'. rewrite handleAnalyze_memories by assumption.
    rewrite Han. reflexivity. }
  assert (Hemo : inferredEmotion (created w s)
                 = Some (VStr (fallback_sentinel (language s)))).
  { unfold inferredEmotion, created, newMemory_of. cbn [analysis].
    rewrite Han. destruct (language s); reflexivity. }
  assert (Himg : image_fails w = true -> imageUrl (created w s) = EmptyString).
  { intros Hi. unfold created, newMemory_of. cbn [imageUrl].
    apply image_fails_empty, Hi. }
  assert (Hhead : (forall m, In m (memories s) ->
                     num_le (timestamp m) (timestamp (created w s)) = true) ->
                  memories s' = created w s :: sort byTimestampDesc (memories s)).
  { intros Hrecent. rewrite Hmem. apply sort_keeps_head.
    intros y Hy. specialize (Hrecent y Hy).
    unfold comes_after, byTimestampDesc, sub, num_le in *.
    destruct (timestamp y), (timestamp (created w s)); try reflexivity.
    apply Z.leb_le in Hrecent. apply Z.ltb_ge. lia. }
  split; [rewrite Hmem; apply sort_Permutation|].
  split; [rewrite Hmem; apply sort_In; now left|].
  split; [exact Hpay|].
  split; [exact Hemo|].
  split; [exact Himg|].
  split; [|split].
  - intros Hok. split; [|split].
    + destruct (body_completion w s) as [[]|] eqn:Eb; [reflexivity|].
      apply body_completion_Thrown in Eb. exfalso.
      destruct Eb as [En | [_ Et]]; [|congruence].
      rewrite Han in En. destruct (language s); discriminate En.
    + unfold s'. rewrite handleAnalyze_storage, handleAnalyze_memories by assumption.
      rewrite Han, Hok. reflexivity.
    + unfold s'. rewrite (new_events_app s _ (run_events w s))
        by (apply handleAnalyze_events; assumption).
      unfold run_events. fold (analysis_for w s). rewrite Hok.
      match goal with
      | |- context [analyzeMemory ?w ?a ?b ?c ?d ?e ?f] =>
          destruct (analyzeMemory_events w a b c d e f) as [Ha _]
      end.
      rewrite filter_app, Ha. rewrite Han. cbn [fallback fst].
      rewrite List.app_nil_r. apply generateMemoryImage_events.
  - intros Hrecent. exists (sort byTimestampDesc (memories s)).
    split; [apply Hhead, Hrecent | apply sort_Permutation].
  - intros Et Ea Em Etags Hi Hrecent.
    exists (created w s), (sort byTimestampDesc (memories s)).
    split; [apply Hhead, Hrecent|].
    split; [exact Hpay|].
    split; [exact Hemo|].
    split; [apply Himg, Hi|].
    unfold created, newMemory_of. cbn [song Types.moodScore moodTags].
    rewrite Et, Ea, Em, Etags. repeat split.
Qed.

Lemma analysis_failure_stores_fallback_witness :
  let s := run just_mounted
             [ FillForm "2023-11-10" "Fly Me to the Moon" "Sample Artist" EmptyString 30;
               ToggleTag "Nostalgic" ] in
  exists m rest,
    memories (handleAnalyze offline s) = m :: rest
    /\ analysis m
       = VObj [ ("inferredEmotion", VStr "解析不能");
                ("analysisText",
                 VStr "申し訳ありません、分析中にエラーが発生しました。もう少し時間を置いてから試してみてください。");
                ("moodColor", VStr "#cbd5e1");
                ("imagePrompt", VStr "abstract minimalist geometric art, soft colors") ]
    /\ inferredEmotion m = Some (VStr "解析不能")
    /\ imageUrl m = EmptyString
    /\ song m = mkSong "Sample Artist" "Fly Me to the Moon"
    /\ Types.moodScore m = 30
    /\ moodTags m = ["Nostalgic"].
Proof.
  intros s.
  assert (Hsub : submittable s = true) by (vm_compute; reflexivity).
  assert (Hfail : analysis_fails offline = true) by reflexivity.
  destruct (analysis_failure_stores_fallback offline s Hsub Hfail)
    as (_ & _ & _ & _ & _ & _ & _ & H).
  apply H; try reflexivity.
  intros m [].
Defined.

(** C6 (as stated, refuted).  The write to the slot fails (quota): the
    attempt ends with the notice and the slot is as before, but the list
    in memory has already taken the new record. *)
Lemma failed_write_keeps_new_record_in_memory :
  let w := mkWorld 32400000 1700000000000 Rejected Rejected true in
  let s := setArtistName "Sample Artist"
             (setSongTitle "Fly Me to the Moon" (setRecordDate "2023-11-10" just_mounted)) in
  body_completion w s = Thrown
  /\ memories s = []
  /\ map Types.id (memories (handleAnalyze w s)) = ["1700000000000"]
  /\ memories (handleAnalyze w s) <> memories s
  /\ storage (handleAnalyze w s) = storage s.
Proof.
  intros w s. split; [vm_compute; reflexivity|].
  split; [reflexivity|].
  split; [vm_compute; reflexivity|].
  split; [|vm_compute; reflexivity].
  intros E. apply (f_equal (@List.length Memory)) in E.
  vm_compute in E. discriminate E.
Qed.

(** C6 (amended).  When the [try] block of a creation ends in an exception
    (the analysis came back as [null], or the write to the slot failed),
    the attempt is given up: exactly one notice, the generic message in the
    language of the session, is shown, the slot keeps its content, the
    form is not cleared -- date, note, title, artist, mood and tags are
    what they were, and so is the language -- and the component is idle
    again.  The list in memory is untouched when the exception comes
    before the save; when it is the write that fails, the list in memory
    already holds the new record next to the old ones, and keeps it. *)
Theorem unexpected_failure_outcome :
  forall (w : World) (s : State),
    submittable s = true ->
    body_completion w s = Thrown ->
    let s' := handleAnalyze w s in
    filter is_alert (new_events s s')
    = [Alert (match language s with
              | ja => "エラーが発生しました。しばらくしてから再度お試しください。"
              | en => "An error occurred. Please try again later."
              end)]
    /\ storage s' = storage s
    /\ (isAnalyzing s' = false /\ loadingStep s' = EmptyString)
    /\ (recordDate s' = recordDate s /\ diaryText s' = diaryText s
        /\ songTitle s' = songTitle s /\ artistName s' = artistName s
        /\ moodScore s' = moodScore s /\ selectedTags s' = selectedTags s
        /\ language s' = language s)
    /\ (analysis_for w s = VNull -> memories s' = memories s)
    /\ (analysis_for w s <> VNull ->
          setItem_throws w = true
          /\ In (created w s) (memories s')
          /\ Permutation (memories s') (created w s :: memories s)).
Proof.
  intros w s Hsub Hthrown s'.
  apply body_completion_Thrown in Hthrown.
  assert (Hev : filter is_alert (new_events s s')
                = [Alert (UI_TEXT errorMsg (language s))]).
  { unfold s'. rewrite (new_events_app s _ (run_events w s))
      by (apply handleAnalyze_events; assumption).
    unfold run_events. fold (analysis_for w s).
    match goal with
    | |- context [analyzeMemory ?w ?a ?b ?c ?d ?e ?f] =>
        destruct (analyzeMemory_events w a b c d e f) as [Ha _]
    end.
    rewrite filter_app, Ha. cbn [app].
    destruct Hthrown as [-> | [Hnn ->]]; [reflexivity|].
    destruct (analysis_for w s); try (exfalso; apply Hnn; reflexivity);
      rewrite filter_app, generateMemoryImage_events; reflexivity. }
  assert (Hst : storage s' = storage s).
  { unfold s'. rewrite handleAnalyze_storage by assumption.
    destruct Hthrown as [-> | [Hnn ->]]; [reflexivity|].
    destruct (analysis_for w s); reflexivity. }
  assert (Hform : (isAnalyzing s' = false /\ loadingStep s' = EmptyString)
                  /\ (recordDate s' = recordDate s /\ diaryText s' = diaryText s
                      /\ songTitle s' = songTitle s /\ artistName s' = artistName s
                      /\ moodScore s' = moodScore s /\ selectedTags s' = selectedTags s
                      /\ language s' = language s)).
  { unfold s'. pose proof Hsub as Hsub'.
    assert (Hcases : analysis_for w s = VNull
                     \/ (analysis_for w s <> VNull /\ setItem_throws w = true))
      by exact Hthrown.
    clear Hthrown Hev Hst. revert Hcases.
    unfold submittable, blank in Hsub'. apply negb_true_iff in Hsub'.
    unfold handleAnalyze, try_catch_finally, handleAnalyze_body, analysis_for,
      saveMemories, setItem, bind, call, exec, get_prop, throw, ret.
    rewrite Hsub'.
    match goal with
    | |- context [analyzeMemory ?w ?a ?b ?c ?d ?e ?f] =>
        destruct (analyzeMemory w a b c d e f) as [an evs]
    end.
    cbn [fst snd].
    intros [Hn | [Hnn Ht]].
    - subst an. cbn. repeat split.
    - rewrite Ht. destruct an; try (exfalso; apply Hnn; reflexivity);
        destruct (generateMemoryImage w _) as [url evi]; cbn; repeat split. }
  split; [rewrite Hev; destruct (language s); reflexivity|]. split; [exact Hst|].
  split; [apply Hform|]. split; [apply Hform|].
  split.
  - intros Hn. unfold s'. rewrite handleAnalyze_memories by assumption.
    now rewrite Hn.
  - intros Hnn. destruct Hthrown as [Hn | [_ Ht]]; [contradiction|].
    split; [exact Ht|].
    assert (Hmem : memories s' = sort byTimestampDesc (created w s :: memories s)).
    { unfold s'. rewrite handleAnalyze_memories by assumption.
      destruct (analysis_for w s); try reflexivity. exfalso. now apply Hnn. }
    rewrite Hmem. split; [apply sort_In; now left | apply sort_Permutation].
Qed.

Lemma unexpected_failure_outcome_witness :
  let w := mkWorld 32400000 1700000000000 (Resolved (Some "null")) Rejected false in
  let s := setArtistName "Sample Artist"
             (setSongTitle "Fly Me to the Moon" (setRecordDate "2023-11-10" just_mounted)) in
  filter is_alert (new_events s (handleAnalyze w s))
  = [Alert "エラーが発生しました。しばらくしてから再度お試しください。"]
  /\ storage (handleAnalyze w s) = None
  /\ memories (handleAnalyze w s) = [].
Proof.
  intros w s.
  assert (Hsub : submittable s = true) by (vm_compute; reflexivity).
  assert (Hthrown : body_completion w s = Thrown) by (vm_compute; reflexivity).
  destruct (unexpected_failure_outcome w s Hsub Hthrown)
    as (Hev & Hst & _ & _ & Hmem & _).
  split; [exact Hev|]. split; [exact Hst|].
  apply Hmem. vm_compute. reflexivity.
Defined.

(** ** Persistence *)

Lemma as_strings_map (l : list string) : as_strings (map VStr l) = Some l.
Proof. induction l as [|x l IH]; simpl; [reflexivity | now rewrite IH]. Qed.

Lemma as_memory_to_value (m : Memory) : as_memory (Memory_to_value m) = Some m.
Proof.
  destruct m as [i c sc tg ts [a t] an im fb lg].
  unfold as_memory, Memory_to_value. cbn -[as_strings].
  rewrite as_strings_map.
  destruct fb as [[]|]; destruct lg; reflexivity.
Qed.

Lemma as_memories_to_value (ms : list Memory) :
  as_memories (memories_to_value ms) = Some ms.
Proof.
  unfold as_memories, memories_to_value.
  induction ms as [|m ms IH]; [reflexivity|].
  cbn [map as_memory_list]. now rewrite as_memory_to_value, IH.
Qed.

Lemma strings_json_data (l : list string) : json_data (VArr (map VStr l)).
Proof.
  apply json_data_arr. induction l; constructor; [split; exact I | assumption].
Qed.

Lemma Memory_json_data (m : Memory) :
  numeric m -> analysis_is_json m -> json_data (Memory_to_value m).
Proof.
  intros Hnum Han. unfold Memory_to_value. apply json_data_obj. split.
  - cbn. distinct_strings.
  - repeat (apply Forall_cons); [..|apply Forall_nil];
      cbv beta; cbn [snd]; try (split; exact I).
    + apply strings_json_data.
    + unfold numeric in Hnum. destruct (timestamp m); [split; exact I | discriminate].
    + apply json_data_obj. split.
      * cbn. distinct_strings.
      * repeat (apply Forall_cons); [..|apply Forall_nil]; split; exact I.
    + exact Han.
    + destruct (userFeedback m); split; exact I.
Qed.

Lemma memories_json_data (ms : list Memory) :
  Forall numeric ms -> Forall analysis_is_json ms ->
  json_data (memories_to_value ms).
Proof.
  intros Hn Ha. apply json_data_arr.
  induction ms as [|m ms IH]; [constructor|].
  inversion Hn; inversion Ha; subst.
  constructor; [apply Memory_json_data; assumption | apply IH; assumption].
Qed.

(** C7 (as stated, refuted).  The list that a creation with an empty date
    field leaves in memory does not come back from the slot: its [NaN]
    timestamp is written as [null], and what is loaded is no longer a list
    of records. *)
Lemma nan_timestamp_is_not_restored :
  let s := setArtistName "Sample Artist"
             (setSongTitle "Fly Me to the Moon" (setRecordDate EmptyString just_mounted)) in
  let ms := memories (handleAnalyze offline s) in
  let slot := storage (fst (saveMemories offline ms just_mounted)) in
  map timestamp ms = [NaN]
  /\ memories_after_mount slot <> memories_to_value ms
  /\ as_memories (memories_after_mount slot) <> Some ms.
Proof.
  intros s ms slot.
  split; [vm_compute; reflexivity|].
  assert (E : as_memories (memories_after_mount slot) = None)
    by (vm_compute; reflexivity).
  split.
  - intros H. rewrite H, as_memories_to_value in E. discriminate E.
  - rewrite E. discriminate.
Qed.

(** C7 (amended).  A list whose records all have a number for timestamp
    (not [NaN]) and JSON data for analysis, once written to the slot by
    [saveMemories], is loaded back as it was: the same value, hence the
    same records in the same order.  Both conditions are hypotheses: the
    analysis of a record is whatever the reply of the provider parsed
    to, and nothing here says that every record meets them. *)
Theorem persisted_list_is_restored :
  forall (w : World) (s : State) (ms : list Memory),
    setItem_throws w = false ->
    Forall numeric ms ->
    Forall analysis_is_json ms ->
    let slot := storage (fst (saveMemories w ms s)) in
    slot = Some (JSON.stringify (memories_to_value ms))
    /\ loadMemories slot = Normal (Some (memories_to_value ms), [])
    /\ memories_after_mount slot = memories_to_value ms
    /\ as_memories (memories_after_mount slot) = Some ms.
Proof.
  intros w s ms Hok Hnum Han slot.
  assert (Eslot : slot = Some (JSON.stringify (memories_to_value ms))).
  { unfold slot, saveMemories, setItem, bind, exec. now rewrite Hok. }
  assert (Eload : loadMemories slot = Normal (Some (memories_to_value ms), [])).
  { rewrite Eslot. unfold loadMemories.
    destruct (memories_json_data ms Hnum Han) as [H1 H2].
    rewrite (parse_stringify _ H1 H2). reflexivity. }
  assert (Emount : memories_after_mount slot = memories_to_value ms).
  { unfold memories_after_mount. now rewrite Eload. }
  repeat split; try assumption.
  rewrite Emount. apply as_memories_to_value.
Qed.

Lemma persisted_list_is_restored_witness :
  let ms := memories (run just_mounted
              [ FillForm "2023-11-10" "Fly Me to the Moon" "Sample Artist" "la la" 30;
                ToggleTag "Nostalgic";
                Create offline;
                FillForm "2023-11-12" "Moon River" "Sample Artist" EmptyString (-20);
                Create (later 60000 offline);
                SetFeedback offline "1700000000000" true ]) in
  as_memories (memories_after_mount (storage (fst (saveMemories offline ms just_mounted))))
  = Some ms.
Proof.
  intros ms.
  refine (proj2 (proj2 (proj2
            (persisted_list_is_restored offline just_mounted ms eq_refl _ _)))).
  - unfold ms. evaluate_list. repeat constructor.
  - unfold ms. evaluate_list.
    repeat (apply Forall_cons); [..|apply Forall_nil];
      (split; cbn; repeat split; try exact I; distinct_strings).
Defined.

(** C8.  At mount the list is the empty list when the slot is absent.  When
    the slot holds a text that does not parse, the effect ends normally,
    the list stays the empty list, and, the text not being empty, the
    failure is written to the console.  The effect never ends in an
    exception. *)
Theorem load_fails_soft :
  (loadMemories None = Normal (None, []) /\ memories_after_mount None = VArr [])
  /\ (forall text, JSON.parse text = None ->
        memories_after_mount (Some text) = VArr []
        /\ exists log,
             loadMemories (Some text) = Normal (None, log)
             /\ (text <> EmptyString ->
                 log = [ConsoleError "Failed to load memories"]))
  /\ (forall saved, exists r, loadMemories saved = Normal r).
Proof.
  split; [split; reflexivity|]. split.
  - intros text H. unfold memories_after_mount, loadMemories. rewrite H.
    destruct text as [|c t]; cbn [falsy].
    + split; [reflexivity|]. exists []. split; [reflexivity|]. intros E. now elim E.
    + split; [reflexivity|]. eexists. split; reflexivity.
  - intros [text|]; [|eexists; reflexivity].
    unfold loadMemories. destruct (falsy text); [eexists; reflexivity|].
    destruct (JSON.parse text); eexists; reflexivity.
Qed.

Lemma load_fails_soft_witness :
  memories_after_mount (Some "[{oops") = VArr []
  /\ loadMemories (Some "[{oops")
     = Normal (None, [ConsoleError "Failed to load memories"]).
Proof.
  destruct load_fails_soft as [_ [H _]].
  destruct (H "[{oops" eq_refl) as [Hm [log [Hl Hlog]]].
  split; [exact Hm|].
  rewrite Hl, Hlog; [reflexivity | discriminate].
Defined.

(** C10.  Loading checks nothing but the syntax: whatever value the text of
    the slot parses to is handed to [setMemories] as it is, be it a number
    or an array of objects that lack the fields of a record; and the list
    stays empty only when there is no text or the text does not parse. *)
Theorem load_adopts_whatever_parses :
  (forall text v, JSON.parse text = Some v ->
     loadMemories (Some text) = Normal (Some v, [])
     /\ memories_after_mount (Some text) = v)
  /\ (forall text log, loadMemories (Some text) = Normal (None, log) ->
        JSON.parse text = None)
  /\ (memories_after_mount (Some "42") = VNum (Num 42)
      /\ as_memories (VNum (Num 42)) = None)
  /\ (let v := VArr [VObj [("id", VStr "1")]; VNull] in
      memories_after_mount (Some (JSON.stringify v)) = v
      /\ as_memories v = None).
Proof.
  split; [|split; [|split; [split; reflexivity | split; reflexivity]]].
  - intros text v H.
    assert (E : loadMemories (Some text) = Normal (Some v, [])).
    { unfold loadMemories. rewrite H.
      destruct text; [discriminate H | reflexivity]. }
    split; [exact E|]. unfold memories_after_mount. now rewrite E.
  - intros text log. unfold loadMemories.
    destruct text as [|c t]; [reflexivity|]. cbn [falsy].
    destruct (JSON.parse (String c t)); [discriminate | reflexivity].
Qed.

Lemma load_adopts_whatever_parses_witness :
  memories_after_mount (Some "[1, true, null]")
  = VArr [VNum (Num 1); VBool true; VNull].
Proof.
  destruct load_adopts_whatever_parses as [H _].
  exact (proj2 (H "[1, true, null]" _ eq_refl)).
Defined.

(** ** Calendar *)

Lemma Day_of_local_midnight (zone d : Z) :
  Day (LocalTime zone (UTC zone (d * msPerDay))) = d.
Proof.
  unfold Day, LocalTime, UTC.
  replace (d * msPerDay - zone + zone)%Z with (d * msPerDay)%Z by lia.
  apply Z.div_mul. discriminate.
Qed.


Lemma loop_range_length (from : Z) (strict : bool) (b : Z) :
  List.length (loop_range from strict (Num b))
  = Z.to_nat (if strict then b - from else b - from + 1)%Z.
Proof. unfold loop_range. now rewrite length_map, length_seq. Qed.

(** The grid: as many empty cells as [getFirstDayOfMonth] says, then the
    cell of day 1. *)
Lemma renderCalendar_layout (w : World) (s : State) (k n : Z) :
  getFirstDayOfMonth w (currentDate s) = Num k ->
  getDaysInMonth w (currentDate s) = Num n ->
  (0 <= k)%Z -> (1 <= n)%Z ->
  firstn (Z.to_nat k) (renderCalendar w s)
  = map (fun i => EmptyCell (Z.of_nat i)) (seq 0 (Z.to_nat k))
  /\ exists isToday dayMemories,
       nth_error (renderCalendar w s) (Z.to_nat k)
       = Some (DayCell 1 isToday dayMemories).
Proof.
  intros Hk Hn Hk0 Hn1. unfold renderCalendar. rewrite Hk, Hn.
  assert (Hlen : List.length (map EmptyCell (loop_range 0 true (Num k))) = Z.to_nat k).
  { rewrite length_map, loop_range_length. f_equal. lia. }
  split.
  - rewrite firstn_app, Hlen, Nat.sub_diag, firstn_O, List.app_nil_r.
    rewrite <- Hlen at 1. rewrite firstn_all.
    unfold loop_range. rewrite map_map. replace (k - 0)%Z with k by lia.
    reflexivity.
  - rewrite nth_error_app2 by (rewrite Hlen; lia).
    rewrite Hlen, Nat.sub_diag.
    unfold loop_range.
    destruct (Z.to_nat (n - 1 + 1)) as [|m] eqn:E; [lia|].
    cbn [seq map nth_error]. eexists _, _. reflexivity.
Qed.

(** C9.  January 2025 has 31 days and begins on a Wednesday: the grid
    begins with three empty cells, then the cell of day 1, 34 cells in all.
    January of the year 50 begins on a Saturday ([getDay] of its first day
    is 6), yet [getFirstDayOfMonth] answers 0, because the constructor
    reads the year 50 as 1950, and the grid begins with the cell of day 1:
    six leading empty cells are missing. *)
Theorem first_weekday_of_a_two_digit_year :
  let zone := tza offline in
  let jan2025 := initial "2025-01-15" (ofYMD zone (Num 2025) (Num 0) (Num 15)) in
  let first50 := mkDate (Num (UTC zone (MakeDay 50 0 1 * msPerDay))) in
  let jan50 := initial "2025-01-15" first50 in
  (getFirstDayOfMonth offline (currentDate jan2025) = Num 3
   /\ getDaysInMonth offline (currentDate jan2025) = Num 31
   /\ firstn 4 (renderCalendar offline jan2025)
      = [EmptyCell 0; EmptyCell 1; EmptyCell 2; DayCell 1 false []]
   /\ List.length (renderCalendar offline jan2025) = 34%nat)
  /\ (getFullYear zone first50 = Num 50
      /\ getMonth zone first50 = Num 0
      /\ getDate zone first50 = Num 1
      /\ getDay zone first50 = Num 6)
  /\ (getFirstDayOfMonth offline (currentDate jan50) = Num 0
      /\ getDaysInMonth offline (currentDate jan50) = Num 31
      /\ firstn 1 (renderCalendar offline jan50) = [DayCell 1 false []]
      /\ List.length (renderCalendar offline jan50) = 31%nat).
Proof.
  intros zone jan2025 first50 jan50.
  repeat split; vm_compute; reflexivity.
Qed.

(* ================================================================== *)
(** * Part XIII. More facts about [Date]                                *)
(* ================================================================== *)

(** ** Years, months and days of the month *)

Lemma InLeapYear_01 (y : Z) : InLeapYear y = 0 \/ InLeapYear y = 1.
Proof.
  unfold InLeapYear, DaysInYear.
  destruct (y mod 4 =? 0); simpl; auto.
  destruct (y mod 100 =? 0); simpl; auto.
  destruct (y mod 400 =? 0); simpl; auto.
Qed.

Lemma div_step (a k : Z) :
  0 < k -> (a + 1) / k = a / k + (if (a + 1) mod k =? 0 then 1 else 0).
Proof.
  intros Hk. destruct (Z.eqb_spec ((a + 1) mod k) 0);
    Z.to_euclidean_division_equations; nia.
Qed.

Lemma DayFromYear_succ (y : Z) :
  DayFromYear (y + 1) = DayFromYear y + DaysInYear y.
Proof.
  unfold DayFromYear, DaysInYear.
  replace (y + 1 - 1969) with (y - 1969 + 1) by lia.
  replace (y + 1 - 1901) with (y - 1901 + 1) by lia.
  replace (y + 1 - 1601) with (y - 1601 + 1) by lia.
  rewrite !div_step by lia.
  replace ((y - 1969 + 1) mod 4) with (y mod 4)
    by (replace (y - 1969 + 1) with (y + (-492) * 4) by lia;
        now rewrite Z_mod_plus_full).
  replace ((y - 1901 + 1) mod 100) with (y mod 100)
    by (replace (y - 1901 + 1) with (y + (-19) * 100) by lia;
        now rewrite Z_mod_plus_full).
  replace ((y - 1601 + 1) mod 400) with (y mod 400)
    by (replace (y - 1601 + 1) with (y + (-4) * 400) by lia;
        now rewrite Z_mod_plus_full).
  assert (H100 : y mod 100 = 0 -> y mod 4 = 0).
  { intros H. apply Z.mod_divide in H; [|lia]. destruct H as [q ->].
    replace (q * 100) with (0 + (q * 25) * 4) by lia.
    now rewrite Z_mod_plus_full. }
  assert (H400 : y mod 400 = 0 -> y mod 100 = 0).
  { intros H. apply Z.mod_divide in H; [|lia]. destruct H as [q ->].
    replace (q * 400) with (0 + (q * 4) * 100) by lia.
    now rewrite Z_mod_plus_full. }
  destruct (Z.eqb_spec (y mod 4) 0); destruct (Z.eqb_spec (y mod 100) 0);
    destruct (Z.eqb_spec (y mod 400) 0); cbv [negb]; try lia; tauto.
Qed.

Lemma DayFromYear_lt (y1 y2 : Z) : y1 < y2 -> DayFromYear y1 < DayFromYear y2.
Proof.
  unfold DayFromYear. intros H. Z.to_euclidean_division_equations. lia.
Qed.

Lemma YearFromDay_unique (d y : Z) :
  DayFromYear y <= d < DayFromYear (y + 1) -> YearFromDay d = y.
Proof.
  intros H. pose proof (YearFromDay_spec d) as S.
  destruct (Z.lt_trichotomy (YearFromDay d) y) as [L | [E | G]]; [|exact E|].
  - assert (DayFromYear (YearFromDay d + 1) <= DayFromYear y).
    { destruct (Z.eq_dec (YearFromDay d + 1) y) as [->|]; [lia|].
      apply Z.lt_le_incl, DayFromYear_lt. lia. }
    lia.
  - assert (DayFromYear (y + 1) <= DayFromYear (YearFromDay d)).
    { destruct (Z.eq_dec (y + 1) (YearFromDay d)) as [->|]; [lia|].
      apply Z.lt_le_incl, DayFromYear_lt. lia. }
    lia.
Qed.

Lemma months (mn : Z) :
  0 <= mn <= 11 ->
  mn = 0 \/ mn = 1 \/ mn = 2 \/ mn = 3 \/ mn = 4 \/ mn = 5 \/ mn = 6
  \/ mn = 7 \/ mn = 8 \/ mn = 9 \/ mn = 10 \/ mn = 11.
Proof. lia. Qed.

(** The fields of the day that [MakeDay] builds from a month 0..11 and a
    day that the month has. *)
Lemma MakeDay_fields (y mn dt : Z) :
  0 <= mn <= 11 -> 1 <= dt <= month_length y mn ->
  YearFromDay (MakeDay y mn dt) = y
  /\ MonthFromDay (MakeDay y mn dt) = mn
  /\ DateFromDay (MakeDay y mn dt) = dt.
Proof.
  intros Hm Hd.
  assert (E : MakeDay y mn dt
              = DayFromYear y + DaysBeforeMonth (InLeapYear y) mn + dt - 1).
  { unfold MakeDay. rewrite Z.div_small, Z.mod_small by lia.
    now rewrite Z.add_0_r. }
  assert (HY : YearFromDay (MakeDay y mn dt) = y).
  { apply YearFromDay_unique. rewrite E, DayFromYear_succ.
    pose proof (InLeapYear_01 y) as L.
    assert (HD : DaysInYear y = 365 + InLeapYear y) by (unfold InLeapYear; lia).
    rewrite HD. clear E HD.
    destruct (months mn Hm) as [->|[->|[->|[->|[->|[->|[->|[->|[->|[->|[->| ->]]]]]]]]]]];
      cbn [DaysBeforeMonth month_length] in *; lia. }
  pose proof (InLeapYear_01 y) as L.
  assert (HW : DayWithinYear (MakeDay y mn dt)
               = DaysBeforeMonth (InLeapYear y) mn + dt - 1).
  { unfold DayWithinYear. rewrite HY, E. lia. }
  assert (HM : MonthFromDay (MakeDay y mn dt) = mn).
  { unfold MonthFromDay. rewrite HW, HY. clear HW HY E.
    destruct (months mn Hm) as [->|[->|[->|[->|[->|[->|[->|[->|[->|[->|[->| ->]]]]]]]]]]];
      cbn [DaysBeforeMonth month_length] in *;
      repeat match goal with
             | |- context [?a <? ?b] => destruct (Z.ltb_spec a b); try lia
             end. }
  split; [exact HY|]. split; [exact HM|].
  unfold DateFromDay. rewrite HW, HM, HY. lia.
Qed.

(** Every day number has a month 0..11 and a day of that month, and is
    the day that [MakeDay] builds from its fields. *)
Lemma Day_fields (d : Z) :
  0 <= MonthFromDay d <= 11
  /\ 1 <= DateFromDay d <= month_length (YearFromDay d) (MonthFromDay d)
  /\ MakeDay (YearFromDay d) (MonthFromDay d) (DateFromDay d) = d.
Proof.
  pose proof (YearFromDay_spec d) as S. rewrite DayFromYear_succ in S.
  pose proof (InLeapYear_01 (YearFromDay d)) as L.
  assert (HM : 0 <= MonthFromDay d <= 11).
  { unfold MonthFromDay.
    repeat match goal with
           | |- context [?a <? ?b] => destruct (Z.ltb_spec a b); try lia
           end. }
  split; [exact HM|].
  unfold MakeDay. rewrite Z.div_small, Z.mod_small, Z.add_0_r by lia.
  assert (HD : DaysInYear (YearFromDay d) = 365 + InLeapYear (YearFromDay d))
    by (unfold InLeapYear; lia).
  rewrite HD in S. clear HD HM.
  unfold DateFromDay, MonthFromDay, DayWithinYear in *.
  repeat match goal with
         | |- context [?a <? ?b] => destruct (Z.ltb_spec a b)
         end;
    cbn [DaysBeforeMonth month_length]; lia.
Qed.

Lemma MakeDay_carry (y m dt : Z) :
  MakeDay y m dt = MakeDay (y + m / 12) (m mod 12) dt.
Proof.
  unfold MakeDay.
  rewrite (Z.div_small (m mod 12)), (Z.mod_small (m mod 12))
    by (apply Z.mod_pos_bound; lia).
  now rewrite Z.add_0_r.
Qed.

Lemma MakeDay_date (y m dt dt' : Z) :
  MakeDay y m dt' = MakeDay y m dt + (dt' - dt).
Proof. unfold MakeDay. lia. Qed.

Lemma month_length_bounds (y mn : Z) : 28 <= month_length y mn <= 31.
Proof.
  pose proof (InLeapYear_01 y).
  unfold month_length.
  destruct mn as [|p|p]; try lia.
  do 5 (try (destruct p; try (cbn [month_length]; lia))).
Qed.

(** Day 0 of the next month is the last day of this one. *)
Lemma MakeDay_last_day (y mn : Z) :
  0 <= mn <= 11 ->
  MakeDay y (mn + 1) 0 = MakeDay y mn (month_length y mn).
Proof.
  intros Hm. pose proof (InLeapYear_01 y) as L.
  destruct (Z.eq_dec mn 11) as [->|Hne].
  - unfold MakeDay. change ((11 + 1) / 12) with 1. change ((11 + 1) mod 12) with 0.
    change (11 / 12) with 0. change (11 mod 12) with 11.
    rewrite DayFromYear_succ, !Z.add_0_r.
    assert (HD : DaysInYear y = 365 + InLeapYear y) by (unfold InLeapYear; lia).
    rewrite HD.
    assert (HL : InLeapYear (y + 1) = 0 \/ InLeapYear (y + 1) = 1)
      by apply InLeapYear_01.
    cbn [DaysBeforeMonth month_length]. lia.
  - unfold MakeDay.
    rewrite (Z.div_small (mn + 1)), (Z.mod_small (mn + 1)) by lia.
    rewrite (Z.div_small mn), (Z.mod_small mn) by lia.
    rewrite !Z.add_0_r.
    assert (Hm' : 0 <= mn <= 10) by lia. clear Hm Hne.
    assert (C : mn = 0 \/ mn = 1 \/ mn = 2 \/ mn = 3 \/ mn = 4 \/ mn = 5 \/ mn = 6
                \/ mn = 7 \/ mn = 8 \/ mn = 9 \/ mn = 10) by lia.
    destruct C as [->|[->|[->|[->|[->|[->|[->|[->|[->|[->| ->]]]]]]]]]];
      match goal with
      | |- context [DaysBeforeMonth _ (?a + 1)] =>
          let v := eval vm_compute in (a + 1) in change (a + 1) with v
      end;
      cbn [DaysBeforeMonth month_length]; lia.
Qed.

(** ** Instants and local days *)

Lemma Day_add_within (d r : Z) :
  0 <= r < msPerDay -> Day (d * msPerDay + r) = d.
Proof.
  intros H. unfold Day. rewrite Z.add_comm, Z.div_add by (unfold msPerDay; lia).
  rewrite Z.div_small by exact H. reflexivity.
Qed.

Lemma TimeClip_in_range (t : Z) : in_range t -> TimeClip t = Num t.
Proof.
  unfold in_range, TimeClip. intros H.
  destruct (Z.ltb_spec maxTime (Z.abs t)); [lia | reflexivity].
Qed.

Lemma local_day_midnight (zone d : Z) :
  local_day zone (local_midnight zone d) = d.
Proof. apply Day_of_local_midnight. Qed.

Lemma local_day_eq (zone t : Z) : Day (LocalTime zone t) = local_day zone t.
Proof. reflexivity. Qed.

Lemma local_midnight_eq (zone d : Z) : UTC zone (d * msPerDay) = local_midnight zone d.
Proof. reflexivity. Qed.

Lemma local_field_valid (zone : Z) (f : Z -> Z) (t : Z) :
  local_field zone f (mkDate (Num t)) = Num (f (local_day zone t)).
Proof. reflexivity. Qed.

Lemma Date_valid (d : Date) (t : Z) : getTime d = Num t -> d = mkDate (Num t).
Proof. destruct d as [g]. cbn. now intros ->. Qed.

Lemma ofYMD_valid (zone y m dt : Z) :
  in_range (local_midnight zone (MakeDay (MakeFullYear y) m dt)) ->
  ofYMD zone (Num y) (Num m) (Num dt)
  = mkDate (Num (local_midnight zone (MakeDay (MakeFullYear y) m dt))).
Proof.
  intros H. unfold ofYMD. rewrite local_midnight_eq.
  now rewrite (TimeClip_in_range _ H).
Qed.

Lemma MakeFullYear_outside (y : Z) : y < 0 \/ 99 < y -> MakeFullYear y = y.
Proof.
  intros H. unfold MakeFullYear.
  destruct (Z.leb_spec 0 y); destruct (Z.leb_spec y 99); simpl; lia.
Qed.

Lemma local_midnight_between (zone a b d : Z) :
  in_range (local_midnight zone a) -> in_range (local_midnight zone b) ->
  a <= d <= b -> in_range (local_midnight zone d).
Proof.
  unfold in_range, local_midnight, UTC, msPerDay, maxTime. lia.
Qed.

Lemma TimeWithinDay_bounds (t : Z) : 0 <= TimeWithinDay t < msPerDay.
Proof. unfold TimeWithinDay. apply Z.mod_pos_bound. reflexivity. Qed.


Lemma TimeWithinDay_add (d r : Z) :
  0 <= r < msPerDay -> TimeWithinDay (d * msPerDay + r) = r.
Proof.
  intros H. unfold TimeWithinDay.
  rewrite Z.add_comm, Z_mod_plus_full. now apply Z.mod_small.
Qed.

(** The instant of local day [d] at [r] milliseconds past midnight. *)
Lemma local_day_of_instant (zone d r : Z) :
  0 <= r < msPerDay ->
  local_day zone (UTC zone (d * msPerDay + r)) = d
  /\ TimeWithinDay (LocalTime zone (UTC zone (d * msPerDay + r))) = r.
Proof.
  intros H. unfold local_day, LocalTime, UTC.
  replace (d * msPerDay + r - zone + zone) with (d * msPerDay + r) by lia.
  split; [apply Day_add_within, H | apply TimeWithinDay_add, H].
Qed.

(* ================================================================== *)
(** * Part XIV. The calendar                                            *)
(* ================================================================== *)

Lemma loop_range_In (from : Z) (strict : bool) (b day : Z) :
  In day (loop_range from strict (Num b)) <->
  from <= day /\ (if strict then day < b else day <= b).
Proof.
  unfold loop_range. rewrite in_map_iff. split.
  - intros [k [<- Hk]]. apply in_seq in Hk. destruct strict; lia.
  - intros [H1 H2]. exists (Z.to_nat (day - from)). split; [lia|].
    apply in_seq. destruct strict; lia.
Qed.

(** What a day cell of the grid is. *)
Lemma renderCalendar_day_cell (w : World) (s : State) (day : Z) (isToday : bool)
    (mems : list Memory) :
  In (DayCell day isToday mems) (renderCalendar w s) <->
  In day (loop_range 1 false (getDaysInMonth w (currentDate s)))
  /\ mems = getMemoriesForDate w s day
  /\ isToday = sameDateString (tza w) (ofTime (Num (now w)))
                 (ofYMD (tza w) (getFullYear (tza w) (currentDate s))
                    (getMonth (tza w) (currentDate s)) (Num day)).
Proof.
  unfold renderCalendar. rewrite in_app_iff, !in_map_iff. split.
  - intros [[i [E _]] | [d [E Hd]]]; [discriminate E|].
    injection E as -> <- <-. auto.
  - intros [Hd [-> ->]]. right. exists day. auto.
Qed.

Lemma getDaysInMonth_valid (w : World) (t : Z) :
  in_range (local_midnight (tza w)
              (MakeDay (MakeFullYear (YearFromDay (local_day (tza w) t)))
                 (MonthFromDay (local_day (tza w) t))
                 (month_length (MakeFullYear (YearFromDay (local_day (tza w) t)))
                    (MonthFromDay (local_day (tza w) t))))) ->
  getDaysInMonth w (mkDate (Num t))
  = Num (month_length (MakeFullYear (YearFromDay (local_day (tza w) t)))
           (MonthFromDay (local_day (tza w) t))).
Proof.
  set (d := local_day (tza w) t).
  set (Y := MakeFullYear (YearFromDay d)). set (M := MonthFromDay d).
  intros Hr.
  destruct (Day_fields d) as [HM _].
  assert (HM' : 0 <= M <= 11) by exact HM.
  assert (E : MakeDay Y (M + 1) 0 = MakeDay Y M (month_length Y M))
    by (apply MakeDay_last_day, HM').
  unfold getDaysInMonth, getFullYear, getMonth, getDate.
  rewrite !local_field_valid. cbn [add1].
  assert (Hr' : in_range (local_midnight (tza w)
                  (MakeDay (MakeFullYear (YearFromDay (local_day (tza w) t)))
                     (MonthFromDay (local_day (tza w) t) + 1) 0))).
  { change (in_range (local_midnight (tza w) (MakeDay Y (M + 1) 0))).
    rewrite E. exact Hr. }
  rewrite (ofYMD_valid _ _ _ _ Hr'), local_field_valid, local_day_midnight.
  change (Num (DateFromDay (MakeDay Y (M + 1) 0)) = Num (month_length Y M)).
  rewrite E. f_equal. apply MakeDay_fields; [exact HM'|].
  pose proof (month_length_bounds Y M). lia.
Qed.



Lemma getMemoriesForDate_In (w : World) (s : State) (day : Z) (m : Memory) :
  In m (getMemoriesForDate w s day) <->
  In m (memories s)
  /\ exists tm tc,
       timestamp m = Num tm /\ in_range tm
       /\ getTime (currentDate s) = Num tc
       /\ DateFromDay (local_day (tza w) tm) = day
       /\ MonthFromDay (local_day (tza w) tm) = MonthFromDay (local_day (tza w) tc)
       /\ YearFromDay (local_day (tza w) tm) = YearFromDay (local_day (tza w) tc).
Proof.
  unfold getMemoriesForDate. rewrite filter_In.
  unfold getDate, getMonth, getFullYear, local_field, ofTime, local_day.
  split.
  - intros [Hin H]. split; [exact Hin|].
    destruct (timestamp m) as [tm|]; [|discriminate H].
    unfold TimeClip in H. cbn [getTime] in H.
    destruct (Z.ltb_spec maxTime (Z.abs tm)); [discriminate H|].
    cbn [getTime num_eq] in H.
    destruct (getTime (currentDate s)) as [tc|];
      [|rewrite andb_false_r in H; discriminate H].
    cbn [num_eq] in H. apply andb_true_iff in H. destruct H as [H H3].
    apply andb_true_iff in H. destruct H as [H1 H2].
    apply Z.eqb_eq in H1, H2, H3.
    exists tm, tc. unfold in_range. repeat split; try assumption.
  - intros [Hin [tm [tc [Ht [Hr [Hc [H1 [H2 H3]]]]]]]]. split; [exact Hin|].
    rewrite Ht, Hc. rewrite (TimeClip_in_range _ Hr). cbn [getTime num_eq].
    unfold local_day in *. rewrite H1, H2, H3, !Z.eqb_refl. reflexivity.
Qed.




(** X3.  A day cell shows nothing but records of its day: a record in
    the cell of day [day] is in the list, its timestamp denotes an
    instant, and the local calendar day of that instant is day [day] of
    the month and year of the current date of the calendar. *)
Theorem day_cell_shows_records_of_its_day :
  forall (w : World) (s : State) (day : Z) (isToday : bool) (mems : list Memory)
         (m : Memory),
    In (DayCell day isToday mems) (renderCalendar w s) ->
    In m mems ->
    In m (memories s)
    /\ exists tm tc,
         timestamp m = Num tm /\ in_range tm
         /\ getTime (currentDate s) = Num tc
         /\ DateFromDay (local_day (tza w) tm) = day
         /\ MonthFromDay (local_day (tza w) tm) = MonthFromDay (local_day (tza w) tc)
         /\ YearFromDay (local_day (tza w) tm) = YearFromDay (local_day (tza w) tc).
Proof.
  intros w s day isToday mems m Hc Hm.
  apply renderCalendar_day_cell in Hc. destruct Hc as [_ [-> _]].
  now apply getMemoriesForDate_In.
Qed.

Lemma day_cell_shows_records_of_its_day_witness :
  In (created offline form_filled) (memories one_record)
  /\ exists tm tc,
       timestamp (created offline form_filled) = Num tm /\ in_range tm
       /\ getTime (currentDate one_record) = Num tc
       /\ DateFromDay (local_day (tza offline) tm) = 10
       /\ MonthFromDay (local_day (tza offline) tm)
          = MonthFromDay (local_day (tza offline) tc)
       /\ YearFromDay (local_day (tza offline) tm)
          = YearFromDay (local_day (tza offline) tc).
Proof.
  apply (day_cell_shows_records_of_its_day offline one_record 10 false
           [created offline form_filled]).
  - vm_compute. do 12 right. left. reflexivity.
  - left. reflexivity.
Defined.



(** X5.  Which cell is marked as today: when the current date of the
    calendar denotes an instant of a year outside 0..99, a day cell is
    marked exactly when today (the local day of the clock) lies in the
    month and year on display and the cell is the one of today's day of
    the month.  So at most one cell is marked, and none when another
    month is on display. *)
Theorem today_is_the_marked_cell :
  forall (w : World) (s : State) (t : Z),
    getTime (currentDate s) = Num t ->
    in_range (now w) ->
    let d := local_day (tza w) t in
    let Y := YearFromDay d in
    let M := MonthFromDay d in
    let today := local_day (tza w) (now w) in
    (Y < 0 \/ 99 < Y) ->
    in_range (local_midnight (tza w) (MakeDay Y M 1)) ->
    in_range (local_midnight (tza w) (MakeDay Y M (month_length Y M))) ->
    forall day mems,
      In (DayCell day true mems) (renderCalendar w s)
      <-> (mems = getMemoriesForDate w s day
           /\ YearFromDay today = Y /\ MonthFromDay today = M
           /\ DateFromDay today = day).
Proof.
  intros w s t Ht Hnow d Y M today HY H1 Hl day mems.
  pose proof (MakeFullYear_outside Y HY) as EY.
  pose proof (getDaysInMonth_valid w t) as Gn.
  change (local_day (tza w) t) with d in Gn.
  change (YearFromDay d) with Y in Gn. change (MonthFromDay d) with M in Gn.
  rewrite EY in Gn. specialize (Gn Hl).
  rewrite <- (Date_valid _ _ Ht) in Gn.
  assert (EF : getFullYear (tza w) (currentDate s) = Num Y)
    by (rewrite (Date_valid _ _ Ht); reflexivity).
  assert (EM : getMonth (tza w) (currentDate s) = Num M)
    by (rewrite (Date_valid _ _ Ht); reflexivity).
  assert (Enow : ofTime (Num (now w)) = mkDate (Num (now w)))
    by (unfold ofTime; now rewrite (TimeClip_in_range _ Hnow)).
  destruct (Day_fields d) as [HM _].
  assert (HM' : 0 <= M <= 11) by exact HM.
  assert (Hmark : forall k, 1 <= k <= month_length Y M ->
            sameDateString (tza w) (ofTime (Num (now w)))
              (ofYMD (tza w) (Num Y) (Num M) (Num k))
            = (today =? MakeDay Y M k)).
  { intros k Hk.
    assert (Hk' : in_range (local_midnight (tza w) (MakeDay (MakeFullYear Y) M k))).
    { rewrite EY.
      apply (local_midnight_between _ (MakeDay Y M 1) (MakeDay Y M (month_length Y M)));
        try assumption.
      rewrite (MakeDay_date Y M 1 k), (MakeDay_date Y M 1 (month_length Y M)). lia. }
    rewrite (ofYMD_valid _ _ _ _ Hk'), Enow, EY. unfold sameDateString.
    cbn [getTime]. now rewrite !local_day_eq, local_day_midnight. }
  rewrite renderCalendar_day_cell, Gn, EF, EM, loop_range_In. split.
  - intros [Hd [Em Et]]. split; [exact Em|].
    rewrite (Hmark day Hd) in Et. symmetry in Et. apply Z.eqb_eq in Et.
    rewrite Et. apply MakeDay_fields; assumption.
  - intros [Em [E1 [E2 E3]]].
    destruct (Day_fields today) as [_ [Hd Et]]. rewrite E1, E2, E3 in Hd, Et.
    split; [exact Hd|]. split; [exact Em|].
    rewrite (Hmark day Hd), Et. symmetry. apply Z.eqb_refl.
Qed.

Lemma today_is_the_marked_cell_witness :
  In (DayCell 15 true []) (renderCalendar offline just_mounted).
Proof.
  refine (proj2 (today_is_the_marked_cell offline just_mounted 1700000000000
                   eq_refl _ _ _ _ 15 []) _).
  - vm_compute. discriminate.
  - right. vm_compute. reflexivity.
  - vm_compute. discriminate.
  - vm_compute. discriminate.
  - vm_compute. repeat split.
Defined.

(** ** Changing the month *)

(** What [changeMonth] does to a valid current date. *)
Lemma changeMonth_time (w : World) (s : State) (t offset t' : Z) :
  getTime (currentDate s) = Num t ->
  t' = UTC (tza w)
         (MakeDay (YearFromDay (local_day (tza w) t))
            (MonthFromDay (local_day (tza w) t) + offset)
            (DateFromDay (local_day (tza w) t)) * msPerDay
          + TimeWithinDay (LocalTime (tza w) t)) ->
  in_range t' ->
  changeMonth w offset s = setCurrentDate (mkDate (Num t')) s.
Proof.
  intros Ht Et Hr.
  unfold changeMonth. rewrite (Date_valid _ _ Ht).
  unfold getMonth. rewrite local_field_valid.
  unfold setMonth. cbn [add getTime]. rewrite !local_day_eq, <- Et.
  rewrite (TimeClip_in_range _ Hr). cbn [getTime ofTime].
  rewrite (TimeClip_in_range _ Hr). cbn [getTime ofTime].
  now rewrite (TimeClip_in_range _ Hr).
Qed.




(** X7.  [changeMonth] from a day that the month aimed at does not have
    (the 29th to the 31st): the date lands in the month after the one
    aimed at, on day 1, 2 or 3 -- the number of days by which the day of
    the month exceeds the length of the month aimed at. *)
Theorem changeMonth_skips_ahead_from_a_late_day :
  forall (w : World) (s : State) (t offset : Z),
    getTime (currentDate s) = Num t ->
    let d := local_day (tza w) t in
    let Y' := YearFromDay d + (MonthFromDay d + offset) / 12 in
    let M' := (MonthFromDay d + offset) mod 12 in
    month_length Y' M' < DateFromDay d ->
    in_range (UTC (tza w)
                (MakeDay Y' M' (DateFromDay d) * msPerDay
                 + TimeWithinDay (LocalTime (tza w) t))) ->
    getFullYear (tza w) (currentDate (changeMonth w offset s)) = Num Y'
    /\ getMonth (tza w) (currentDate (changeMonth w offset s)) = Num (M' + 1)
    /\ getDate (tza w) (currentDate (changeMonth w offset s))
       = Num (DateFromDay d - month_length Y' M')
    /\ 1 <= DateFromDay d - month_length Y' M' <= 3.
Proof.
  intros w s t offset Ht d Y' M'.
  pose proof (TimeWithinDay_bounds (LocalTime (tza w) t)) as Hw.
  remember (TimeWithinDay (LocalTime (tza w) t)) as r eqn:Er.
  destruct (Day_fields d) as [HM [HDb Hd]].
  pose proof (month_length_bounds (YearFromDay d) (MonthFromDay d)) as Hb.
  pose proof (month_length_bounds Y' M') as Hb'.
  remember (DateFromDay d) as D eqn:ED.
  intros Hlate Hr'.
  assert (HM' : 0 <= M' <= 11)
    by (unfold M'; pose proof (Z.mod_pos_bound (MonthFromDay d + offset) 12); lia).
  assert (HM10 : M' <= 10).
  { destruct (Z.eq_dec M' 11) as [E | E]; [|lia].
    rewrite E in Hlate. cbn [month_length] in Hlate. lia. }
  pose proof (month_length_bounds Y' (M' + 1)) as Hb''.
  assert (Eday : MakeDay Y' M' D = MakeDay Y' (M' + 1) (D - month_length Y' M')).
  { rewrite (MakeDay_date Y' (M' + 1) 0 (D - month_length Y' M')).
    rewrite (MakeDay_last_day Y' M' HM').
    rewrite (MakeDay_date Y' M' (month_length Y' M') D). lia. }
  destruct (MakeDay_fields Y' (M' + 1) (D - month_length Y' M') ltac:(lia) ltac:(lia))
    as [FY [FM FD]].
  destruct (local_day_of_instant (tza w) (MakeDay Y' M' D) r Hw) as [Eloc _].
  remember (UTC (tza w) (MakeDay Y' M' D * msPerDay + r)) as t' eqn:Et'.
  assert (Estep : changeMonth w offset s = setCurrentDate (mkDate (Num t')) s).
  { apply (changeMonth_time w s t offset t' Ht); [|exact Hr'].
    change (local_day (tza w) t) with d. rewrite <- ED, <- Er.
    rewrite (MakeDay_carry (YearFromDay d) (MonthFromDay d + offset) D). exact Et'. }
  rewrite Estep. unfold getFullYear, getMonth, getDate.
  cbn [currentDate setCurrentDate].
  rewrite !local_field_valid, Eloc, Eday, FY, FM, FD.
  repeat split; lia.
Qed.

Lemma changeMonth_skips_ahead_from_a_late_day_witness :
  getFullYear (tza offline) (currentDate (changeMonth offline 1 end_of_january)) = Num 2024
  /\ getMonth (tza offline) (currentDate (changeMonth offline 1 end_of_january)) = Num 2
  /\ getDate (tza offline) (currentDate (changeMonth offline 1 end_of_january)) = Num 2
  /\ 1 <= 2 <= 3.
Proof.
  apply (changeMonth_skips_ahead_from_a_late_day offline end_of_january
           1706626800000 1 eq_refl).
  - vm_compute. reflexivity.
  - vm_compute. discriminate.
Defined.

(* ================================================================== *)
(** * Part XV. The date the form starts with                            *)
(* ================================================================== *)

Lemma all_digits_uint (u : Decimal.uint) :
  all_digits (DecimalString.NilEmpty.string_of_uint u) = true.
Proof. induction u; cbn; auto. Qed.

Lemma toString_pos (p : positive) :
  toString (Z.pos p) = DecimalString.NilEmpty.string_of_uint (Pos.to_uint p).
Proof. unfold toString. cbn [Z.to_int]. apply string_of_uint_pos. Qed.

(** [Number] reads back what [toString] writes. *)
Lemma Number_toString (p : positive) :
  all_digits (toString (Z.pos p)) = true
  /\ Number (toString (Z.pos p)) = Num (Z.pos p).
Proof.
  rewrite toString_pos. split; [apply all_digits_uint|].
  unfold Number. rewrite all_digits_uint, DecimalString.NilEmpty.usu.
  unfold N.of_uint. now rewrite DecimalPos.Unsigned.of_to.
Qed.

Lemma is_digit_not_hyphen (c : ascii) :
  is_digit c = true -> Ascii.eqb c "-" = false.
Proof.
  intros H. destruct (Ascii.eqb_spec c "-"%char) as [-> | ne];
    [discriminate H | reflexivity].
Qed.

Lemma split_digits (s rest : string) :
  all_digits s = true ->
  split "-" s = [s]
  /\ split "-" (s ++ String "-" rest) = s :: split "-" rest.
Proof.
  induction s as [|c s IH]; intros H.
  - split; reflexivity.
  - cbn [all_digits] in H. apply andb_true_iff in H. destruct H as [Hc Hs].
    destruct (IH Hs) as [E1 E2].
    cbn [split String.append]. rewrite (is_digit_not_hyphen c Hc), E1, E2.
    split; reflexivity.
Qed.

(** A month number or a day of the month, padded to two digits. *)
Lemma padStart2_number (n : Z) :
  1 <= n <= 31 ->
  all_digits (padStart2 (toString n)) = true
  /\ Number (padStart2 (toString n)) = Num n.
Proof.
  intros H. destruct n as [|p|p]; try lia.
  repeat match goal with
         | q : positive |- _ => destruct q; try lia
         end;
    split; vm_compute; reflexivity.
Qed.

Lemma getTodayString_parts (w : World) (Y M D : Z) :
  getFullYear (tza w) (ofTime (Num (now w))) = Num Y ->
  getMonth (tza w) (ofTime (Num (now w))) = Num M ->
  getDate (tza w) (ofTime (Num (now w))) = Num D ->
  0 < Y -> 0 <= M <= 11 -> 1 <= D <= 31 ->
  map Number (split "-" (getTodayString w)) = [Num Y; Num (M + 1); Num D].
Proof.
  intros EY EM ED HY HM HD. unfold getTodayString. cbv zeta.
  rewrite EY, EM, ED. cbn [add1 num_str].
  destruct Y as [|p|p]; try lia.
  destruct (Number_toString p) as [A1 N1].
  destruct (padStart2_number (M + 1) ltac:(lia)) as [A2 N2].
  destruct (padStart2_number D HD) as [A3 N3].
  repeat change ("-" ++ ?x)%string with (String "-" x).
  destruct (split_digits (toString (Z.pos p))
              (padStart2 (toString (M + 1)) ++ String "-" (padStart2 (toString D))) A1)
    as [_ ->].
  destruct (split_digits (padStart2 (toString (M + 1))) (padStart2 (toString D)) A2)
    as [_ ->].
  destruct (split_digits (padStart2 (toString D)) EmptyString A3) as [-> _].
  cbn [map]. now rewrite N1, N2, N3.
Qed.

(** X8.  The date string that the form starts with, and is reset to,
    denotes today: split and read back as [handleAnalyze] does, what
    [getTodayString] returns is the local midnight at which the day of
    the clock began (the clock at or after the epoch, the local year
    after 99).  So a record created without touching the date field has
    that midnight as its timestamp. *)
Theorem default_date_is_today :
  forall (w : World),
    0 <= now w <= maxTime ->
    99 < YearFromDay (local_day (tza w) (now w)) ->
    targetDate_of w (getTodayString w)
    = mkDate (Num (local_midnight (tza w) (local_day (tza w) (now w))))
    /\ malformed_date w (getTodayString w) = false
    /\ sameDateString (tza w) (ofTime (Num (now w)))
         (targetDate_of w (getTodayString w)) = true
    /\ (forall s, recordDate s = getTodayString w ->
          timestamp (created w s)
          = Num (local_midnight (tza w) (local_day (tza w) (now w)))).
Proof.
  intros w Hnow HY.
  assert (Hr : in_range (now w)) by (unfold in_range; lia).
  assert (Enow : ofTime (Num (now w)) = mkDate (Num (now w)))
    by (unfold ofTime; now rewrite (TimeClip_in_range _ Hr)).
  set (d := local_day (tza w) (now w)) in *.
  destruct (Day_fields d) as [HM [HD Hd]].
  pose proof (month_length_bounds (YearFromDay d) (MonthFromDay d)) as Hml.
  assert (Hmid : in_range (local_midnight (tza w) d)).
  { unfold in_range, local_midnight, UTC. subst d. unfold local_day, LocalTime, Day.
    pose proof (Z.mul_div_le (now w + tza w) msPerDay ltac:(reflexivity)).
    pose proof (Z.mul_succ_div_gt (now w + tza w) msPerDay ltac:(reflexivity)).
    unfold msPerDay, maxTime in *. lia. }
  assert (E : targetDate_of w (getTodayString w)
              = mkDate (Num (local_midnight (tza w) d))).
  { unfold targetDate_of. cbv zeta.
    rewrite (getTodayString_parts w (YearFromDay d) (MonthFromDay d) (DateFromDay d));
      try (rewrite Enow; unfold getFullYear, getMonth, getDate;
           rewrite local_field_valid; reflexivity);
      try lia.
    cbn [nth sub]. replace (MonthFromDay d + 1 - 1) with (MonthFromDay d) by lia.
    rewrite ofYMD_valid; rewrite (MakeFullYear_outside _ (or_intror HY)), Hd;
      [reflexivity | exact Hmid]. }
  split; [exact E|]. split; [unfold malformed_date; now rewrite E|]. split.
  - rewrite E, Enow. unfold sameDateString. cbn [getTime].
    rewrite !local_day_eq, local_day_midnight. apply Z.eqb_refl.
  - intros s Hs. unfold created, newMemory_of. cbn [timestamp]. now rewrite Hs, E.
Qed.

Lemma default_date_is_today_witness :
  targetDate_of offline (getTodayString offline) = mkDate (Num 1699974000000)
  /\ malformed_date offline (getTodayString offline) = false.
Proof.
  destruct (default_date_is_today offline) as [E1 [E2 _]].
  - vm_compute. split; discriminate.
  - vm_compute. reflexivity.
  - split; [exact E1 | exact E2].
Defined.

(* ================================================================== *)
(** * Part XVI. The list: deleting, marking, creating                   *)
(* ================================================================== *)

(** ** Filtering by id *)

Lemma filter_id_absent (id : string) (l : list Memory) :
  ~ In id (map Types.id l) ->
  filter (fun m => negb (String.eqb (Types.id m) id)) l = l.
Proof.
  induction l as [|m l IH]; intros H; [reflexivity|].
  cbn [filter]. destruct (String.eqb_spec (Types.id m) id) as [E | E].
  - exfalso. apply H. left. exact E.
  - cbn [negb]. f_equal. apply IH. intros Hin. apply H. now right.
Qed.

Lemma filter_id_In (id : string) (l : list Memory) (m : Memory) :
  In m (filter (fun m => negb (String.eqb (Types.id m) id)) l)
  <-> In m l /\ Types.id m <> id.
Proof.
  rewrite filter_In. split; intros [H1 H2]; (split; [exact H1|]).
  - intros E. rewrite E, String.eqb_refl in H2. discriminate H2.
  - apply negb_true_iff. now apply String.eqb_neq.
Qed.

Lemma filter_id_NoDup (id : string) (l : list Memory) :
  NoDup (map Types.id l) ->
  NoDup (map Types.id (filter (fun m => negb (String.eqb (Types.id m) id)) l)).
Proof.
  induction l as [|m l IH]; intros H; [constructor|].
  cbn [map] in H. inversion H as [|? ? Hn Hr]; subst.
  cbn [filter]. destruct (negb (String.eqb (Types.id m) id)); [|apply IH, Hr].
  cbn [map]. constructor; [|apply IH, Hr].
  intros Hin. apply Hn. apply in_map_iff in Hin. destruct Hin as [m' [E Hm']].
  apply filter_In in Hm'. apply in_map_iff. exists m'. split; [exact E | apply Hm'].
Qed.

Lemma filter_id_length (id : string) (l : list Memory) :
  NoDup (map Types.id l) -> In id (map Types.id l) ->
  S (List.length (filter (fun m => negb (String.eqb (Types.id m) id)) l))
  = List.length l.
Proof.
  induction l as [|m l IH]; intros Hnd Hin; [contradiction Hin|].
  cbn [map] in Hnd, Hin. inversion Hnd as [|? ? Hn Hr]; subst.
  cbn [filter]. destruct (String.eqb_spec (Types.id m) id) as [E | E].
  - cbn [negb List.length]. f_equal. f_equal. apply filter_id_absent.
    now rewrite <- E.
  - cbn [negb List.length]. f_equal. apply IH; [exact Hr|].
    destruct Hin as [Hin | Hin]; [contradiction | exact Hin].
Qed.

Lemma filter_id_length_le (id : string) (l : list Memory) :
  NoDup (map Types.id l) ->
  (List.length l
   <= S (List.length (filter (fun m => negb (String.eqb (Types.id m) id)) l)))%nat.
Proof.
  intros Hnd. destruct (in_dec string_dec id (map Types.id l)) as [Hin | Hin].
  - rewrite (filter_id_length id l Hnd Hin). auto.
  - rewrite (filter_id_absent id l Hin). auto.
Qed.

Lemma filter_id_middle (m : Memory) (before rest : list Memory) :
  NoDup (map Types.id (before ++ m :: rest)) ->
  filter (fun x => negb (String.eqb (Types.id x) (Types.id m))) (before ++ m :: rest)
  = before ++ rest.
Proof.
  intros H. rewrite map_app in H. cbn [map] in H.
  pose proof (NoDup_remove_2 _ _ _ H) as Hn.
  rewrite filter_app. cbn [filter]. rewrite String.eqb_refl. cbn [negb].
  rewrite <- filter_app. apply filter_id_absent. now rewrite map_app.
Qed.

(** The update that [handleFeedback] maps over the list keeps the ids. *)
Lemma feedback_ids (id : string) (b : bool) (l : list Memory) :
  map Types.id
    (map (fun m =>
            if String.eqb (Types.id m) id then
              mkMemory (Types.id m) (content m) (Types.moodScore m) (moodTags m)
                (timestamp m) (song m) (analysis m) (imageUrl m)
                (Some (if b then correct else incorrect)) (Types.language m)
            else m) l)
  = map Types.id l.
Proof.
  rewrite map_map. apply map_ext. intros m.
  destruct (String.eqb (Types.id m) id); reflexivity.
Qed.

Lemma deleteMemory_memories (w : World) (id : string) (s : State) :
  memories (fst (deleteMemory w id s))
  = filter (fun m => negb (String.eqb (Types.id m) id)) (memories s).
Proof. apply (step_memories s (Delete w id)). Qed.

Lemma handleFeedback_memories (w : World) (id : string) (b : bool) (s : State) :
  memories (fst (handleFeedback w id b s))
  = map (fun m =>
           if String.eqb (Types.id m) id then
             mkMemory (Types.id m) (content m) (Types.moodScore m) (moodTags m)
               (timestamp m) (song m) (analysis m) (imageUrl m)
               (Some (if b then correct else incorrect)) (Types.language m)
           else m) (memories s).
Proof. apply (step_memories s (SetFeedback w id b)). Qed.

(** ** Deleting *)

(** X9.  [deleteMemory] removes every record that has the id, and only
    those: the records left are the others, in the order they had.  With
    an id that no record has the list is unchanged; deleting the same id
    again changes nothing; when the ids of the list are distinct and one
    of them is deleted, the list gets shorter by exactly one record; and
    a list sorted by timestamp stays sorted. *)
Theorem deleteMemory_removes_the_id :
  forall (w : World) (s : State) (id : string),
    let s' := fst (deleteMemory w id s) in
    (forall m, In m (memories s') <-> In m (memories s) /\ Types.id m <> id)
    /\ (~ In id (map Types.id (memories s)) -> memories s' = memories s)
    /\ (forall w2, memories (fst (deleteMemory w2 id s')) = memories s')
    /\ (NoDup (map Types.id (memories s)) -> In id (map Types.id (memories s)) ->
        S (List.length (memories s')) = List.length (memories s))
    /\ (sorted_desc (memories s) -> sorted_desc (memories s')).
Proof.
  intros w s id s'. unfold s'. rewrite deleteMemory_memories.
  split; [intros m; apply filter_id_In|].
  split; [apply filter_id_absent|].
  split.
  - intros w2. rewrite deleteMemory_memories, deleteMemory_memories.
    apply filter_id_absent. intros Hin. apply in_map_iff in Hin.
    destruct Hin as [m [E Hm]]. apply filter_id_In in Hm. now apply Hm.
  - split; [apply filter_id_length | apply filter_sorted_desc].
Qed.

Lemma deleteMemory_removes_the_id_witness :
  List.length (memories two_records) = 2%nat
  /\ List.length (memories (fst (deleteMemory offline "1700000000000" two_records)))
     = 1%nat
  /\ memories (fst (deleteMemory offline "1600000000000" two_records))
     = memories two_records.
Proof.
  destruct (deleteMemory_removes_the_id offline two_records "1700000000000")
    as [_ [_ [_ [H _]]]].
  destruct (deleteMemory_removes_the_id offline two_records "1600000000000")
    as [_ [A _]].
  split; [reflexivity|]. split.
  - apply eq_add_S. rewrite H; [reflexivity | | ].
    + vm_compute. distinct_strings.
    + vm_compute. right. left. reflexivity.
  - apply A. vm_compute. intros [E | [E | []]]; discriminate E.
Defined.

(** X10.  The delete button of a card ([handleDelete] of the card
    component): when the user does not confirm, nothing changes; when the
    user confirms, the record of the card is gone from the list, together
    with every record that has the same id, and when the ids of the list
    are distinct the list is the old one without that one record. *)
Theorem handleDelete_removes_the_card :
  forall (w : World) (s : State) (memory : Memory) (confirmed : bool),
    let s' := fst (handleDelete w confirmed memory s) in
    (confirmed = false -> s' = s)
    /\ (confirmed = true ->
        ~ In memory (memories s')
        /\ (forall m, In m (memories s') <->
                      In m (memories s) /\ Types.id m <> Types.id memory)
        /\ (forall before rest,
              memories s = before ++ memory :: rest ->
              NoDup (map Types.id (memories s)) ->
              memories s' = before ++ rest)).
Proof.
  intros w s m c s'. unfold s', handleDelete.
  split; [intros ->; reflexivity|]. intros ->.
  rewrite deleteMemory_memories.
  split; [|split].
  - intros H. apply filter_id_In in H. now apply H.
  - intros x. apply filter_id_In.
  - intros before rest E Hnd. rewrite E in Hnd |- *. now apply filter_id_middle.
Qed.

Lemma handleDelete_removes_the_card_witness :
  fst (handleDelete offline false (created offline form_filled) two_records)
  = two_records
  /\ ~ In (created offline form_filled)
         (memories (fst (handleDelete offline true (created offline form_filled)
                           two_records))).
Proof.
  destruct (handleDelete_removes_the_card offline two_records
              (created offline form_filled) false) as [A _].
  destruct (handleDelete_removes_the_card offline two_records
              (created offline form_filled) true) as [_ B].
  split; [exact (A eq_refl) | exact (proj1 (B eq_refl))].
Defined.

(** ** Marking *)

(** X11.  [handleFeedback] changes nothing but the verdict: the list
    keeps its length, its order and every field of every record except
    [userFeedback]; every record with the id carries the verdict given;
    the other records are the old ones; with an id that no record has the
    list is unchanged; and of two verdicts on the same id the later one
    stands. *)
Theorem handleFeedback_sets_only_the_verdict :
  forall (w : World) (s : State) (id : string) (isCorrect : bool),
    let s' := fst (handleFeedback w id isCorrect s) in
    map without_feedback (memories s') = map without_feedback (memories s)
    /\ (forall m, In m (memories s') -> Types.id m = id ->
          userFeedback m = Some (if isCorrect then correct else incorrect))
    /\ (forall m, In m (memories s') -> Types.id m <> id -> In m (memories s))
    /\ (~ In id (map Types.id (memories s)) -> memories s' = memories s)
    /\ (forall w2 again,
          memories (fst (handleFeedback w2 id again s'))
          = memories (fst (handleFeedback w2 id again s))).
Proof.
  intros w s id b s'. unfold s'. rewrite handleFeedback_memories.
  split; [|split; [|split; [|split]]].
  - rewrite map_map. apply map_ext. intros m.
    destruct (String.eqb (Types.id m) id); reflexivity.
  - intros m Hm E. apply in_map_iff in Hm. destruct Hm as [m0 [<- _]].
    destruct (String.eqb_spec (Types.id m0) id) as [E0 | E0]; [reflexivity|].
    contradiction.
  - intros m Hm E. apply in_map_iff in Hm. destruct Hm as [m0 [<- H0]].
    destruct (String.eqb_spec (Types.id m0) id) as [E0 | E0]; [|exact H0].
    exfalso. apply E. exact E0.
  - intros Hn. rewrite <- (map_id (memories s)) at 2. apply map_ext_in.
    intros m Hm. destruct (String.eqb_spec (Types.id m) id) as [E | E]; [|reflexivity].
    exfalso. apply Hn. apply in_map_iff. exists m. auto.
  - intros w2 b2. rewrite !handleFeedback_memories, map_map. apply map_ext.
    intros m. destruct (String.eqb_spec (Types.id m) id) as [E | E].
    + cbn [Types.id]. rewrite E, String.eqb_refl. reflexivity.
    + destruct (String.eqb_spec (Types.id m) id); [contradiction | reflexivity].
Qed.

Lemma handleFeedback_sets_only_the_verdict_witness :
  map userFeedback
    (memories (fst (handleFeedback offline "1700000000000" true two_records)))
  = [None; Some correct]
  /\ memories (fst (handleFeedback offline "1600000000000" true two_records))
     = memories two_records.
Proof.
  destruct (handleFeedback_sets_only_the_verdict offline two_records "1600000000000" true)
    as [_ [_ [_ [A _]]]].
  split; [vm_compute; reflexivity|].
  apply A. vm_compute. intros [E | [E | []]]; discriminate E.
Defined.

(** X12.  Deleting and marking write through: when the write to the slot
    succeeds, the handler ends normally and the slot holds the text of
    the new list; when the write fails, the exception leaves the handler
    (nothing catches it), the slot is as it was, and the list in memory
    is the new one all the same.  Either way nothing is logged and no
    alert is shown. *)
Theorem delete_and_feedback_write_through :
  forall (w : World) (s : State) (id : string) (isCorrect : bool),
    let d := deleteMemory w id s in
    let f := handleFeedback w id isCorrect s in
    (setItem_throws w = false ->
       snd d = Normal tt /\ snd f = Normal tt
       /\ storage (fst d) = Some (JSON.stringify (memories_to_value (memories (fst d))))
       /\ storage (fst f) = Some (JSON.stringify (memories_to_value (memories (fst f)))))
    /\ (setItem_throws w = true ->
          snd d = Thrown /\ snd f = Thrown
          /\ storage (fst d) = storage s /\ storage (fst f) = storage s
          /\ memories (fst d)
             = filter (fun m => negb (String.eqb (Types.id m) id)) (memories s))
    /\ events (fst d) = events s /\ events (fst f) = events s.
Proof.
  intros w s id b d f. unfold d, f.
  unfold deleteMemory, handleFeedback, saveMemories, setItem, bind, exec, throw.
  destruct (setItem_throws w);
    cbn [fst snd storage memories events setStorage setMemories].
  - split; [discriminate|]. split; [|split; reflexivity]. intros _. repeat split.
  - split; [|split; [discriminate | split; reflexivity]]. intros _. repeat split.
Qed.

Lemma delete_and_feedback_write_through_witness :
  snd (deleteMemory (mkWorld 32400000 1700000000000 Rejected Rejected true)
         "1700000000000" two_records) = Thrown
  /\ storage (fst (deleteMemory (mkWorld 32400000 1700000000000 Rejected Rejected true)
                     "1700000000000" two_records))
     = storage two_records.
Proof.
  destruct (delete_and_feedback_write_through
              (mkWorld 32400000 1700000000000 Rejected Rejected true)
              two_records "1700000000000" true) as [_ [H _]].
  destruct (H eq_refl) as [A [_ [B _]]]. split; [exact A | exact B].
Defined.

(** ** Where a new record goes *)

Lemma comes_after_timestamps (x y : Memory) (a b : Z) :
  timestamp x = Num a -> timestamp y = Num b ->
  comes_after byTimestampDesc x y = (a <? b).
Proof.
  intros Hx Hy. unfold comes_after, byTimestampDesc. rewrite Hx, Hy. cbn [sub].
  destruct (Z.ltb_spec 0 (b - a)); destruct (Z.ltb_spec a b); lia || reflexivity.
Qed.

Lemma numeric_timestamp (m : Memory) :
  numeric m -> exists a, timestamp m = Num a.
Proof.
  unfold numeric. destruct (timestamp m) as [a|]; [eauto | discriminate].
Qed.

Lemma insert_splits (x : Memory) (l : list Memory) :
  numeric x -> Forall numeric l ->
  exists newer older,
    l = newer ++ older
    /\ insert byTimestampDesc x l = newer ++ x :: older
    /\ (forall m, In m newer -> num_lt (timestamp x) (timestamp m) = true)
    /\ match older with
       | [] => True
       | m :: _ => num_le (timestamp m) (timestamp x) = true
       end.
Proof.
  intros Hx Hl. destruct (numeric_timestamp x Hx) as [a Ea].
  induction Hl as [|y l Hy Hl IH].
  - exists [], []. cbn. repeat split. intros m [].
  - destruct (numeric_timestamp y Hy) as [b Eb].
    cbn [insert]. rewrite (comes_after_timestamps x y a b Ea Eb).
    destruct (Z.ltb_spec a b) as [Hlt | Hge].
    + destruct IH as [newer [older [E1 [E2 [H1 H2]]]]].
      exists (y :: newer), older. rewrite E2. cbn [app]. rewrite <- E1.
      repeat split; [|exact H2].
      intros m [<- | Hm]; [|apply H1, Hm].
      rewrite Ea, Eb. cbn [num_lt]. now apply Z.ltb_lt.
    + exists [], (y :: l). cbn [app]. repeat split; [intros m []|].
      rewrite Ea, Eb. cbn [num_le]. now apply Z.leb_le.
Qed.

(** Sorting a sorted list of dated records changes nothing. *)
Lemma sort_of_sorted (l : list Memory) :
  Forall numeric l -> sorted_desc l -> sort byTimestampDesc l = l.
Proof.
  intros Hn Hs. induction Hs as [|x l Hs IH Hx]; [reflexivity|].
  inversion Hn as [|? ? Hnx Hnl]; subst.
  rewrite sort_keeps_head; [now rewrite IH|].
  intros y Hy. rewrite Forall_forall in Hx, Hnl.
  destruct (numeric_timestamp x Hnx) as [a Ea].
  destruct (numeric_timestamp y (Hnl y Hy)) as [b Eb].
  rewrite (comes_after_timestamps x y a b Ea Eb).
  specialize (Hx y Hy). unfold descending in Hx. rewrite Ea, Eb in Hx.
  cbn [num_le] in Hx. apply Z.leb_le in Hx. apply Z.ltb_ge. exact Hx.
Qed.

Lemma builds_record_memories (w : World) (s : State) :
  builds_record w s = true ->
  memories (handleAnalyze w s) = sort byTimestampDesc (created w s :: memories s).
Proof.
  intros H. pose proof (step_memories s (Create w)) as E.
  cbn [step] in E. now rewrite H in E.
Qed.

(** X13.  A creation drops nothing and puts the new record in by date:
    the new list is a rearrangement of the new record and the old list,
    one longer; and when the date of the form is well formed and the old
    list is sorted, dated records only, the new list is the old one with
    the new record put in behind the records of a later timestamp and in
    front of those of the same or an earlier one, nothing else moved. *)
Theorem new_record_is_placed_by_date :
  forall (w : World) (s : State),
    builds_record w s = true ->
    let s' := handleAnalyze w s in
    Permutation (memories s') (created w s :: memories s)
    /\ List.length (memories s') = S (List.length (memories s))
    /\ (malformed_date w (recordDate s) = false ->
        Forall numeric (memories s) -> sorted_desc (memories s) ->
        exists newer older,
          memories s = newer ++ older
          /\ memories s' = newer ++ created w s :: older
          /\ (forall m, In m newer ->
                num_lt (timestamp (created w s)) (timestamp m) = true)
          /\ (forall m, In m older ->
                num_le (timestamp m) (timestamp (created w s)) = true)).
Proof.
  intros w s Hb s'. unfold s'. rewrite (builds_record_memories w s Hb).
  split; [apply sort_Permutation|].
  split; [exact (Permutation_length
                   (sort_Permutation byTimestampDesc (created w s :: memories s)))|].
  intros Hd Hn Hs. cbn [sort]. rewrite (sort_of_sorted _ Hn Hs).
  assert (Hc : numeric (created w s)) by exact Hd.
  destruct (insert_splits (created w s) (memories s) Hc Hn)
    as [newer [older [E1 [E2 [H1 H2]]]]].
  exists newer, older. repeat split; try assumption.
  intros m Hm. rewrite E1 in Hs. apply sorted_desc_suffix in Hs.
  destruct older as [|y older]; [contradiction Hm|].
  destruct Hm as [<- | Hm]; [exact H2|].
  inversion Hs as [|? ? _ Hall]; subst. rewrite Forall_forall in Hall.
  specialize (Hall m Hm). unfold descending in Hall.
  destruct (timestamp m) as [tm|]; [|discriminate Hall].
  destruct (timestamp y) as [ty|]; [|discriminate Hall].
  destruct (timestamp (created w s)) as [tc|]; [|discriminate H2].
  cbn [num_le] in *. apply Z.leb_le in Hall, H2. apply Z.leb_le. lia.
Qed.

Lemma new_record_is_placed_by_date_witness :
  let s := step one_record
             (FillForm "2023-11-12" "Moon River" "Sample Artist" EmptyString 0) in
  List.length (memories (handleAnalyze (later 60000 offline) s)) = 2%nat
  /\ exists newer older,
       memories s = newer ++ older
       /\ memories (handleAnalyze (later 60000 offline) s)
          = newer ++ created (later 60000 offline) s :: older.
Proof.
  intros s.
  destruct (new_record_is_placed_by_date (later 60000 offline) s) as [_ [L P]].
  - vm_compute. reflexivity.
  - split; [exact L|].
    destruct P as [newer [older [E1 [E2 _]]]].
    + vm_compute. reflexivity.
    + unfold s. evaluate_list. repeat constructor.
    + unfold sorted_desc.
      match goal with
      | |- StronglySorted _ ?l => let l' := eval vm_compute in l in change l with l'
      end.
      repeat constructor.
    + exists newer, older. split; assumption.
Defined.

(** ** Identifiers in the list *)

Lemma produced_ids_NoDup (actions : list Action) :
  forall s, NoDup (clock_readings actions) ->
            NoDup (map Types.id (produced s actions)).
Proof.
  induction actions as [|a actions IH]; intros s Hnd; simpl; [constructor|].
  assert (Hrest : NoDup (clock_readings actions))
    by (destruct a; simpl in Hnd; try assumption; now inversion Hnd).
  destruct a as [w|w j|w j b|d t a x m|t|l]; simpl; try (apply IH, Hrest).
  destruct (builds_record w s); simpl; [|apply IH, Hrest].
  constructor; [|apply IH, Hrest].
  intros Hin. apply produced_ids in Hin. destruct Hin as [t [Ht E]].
  change (toString (now w) = toString t) in E.
  apply toString_inj in E. subst t.
  simpl in Hnd. inversion Hnd as [|? ? Hn _]; subst. contradiction.
Qed.

Lemma NoDup_app_sub (A : Type) (l l' r : list A) :
  (forall x, In x l' -> In x l) -> NoDup l' ->
  NoDup (l ++ r) -> NoDup (l' ++ r).
Proof.
  intros Hsub Hl' H.
  induction l' as [|x l' IH]; [cbn; eapply NoDup_app_remove_l, H|].
  inversion Hl' as [|? ? Hx Hr]; subst. cbn. constructor.
  - intros Hin. apply in_app_or in Hin. destruct Hin as [Hin | Hin]; [contradiction|].
    assert (Hxl : In x l) by (apply Hsub; now left).
    clear - H Hin Hxl. induction l as [|y l IH]; [contradiction Hxl|].
    cbn in H. inversion H as [|? ? Hy Hrest]; subst.
    destruct Hxl as [-> | Hxl]; [apply Hy, in_or_app; now right | now apply IH].
  - apply IH; [intros y Hy; apply Hsub; now right | exact Hr].
Qed.

Lemma NoDup_map_In_eq (A B : Type) (f : A -> B) (l : list A) (x y : A) :
  NoDup (map f l) -> In x l -> In y l -> f x = f y -> x = y.
Proof.
  induction l as [|a l IH]; intros H Hx Hy E; [contradiction Hx|].
  cbn [map] in H. inversion H as [|? ? Hn Hr]; subst.
  destruct Hx as [-> | Hx]; destruct Hy as [-> | Hy]; try reflexivity.
  - exfalso. apply Hn. rewrite E. now apply in_map.
  - exfalso. apply Hn. rewrite <- E. now apply in_map.
  - now apply IH.
Qed.

Lemma run_ids_NoDup (actions : list Action) :
  forall s,
    NoDup (map Types.id (memories s) ++ map Types.id (produced s actions)) ->
    NoDup (map Types.id (memories (run s actions))).
Proof.
  induction actions as [|a actions IH]; intros s H.
  - cbn in H. rewrite List.app_nil_r in H. exact H.
  - cbn [run fold_left]. apply IH. rewrite step_memories.
    cbn [produced] in H.
    destruct a as [w|w j|w j b|d t a x m|t|l]; cbn [app] in H |- *; try exact H.
    + destruct (builds_record w s); [|exact H].
      cbn [app map] in H.
      refine (Permutation_NoDup _ H).
      etransitivity; [apply Permutation_sym, Permutation_middle|].
      rewrite app_comm_cons.
      apply Permutation_app_tail.
      apply (Permutation_map Types.id (l := created w s :: memories s)).
      apply Permutation_sym, sort_Permutation.
    + apply NoDup_app_sub with (l := map Types.id (memories s)); [| |exact H].
      * intros i Hi. apply in_map_iff in Hi. destruct Hi as [m [E Hm]].
        apply filter_In in Hm. apply in_map_iff. exists m. split; [exact E | apply Hm].
      * apply filter_id_NoDup. eapply NoDup_app_remove_r, H.
    + rewrite feedback_ids. exact H.
Qed.

(** X14.  The ids of the list are distinct as long as the clock is: in a
    session that starts from the empty list and whose creations read
    distinct values of the clock, no two records of the list have the
    same id, whatever is deleted and marked in between.  Then a deletion
    removes at most one record, and a verdict lands on at most one. *)
Theorem listed_ids_distinct_when_clock_readings_distinct :
  forall (s0 : State) (actions : list Action),
    memories s0 = [] ->
    NoDup (clock_readings actions) ->
    let s := run s0 actions in
    NoDup (map Types.id (memories s))
    /\ (forall w id,
          (List.length (memories s)
           <= S (List.length (memories (fst (deleteMemory w id s)))))%nat)
    /\ (forall w id isCorrect m1 m2,
          In m1 (memories (fst (handleFeedback w id isCorrect s))) ->
          In m2 (memories (fst (handleFeedback w id isCorrect s))) ->
          Types.id m1 = id -> Types.id m2 = id -> m1 = m2).
Proof.
  intros s0 actions Hempty Hnd s.
  assert (H : NoDup (map Types.id (memories s))).
  { apply run_ids_NoDup. rewrite Hempty. cbn [map app].
    apply produced_ids_NoDup, Hnd. }
  split; [exact H|]. split.
  - intros w id. rewrite deleteMemory_memories. apply filter_id_length_le, H.
  - intros w id b m1 m2 H1 H2 E1 E2.
    pose proof (feedback_ids id b (memories s)) as Eids.
    rewrite <- handleFeedback_memories with (w := w) in Eids.
    rewrite <- Eids in H.
    apply (NoDup_map_In_eq _ _ _ _ _ _ H H1 H2). now rewrite E1, E2.
Qed.

Lemma listed_ids_distinct_when_clock_readings_distinct_witness :
  let session :=
    [ FillForm "2023-11-10" "Fly Me to the Moon" "Sample Artist" EmptyString 30;
      Create offline;
      FillForm "2023-11-12" "Moon River" "Sample Artist" EmptyString 0;
      Create (later 60000 offline);
      SetFeedback offline "1700000000000" true ] in
  NoDup (map Types.id (memories (run just_mounted session))).
Proof.
  intros session.
  refine (proj1 (listed_ids_distinct_when_clock_readings_distinct
                   just_mounted session eq_refl _)).
  simpl. constructor; [simpl; intros [E | []]; discriminate E|].
  constructor; [simpl; tauto | constructor].
Defined.

(* ================================================================== *)
(** * Part XVII. The slot and the list                                  *)
(* ================================================================== *)

Lemma builds_record_split (w : World) (s : State) :
  builds_record w s = true <-> submittable s = true /\ analysis_for w s <> VNull.
Proof.
  unfold builds_record. rewrite andb_true_iff.
  destruct (analysis_for w s); intuition congruence.
Qed.

(** The slot after an action whose write succeeds. *)
Lemma step_storage (s : State) (a : Action) :
  match action_world a with
  | Some w => setItem_throws w = false
  | None => True
  end ->
  storage (step s a) =
    match a with
    | Create w =>
        if builds_record w s
        then Some (JSON.stringify (memories_to_value (memories (step s a))))
        else storage s
    | Delete _ _ | SetFeedback _ _ _ =>
        Some (JSON.stringify (memories_to_value (memories (step s a))))
    | _ => storage s
    end.
Proof.
  destruct a as [w|w i|w i b|d t a x m|t|l]; cbn [action_world]; intros Hw;
    try reflexivity.
  - cbn [step]. destruct (builds_record w s) eqn:Hb.
    + rewrite (builds_record_memories w s Hb).
      apply builds_record_split in Hb. destruct Hb as [Hs Hn].
      rewrite (handleAnalyze_storage w s Hs), Hw.
      destruct (analysis_for w s); congruence.
    + unfold builds_record in Hb. destruct (submittable s) eqn:Hs.
      * rewrite (handleAnalyze_storage w s Hs).
        destruct (analysis_for w s); try discriminate Hb. reflexivity.
      * now rewrite handleAnalyze_blank.
  - cbn [step]. unfold deleteMemory, saveMemories, setItem, bind, exec.
    rewrite Hw. reflexivity.
  - cbn [step]. unfold handleFeedback, saveMemories, setItem, bind, exec.
    rewrite Hw. reflexivity.
  - cbn [step]. unfold toggleTag.
    destruct (includes (selectedTags s) t); [reflexivity|].
    destruct (List.length (selectedTags s) <? 3)%nat; reflexivity.
Qed.

Lemma step_mirrored (s : State) (a : Action) :
  match action_world a with
  | Some w => setItem_throws w = false
  | None => True
  end ->
  mirrored s -> mirrored (step s a).
Proof.
  intros Hw Hm. unfold mirrored. rewrite (step_storage s a Hw).
  destruct a as [w|w i|w i b|d t a x m|t|l];
    try (right; reflexivity);
    try (rewrite step_memories; exact Hm).
  destruct (builds_record w s) eqn:Hb; [right; reflexivity|].
  rewrite step_memories, Hb. exact Hm.
Qed.

Lemma run_mirrored (actions : list Action) :
  forall s0, writes_succeed actions -> mirrored s0 -> mirrored (run s0 actions).
Proof.
  induction actions as [|a actions IH]; intros s0 Hw M0; [exact M0|].
  inversion Hw as [|? ? Ha Hrest]; subst.
  cbn [run fold_left]. apply IH; [exact Hrest|]. apply step_mirrored; assumption.
Qed.

Lemma run_numeric (actions : list Action) :
  forall s0, dates_well_formed s0 actions ->
             Forall numeric (memories s0) /\ sorted_desc (memories s0) ->
             Forall numeric (memories (run s0 actions)).
Proof.
  induction actions as [|a actions IH]; intros s0 Hd I0; [apply I0|].
  destruct Hd as [Ha Hrest]. cbn [run fold_left].
  apply IH; [exact Hrest|]. apply step_keeps_order; assumption.
Qed.

Lemma reload_of_saved (ms : list Memory) :
  Forall numeric ms -> Forall analysis_is_json ms ->
  as_memories (memories_after_mount (Some (JSON.stringify (memories_to_value ms))))
  = Some ms.
Proof.
  intros Hnum Han.
  destruct (memories_json_data ms Hnum Han) as [H1 H2].
  unfold memories_after_mount, loadMemories.
  rewrite (parse_stringify _ H1 H2). cbn [falsy stringify memories_to_value].
  apply as_memories_to_value.
Qed.

(** ** Replies that the model reads as the platform does *)

Lemma exact_numbers_NoNaN : forall v, exact_numbers v -> NoNaN v.
Proof.
  fix IH 1. intros [|b|[z|]|t|l|l]; cbn; try tauto.
  - induction l as [|x l IHl]; [tauto|].
    intros [H1 H2]. split; [apply IH, H1 | apply IHl, H2].
  - induction l as [|x l IHl]; [tauto|].
    intros [H1 H2]. split; [apply IH, H1 | apply IHl, H2].
Qed.

(** The analysis of a run whose reply is in scope is JSON data: the
    fallback, or the value that the reply parses to. *)
Lemma analysis_for_in_scope (w : World) (s : State) :
  reply_in_scope w -> json_data (analysis_for w s).
Proof.
  unfold reply_in_scope, analysis_for, analyzeMemory.
  assert (F : json_data (fallback (language s))).
  { destruct (language s); split; cbn; repeat split; try exact I; distinct_strings. }
  destruct (analysis_reply w) as [|[text|]]; cbn [fst]; try (intros _; exact F).
  intros [-> | [v [Ev Hv]]]; [exact F|].
  destruct (falsy text); cbn [fst]; [exact F|].
  rewrite Ev. cbn [fst]. split.
  - apply exact_numbers_NoNaN, Hv.
  - apply (parse_json_data text v Ev).
Qed.

Lemma session_records_in_scope (actions : list Action) :
  forall s0,
    replies_in_scope actions ->
    Forall analysis_is_json (memories s0) ->
    Forall analysis_is_json (memories (run s0 actions)).
Proof.
  induction actions as [|a actions IH]; intros s0 Hsc H0; [exact H0|].
  inversion Hsc as [|? ? Ha Hrest]; subst.
  cbn [run fold_left]. apply IH; [exact Hrest|]. rewrite step_memories.
  destruct a as [w|w i|w i b|d t a x m|t|l]; try exact H0.
  - destruct (builds_record w s0); [|exact H0].
    eapply Permutation_Forall; [apply Permutation_sym, sort_Permutation|].
    constructor; [apply analysis_for_in_scope, Ha | exact H0].
  - rewrite Forall_forall in *. intros m Hm. apply filter_In in Hm. apply H0, Hm.
  - rewrite Forall_forall in *. intros m Hm.
    apply in_map_iff in Hm. destruct Hm as [m' [<- Hm']].
    specialize (H0 m' Hm'). destruct (String.eqb (Types.id m') i); exact H0.
Qed.

(** X15.  A session survives a reload.  Start from the empty list and
    the empty slot; create, delete, mark, fill in and toggle in any
    order, no write failing.  Then the slot and the list agree at every
    point: nothing was written and the list is empty, or the slot holds
    the text of the list.  When moreover every creation is made with a
    well-formed date and gets a reply of the analysis that is in scope
    (none, or a text read without fraction or exponent into a value
    whose numbers are held exactly), the effect that runs at mount on
    what the slot holds gives back the list as it is in memory: the same
    records, in the same order. *)
Theorem session_survives_reload :
  forall (s0 : State) (actions : list Action),
    memories s0 = [] -> storage s0 = None ->
    writes_succeed actions ->
    let s := run s0 actions in
    mirrored s
    /\ (dates_well_formed s0 actions ->
        replies_in_scope actions ->
        as_memories (memories_after_mount (storage s)) = Some (memories s)).
Proof.
  intros s0 actions Hempty Hslot Hw. cbv zeta.
  assert (Hm : mirrored (run s0 actions))
    by (apply run_mirrored; [exact Hw | left; split; assumption]).
  split; [exact Hm|]. intros Hd Hsc.
  assert (Hnum : Forall numeric (memories (run s0 actions)))
    by (apply run_numeric; [exact Hd | rewrite Hempty; split; constructor]).
  assert (Hjs : Forall analysis_is_json (memories (run s0 actions)))
    by (apply session_records_in_scope; [exact Hsc | rewrite Hempty; constructor]).
  destruct Hm as [[E1 E2] | E].
  - rewrite E1, E2. reflexivity.
  - rewrite E. apply reload_of_saved; assumption.
Qed.

Lemma session_survives_reload_witness :
  let session :=
    [ FillForm "2023-11-10" "Fly Me to the Moon" "Sample Artist" "la la" 30;
      ToggleTag "Nostalgic";
      Create offline;
      FillForm "2023-11-12" "Moon River" "Sample Artist" EmptyString (-20);
      Create (later 60000 answering);
      SetFeedback offline "1700000000000" true;
      Delete offline "1700000060000" ] in
  as_memories (memories_after_mount (storage (run just_mounted session)))
  = Some (memories (run just_mounted session)).
Proof.
  intros session.
  refine (proj2 (session_survives_reload just_mounted session eq_refl eq_refl _) _ _).
  - unfold writes_succeed, session.
    repeat (apply Forall_cons; [cbn; auto|]). apply Forall_nil.
  - vm_compute. repeat split; reflexivity.
  - unfold replies_in_scope, session.
    repeat (apply Forall_cons; [try exact I|]); [|apply Forall_nil].
    right. exists sample_reply. split; [vm_compute; reflexivity|].
    cbn. repeat split.
Defined.

(* ================================================================== *)
(** * Part XVIII. The form, the flags and the calls                     *)
(* ================================================================== *)

(** The form and the view after a run that saved its record. *)
Lemma handleAnalyze_saved (w : World) (s : State) :
  builds_record w s = true -> setItem_throws w = false ->
  recordDate (handleAnalyze w s) = getTodayString w
  /\ diaryText (handleAnalyze w s) = EmptyString
  /\ songTitle (handleAnalyze w s) = EmptyString
  /\ artistName (handleAnalyze w s) = EmptyString
  /\ moodScore (handleAnalyze w s) = 0
  /\ selectedTags (handleAnalyze w s) = []
  /\ language (handleAnalyze w s) = language s
  /\ currentDate (handleAnalyze w s) = currentDate s.
Proof.
  intros Hb Hw. apply builds_record_split in Hb. destruct Hb as [Hs Hn].
  revert Hn Hw. run_handleAnalyze Hs; intros Hn Hw; try congruence;
    repeat split; reflexivity.
Qed.

(** X16.  After a run of [handleAnalyze] that saved its record the form
    is empty again: the date is today's, the note, the title and the
    artist are empty, the mood is 0, no tag is selected; the language and
    the month of the calendar are as they were; no alert was shown; and
    pressing the save button again does nothing, whatever the world. *)
Theorem successful_save_resets_the_form :
  forall (w : World) (s : State),
    builds_record w s = true ->
    setItem_throws w = false ->
    let s' := handleAnalyze w s in
    (recordDate s' = getTodayString w /\ diaryText s' = EmptyString
     /\ songTitle s' = EmptyString /\ artistName s' = EmptyString
     /\ moodScore s' = 0 /\ selectedTags s' = [])
    /\ (language s' = language s /\ currentDate s' = currentDate s)
    /\ filter is_alert (new_events s s') = []
    /\ (forall w2, handleAnalyze w2 s' = s').
Proof.
  intros w s Hb Hw s'. unfold s'.
  destruct (handleAnalyze_saved w s Hb Hw)
    as [F1 [F2 [F3 [F4 [F5 [F6 [F7 F8]]]]]]].
  split; [repeat split; assumption|]. split; [split; assumption|]. split.
  - assert (Hs : submittable s = true) by (apply builds_record_split in Hb; apply Hb).
    rewrite (new_events_app s _ (run_events w s)) by (apply handleAnalyze_events, Hs).
    apply builds_record_split in Hb. destruct Hb as [_ Hn].
    unfold analysis_for in Hn. unfold run_events. rewrite Hw.
    destruct (analyzeMemory_events w (diaryText s) (mkSong (artistName s) (songTitle s))
                (moodScore s) (selectedTags s) (targetDate_of w (recordDate s))
                (language s)) as [Ha _].
    rewrite filter_app, Ha. cbn [app].
    destruct (fst (analyzeMemory w (diaryText s) (mkSong (artistName s) (songTitle s))
                     (moodScore s) (selectedTags s) (targetDate_of w (recordDate s))
                     (language s)));
      try (rewrite List.app_nil_r; apply generateMemoryImage_events).
    contradiction.
  - intros w2. apply handleAnalyze_blank. unfold submittable, blank.
    now rewrite F3.
Qed.

Lemma successful_save_resets_the_form_witness :
  songTitle (handleAnalyze answering form_filled) = EmptyString
  /\ recordDate (handleAnalyze answering form_filled) = "2023-11-15"
  /\ handleAnalyze offline (handleAnalyze answering form_filled)
     = handleAnalyze answering form_filled.
Proof.
  destruct (successful_save_resets_the_form answering form_filled)
    as [[F1 [_ [F3 _]]] [_ [_ F4]]].
  - vm_compute. reflexivity.
  - reflexivity.
  - split; [exact F3|]. split; [exact F1 | exact (F4 offline)].
Defined.

(** X17.  [handleReset] clears the form and nothing else.  When the
    user confirms, the note, the title and the artist are empty, the mood
    is 0, no tag is selected and the date is today's; the list, the slot,
    the log, the language, the month of the calendar and the two flags
    are as they were.  When the user does not confirm, nothing changes at
    all.  After a confirmed reset the save button does nothing, and the
    form is the one that a successful save leaves behind (a reset right
    after one changes nothing). *)
Theorem handleReset_clears_the_form_only :
  forall (w : World) (s : State) (confirmed : bool),
    let s' := handleReset w confirmed s in
    (memories s' = memories s /\ storage s' = storage s /\ events s' = events s
     /\ language s' = language s /\ currentDate s' = currentDate s
     /\ isAnalyzing s' = isAnalyzing s /\ loadingStep s' = loadingStep s)
    /\ (confirmed = false -> s' = s)
    /\ (confirmed = true ->
        (recordDate s' = getTodayString w /\ diaryText s' = EmptyString
         /\ songTitle s' = EmptyString /\ artistName s' = EmptyString
         /\ moodScore s' = 0 /\ selectedTags s' = [])
        /\ (forall w2, handleAnalyze w2 s' = s')
        /\ (builds_record w s = true -> setItem_throws w = false ->
            recordDate s' = recordDate (handleAnalyze w s)
            /\ diaryText s' = diaryText (handleAnalyze w s)
            /\ songTitle s' = songTitle (handleAnalyze w s)
            /\ artistName s' = artistName (handleAnalyze w s)
            /\ moodScore s' = moodScore (handleAnalyze w s)
            /\ selectedTags s' = selectedTags (handleAnalyze w s)
            /\ handleReset w true (handleAnalyze w s) = handleAnalyze w s)).
Proof.
  intros w s c s'. unfold s', handleReset. split; [destruct c; repeat split|].
  split; [intros ->; reflexivity|]. intros ->.
  split; [repeat split|]. split.
  - intros w2. apply handleAnalyze_blank. reflexivity.
  - intros Hb Hw.
    destruct (handleAnalyze_saved w s Hb Hw)
      as [F1 [F2 [F3 [F4 [F5 [F6 _]]]]]].
    rewrite F1, F2, F3, F4, F5, F6.
    do 6 (split; [reflexivity|]).
    destruct (handleAnalyze w s). cbn in F1, F2, F3, F4, F5, F6. subst.
    reflexivity.
Qed.

Lemma handleReset_clears_the_form_only_witness :
  (recordDate (handleReset offline true form_filled) = "2023-11-15"
   /\ songTitle (handleReset offline true form_filled) = EmptyString
   /\ moodScore (handleReset offline true form_filled) = 0)
  /\ handleAnalyze offline (handleReset offline true form_filled)
     = handleReset offline true form_filled
  /\ handleReset answering true (handleAnalyze answering form_filled)
     = handleAnalyze answering form_filled.
Proof.
  destruct (handleReset_clears_the_form_only offline form_filled true) as [_ [_ A]].
  destruct (handleReset_clears_the_form_only answering form_filled true) as [_ [_ B]].
  destruct (A eq_refl) as [[F1 [_ [F3 [_ [F5 _]]]]] [N _]].
  destruct (B eq_refl) as [_ [_ R]].
  split; [split; [exact F1 | split; [exact F3 | exact F5]]|].
  split; [exact (N offline)|].
  apply R; [vm_compute; reflexivity | reflexivity].
Defined.

(** The two flags after a run that is let through. *)
Lemma handleAnalyze_flags (w : World) (s : State) :
  submittable s = true ->
  isAnalyzing (handleAnalyze w s) = false
  /\ loadingStep (handleAnalyze w s) = EmptyString.
Proof.
  intros Hs. run_handleAnalyze Hs; split; reflexivity.
Qed.

Lemma step_flags (s : State) (a : Action) :
  isAnalyzing s = false /\ loadingStep s = EmptyString ->
  isAnalyzing (step s a) = false /\ loadingStep (step s a) = EmptyString.
Proof.
  intros H. destruct a as [w|w i|w i b|d t a x m|t|l]; cbn [step]; try exact H.
  - destruct (submittable s) eqn:Hs; [apply handleAnalyze_flags, Hs|].
    now rewrite handleAnalyze_blank.
  - unfold deleteMemory, saveMemories, setItem, bind, exec, throw.
    destruct (setItem_throws w); exact H.
  - unfold handleFeedback, saveMemories, setItem, bind, exec, throw.
    destruct (setItem_throws w); exact H.
  - unfold toggleTag. destruct (includes (selectedTags s) t); [exact H|].
    destruct (List.length (selectedTags s) <? 3)%nat; exact H.
Qed.

(** X18.  The busy flag never stays set.  A run of [handleAnalyze] that
    is let through ends with [isAnalyzing] false and the progress text
    empty, however it ends: saved, a provider reply that breaks it, a
    write that fails.  So after any session that started with the flag
    down, the flag is down. *)
Theorem busy_flag_is_cleared :
  (forall (w : World) (s : State),
     submittable s = true ->
     isAnalyzing (handleAnalyze w s) = false
     /\ loadingStep (handleAnalyze w s) = EmptyString)
  /\ (forall (s0 : State) (actions : list Action),
        isAnalyzing s0 = false -> loadingStep s0 = EmptyString ->
        isAnalyzing (run s0 actions) = false
        /\ loadingStep (run s0 actions) = EmptyString).
Proof.
  split; [exact handleAnalyze_flags|].
  intros s0 actions H1 H2.
  assert (H : isAnalyzing s0 = false /\ loadingStep s0 = EmptyString)
    by (split; assumption).
  clear H1 H2. revert s0 H.
  induction actions as [|a actions IH]; intros s0 H; [exact H|].
  cbn [run fold_left]. apply IH, step_flags, H.
Qed.

Lemma busy_flag_is_cleared_witness :
  isAnalyzing (handleAnalyze (mkWorld 32400000 1700000000000 (Resolved (Some "null"))
                                Rejected true)
                 (setIsAnalyzing true form_filled)) = false
  /\ isAnalyzing (run just_mounted [Create offline; ToggleTag "Calm"]) = false.
Proof.
  destruct busy_flag_is_cleared as [A B]. split.
  - apply A. reflexivity.
  - apply (B just_mounted [Create offline; ToggleTag "Calm"]); reflexivity.
Defined.

(** ** The provider *)

(** X19.  The provider calls of one submission: a run of
    [handleAnalyze] that is let through makes the analysis call once,
    with the form as it was when the button was pressed, and then the
    image call once, with the [imagePrompt] property of the analysis --
    except when the analysis is [null], where no image call is made.
    Nothing is retried. *)
Theorem provider_calls_per_submit :
  forall (w : World) (s : State),
    submittable s = true ->
    filter is_provider_call (new_events s (handleAnalyze w s))
    = CallAnalysis (diaryText s) (mkSong (artistName s) (songTitle s)) (moodScore s)
        (selectedTags s) (targetDate_of w (recordDate s)) (language s)
      :: match analysis_for w s with
         | VNull => []
         | a => [CallImage (prompt_of a)]
         end.
Proof.
  intros w s Hs.
  rewrite (new_events_app s _ (run_events w s)) by (apply handleAnalyze_events, Hs).
  unfold run_events, analysis_for.
  assert (Hi : forall p, filter is_provider_call (snd (generateMemoryImage w p))
                         = [CallImage p]).
  { intros p. unfold generateMemoryImage.
    destruct (image_reply w) as [|[parts|]]; try reflexivity.
    destruct (first_inline parts) as [[mt dat]|]; reflexivity. }
  assert (Ha : filter is_provider_call
                 (snd (analyzeMemory w (diaryText s) (mkSong (artistName s) (songTitle s))
                         (moodScore s) (selectedTags s) (targetDate_of w (recordDate s))
                         (language s)))
               = [CallAnalysis (diaryText s) (mkSong (artistName s) (songTitle s))
                    (moodScore s) (selectedTags s) (targetDate_of w (recordDate s))
                    (language s)]).
  { unfold analyzeMemory.
    destruct (analysis_reply w) as [|[text|]]; try reflexivity.
    destruct (falsy text); [reflexivity|].
    destruct (JSON.parse text); reflexivity. }
  rewrite filter_app, Ha. cbn [app]. f_equal.
  destruct (fst (analyzeMemory w (diaryText s) (mkSong (artistName s) (songTitle s))
                   (moodScore s) (selectedTags s) (targetDate_of w (recordDate s))
                   (language s)));
    try reflexivity;
    rewrite filter_app, Hi; destruct (setItem_throws w); reflexivity.
Qed.

Lemma provider_calls_per_submit_witness :
  filter is_provider_call (new_events form_filled (handleAnalyze answering form_filled))
  = [ CallAnalysis EmptyString (mkSong "Sample Artist" "Fly Me to the Moon") 30 []
        (mkDate (Num 1699542000000)) ja;
      CallImage (Some (VStr "soft blue waves")) ].
Proof.
  apply (provider_calls_per_submit answering form_filled). reflexivity.
Defined.

(** X20.  The reply of the analysis is stored as it parses.  When the
    reply has a text that parses to something other than [null], that
    value, whatever its shape, is the [analysis] of the record that
    reaches the list; its [imagePrompt] property (missing when the value
    is not an object that has one) is what the image is asked for; and
    the analysis logs no error. *)
Theorem reply_is_stored_as_parsed :
  forall (w : World) (s : State) (text : string) (v : value),
    submittable s = true ->
    analysis_reply w = Resolved (Some text) ->
    text <> EmptyString ->
    JSON.parse text = Some v ->
    v <> VNull ->
    analysis (created w s) = v
    /\ In (created w s) (memories (handleAnalyze w s))
    /\ In (CallImage (prompt_of v)) (new_events s (handleAnalyze w s))
    /\ ~ In (ConsoleError "Error analyzing memory:") (new_events s (handleAnalyze w s)).
Proof.
  intros w s text v Hs Hr Ht Hp Hv.
  assert (Ea : analyzeMemory w (diaryText s) (mkSong (artistName s) (songTitle s))
                 (moodScore s) (selectedTags s) (targetDate_of w (recordDate s))
                 (language s)
               = (v, [CallAnalysis (diaryText s) (mkSong (artistName s) (songTitle s))
                        (moodScore s) (selectedTags s) (targetDate_of w (recordDate s))
                        (language s)])).
  { unfold analyzeMemory. rewrite Hr, Hp. destruct text; [contradiction|reflexivity]. }
  assert (Ev : analysis_for w s = v) by (unfold analysis_for; now rewrite Ea).
  assert (Hb : builds_record w s = true) by (apply builds_record_split; split; congruence).
  split; [exact Ev|]. split.
  - rewrite (builds_record_memories w s Hb). apply sort_In. now left.
  - rewrite (new_events_app s _ (run_events w s)) by (apply handleAnalyze_events, Hs).
    unfold run_events. rewrite Ea. cbn [fst snd].
    assert (Hi : forall p, In (CallImage p) (snd (generateMemoryImage w p))
                           /\ ~ In (ConsoleError "Error analyzing memory:")
                                  (snd (generateMemoryImage w p))).
    { intros p. unfold generateMemoryImage.
      destruct (image_reply w) as [|[parts|]];
        try (split; [now left | intros [E | [E | []]]; discriminate E]).
      destruct (first_inline parts) as [[mt dat]|];
        (split; [now left|]); cbn [snd].
      - intros [E | []]; discriminate E.
      - intros [E | [E | []]]; discriminate E. }
    destruct (Hi (prompt_of v)) as [H1 H2].
    destruct v; try contradiction; cbn [app]; (split; [right; apply in_or_app; now left|]);
      (intros [E | E]; [discriminate E|]; apply in_app_or in E;
       destruct E as [E | E]; [contradiction|];
       destruct (setItem_throws w); cbn in E;
       repeat (destruct E as [E | E]; [discriminate E|]); exact E).
Qed.

Lemma reply_is_stored_as_parsed_witness :
  analysis (created answering form_filled) = sample_reply
  /\ analysis (created (mkWorld 32400000 1700000000000 (Resolved (Some "42")) Rejected false)
                 form_filled)
     = VNum (Num 42).
Proof.
  split.
  - refine (proj1 (reply_is_stored_as_parsed answering form_filled
                     (JSON.stringify sample_reply) sample_reply _ eq_refl _ _ _)).
    + reflexivity.
    + vm_compute. discriminate.
    + vm_compute. reflexivity.
    + discriminate.
  - refine (proj1 (reply_is_stored_as_parsed
                     (mkWorld 32400000 1700000000000 (Resolved (Some "42")) Rejected false)
                     form_filled "42" (VNum (Num 42)) _ eq_refl _ _ _)).
    + reflexivity.
    + discriminate.
    + vm_compute. reflexivity.
    + discriminate.
Defined.

(** X21.  What [generateMemoryImage] returns: the empty string exactly
    when the call fails (rejected, no parts, no part with inline data),
    and then the failure is logged; otherwise the data URL of the first
    part that has inline data, the parts before it having none, and
    nothing is logged.  The request goes out once in both cases. *)
Theorem generateMemoryImage_result :
  forall (w : World) (prompt : option value),
    (fst (generateMemoryImage w prompt) = EmptyString <-> image_fails w = true)
    /\ (image_fails w = true ->
        snd (generateMemoryImage w prompt)
        = [CallImage prompt; ConsoleError "Error generating image:"])
    /\ (image_fails w = false ->
        exists before mimeType data rest,
          image_reply w = Resolved (Some (before ++ Some (mimeType, data) :: rest))
          /\ Forall (fun p => p = None) before
          /\ fst (generateMemoryImage w prompt)
             = ("data:" ++ mimeType ++ ";base64," ++ data)%string
          /\ snd (generateMemoryImage w prompt) = [CallImage prompt]).
Proof.
  intros w prompt.
  assert (F : forall parts mt dat,
             first_inline parts = Some (mt, dat) ->
             exists before rest,
               parts = before ++ Some (mt, dat) :: rest
               /\ Forall (fun p => p = None) before).
  { induction parts as [|p parts IH]; intros mt dat H; [discriminate H|].
    destruct p as [d|]; cbn [first_inline] in H.
    - injection H as ->. exists [], parts. split; [reflexivity | constructor].
    - destruct (IH mt dat H) as [before [rest [E Hb]]].
      exists (None :: before), rest. split; [now rewrite E | now constructor]. }
  unfold generateMemoryImage, image_fails.
  destruct (image_reply w) as [|[parts|]];
    try (split; [split; reflexivity | split; [reflexivity | discriminate]]).
  destruct (first_inline parts) as [[mt dat]|] eqn:E;
    [|split; [split; reflexivity | split; [reflexivity | discriminate]]].
  cbn [fst snd]. split; [split; discriminate|]. split; [discriminate|].
  intros _. destruct (F parts mt dat E) as [before [rest [-> Hb]]].
  exists before, mt, dat, rest. repeat split. exact Hb.
Qed.

Lemma generateMemoryImage_result_witness :
  fst (generateMemoryImage answering None) = "data:image/png;base64,AAAA"
  /\ fst (generateMemoryImage offline None) = EmptyString.
Proof.
  destruct (generateMemoryImage_result offline None) as [A _].
  split; [reflexivity|]. apply A. reflexivity.
Defined.

(* ================================================================== *)
(** * Part XIX. Tags                                                    *)
(* ================================================================== *)

Lemma filter_tag_absent (tag : string) (l : list string) :
  ~ In tag l -> filter (fun t => negb (String.eqb t tag)) l = l.
Proof.
  induction l as [|x l IH]; intros H; [reflexivity|].
  cbn [filter]. destruct (String.eqb_spec x tag) as [E | E].
  - exfalso. apply H. now left.
  - cbn [negb]. f_equal. apply IH. intros Hin. apply H. now right.
Qed.

Lemma toggleTag_NoDup (tag : string) (s : State) :
  NoDup (selectedTags s) -> NoDup (selectedTags (toggleTag tag s)).
Proof.
  intros H. unfold toggleTag.
  destruct (includes (selectedTags s) tag) eqn:E.
  - cbn [selectedTags setSelectedTags]. apply NoDup_filter, H.
  - destruct (List.length (selectedTags s) <? 3)%nat; [|exact H].
    cbn [selectedTags setSelectedTags].
    apply NoDup_app; [exact H | constructor; [intros [] | constructor] |].
    intros x Hx [<- | []].
    apply includes_In in Hx. congruence.
Qed.

(** X22.  The selected tags stay distinct: [toggleTag] on a selection
    without repeats gives one without repeats, and so does any number of
    toggles.  Toggling a tag that is selected takes out that one entry
    and leaves the others in their order; toggling a tag that is not
    selected, with room left, and toggling it again, restores the
    state. *)
Theorem toggleTag_keeps_tags_distinct :
  forall (s : State) (tag : string),
    NoDup (selectedTags s) ->
    NoDup (selectedTags (toggleTag tag s))
    /\ (~ In tag (selectedTags s) -> (List.length (selectedTags s) < 3)%nat ->
        toggleTag tag (toggleTag tag s) = s)
    /\ (In tag (selectedTags s) ->
        exists before rest,
          selectedTags s = before ++ tag :: rest
          /\ selectedTags (toggleTag tag s) = before ++ rest)
    /\ (forall tags, NoDup (selectedTags (run s (map ToggleTag tags)))).
Proof.
  intros s tag H. split; [apply toggleTag_NoDup, H|]. split; [|split].
  - intros Hn Hl. unfold toggleTag at 2.
    assert (E : includes (selectedTags s) tag = false).
    { destruct (includes (selectedTags s) tag) eqn:E; [|reflexivity].
      apply includes_In in E. contradiction. }
    rewrite E. apply Nat.ltb_lt in Hl. rewrite Hl.
    unfold toggleTag. cbn [selectedTags setSelectedTags].
    assert (E2 : includes (selectedTags s ++ [tag]) tag = true)
      by (apply includes_In, in_or_app; right; now left).
    rewrite E2, filter_app, (filter_tag_absent tag _ Hn).
    cbn [filter]. rewrite String.eqb_refl. cbn [negb]. rewrite List.app_nil_r.
    destruct s; reflexivity.
  - intros Hin. unfold toggleTag.
    assert (E : includes (selectedTags s) tag = true) by (apply includes_In, Hin).
    rewrite E. cbn [selectedTags setSelectedTags].
    apply in_split in Hin. destruct Hin as [before [rest Es]].
    exists before, rest. split; [exact Es|]. rewrite Es in H |- *.
    apply NoDup_remove_2 in H.
    rewrite filter_app. cbn [filter]. rewrite String.eqb_refl. cbn [negb].
    rewrite <- filter_app. apply filter_tag_absent, H.
  - intros tags. revert s H. induction tags as [|t tags IH]; intros s H; [exact H|].
    cbn [map run fold_left step]. apply IH, toggleTag_NoDup, H.
Qed.

Lemma toggleTag_keeps_tags_distinct_witness :
  toggleTag "Relax" (toggleTag "Relax" just_mounted) = just_mounted
  /\ NoDup (selectedTags (run just_mounted
                            (map ToggleTag ["Relax"; "Calm"; "Relax"; "Blue"; "Calm"]))).
Proof.
  destruct (toggleTag_keeps_tags_distinct just_mounted "Relax") as [_ [A [_ B]]].
  - constructor.
  - split; [|apply B].
    apply A; [intros [] | cbn; lia].
Defined.

(** ** Tags and the language *)

(** No label of one language is a label of the other. *)
Lemma labels_differ_across_languages (a b : TagDefinition) :
  In a EMOTION_TAGS -> In b EMOTION_TAGS -> label a ja <> label b en.
Proof.
  intros Ha Hb.
  assert (H : forallb (fun a => forallb (fun b => negb (String.eqb (label a ja) (label b en)))
                                  EMOTION_TAGS) EMOTION_TAGS = true)
    by (vm_compute; reflexivity).
  rewrite forallb_forall in H. specialize (H a Ha).
  rewrite forallb_forall in H. specialize (H b Hb).
  apply negb_true_iff in H. now apply String.eqb_neq.
Qed.

Lemma labels_differ (a b : TagDefinition) (l l' : Language) :
  In a EMOTION_TAGS -> In b EMOTION_TAGS -> l <> l' -> label a l <> label b l'.
Proof.
  intros Ha Hb Hl. destruct l, l'; try contradiction.
  - now apply labels_differ_across_languages.
  - intros E. symmetry in E. revert E. now apply labels_differ_across_languages.
Qed.

(** X23.  Tags picked in one language stay selected, out of sight, in
    the other.  The selection holds labels, and the buttons look up the
    label of the language of the moment.  So after a switch of language,
    with tags of the old language selected: the selection is unchanged;
    no button is drawn as selected; and pressing the button of any tag,
    one already picked included, removes nothing -- it adds the label of
    the new language when fewer than three are selected, and does
    nothing otherwise. *)
Theorem tags_of_the_other_language_stay_selected :
  forall (s : State) (l : Language) (tagDef : TagDefinition),
    In tagDef EMOTION_TAGS ->
    l <> language s ->
    Forall (fun t => exists d, In d EMOTION_TAGS /\ t = label d (language s))
      (selectedTags s) ->
    let s' := setLanguage l s in
    selectedTags s' = selectedTags s
    /\ drawn_selected tagDef s' = false
    /\ selectedTags (pressTag tagDef s')
       = (if (List.length (selectedTags s) <? 3)%nat
          then selectedTags s ++ [label tagDef l]
          else selectedTags s)
    /\ (forall t, In t (selectedTags s) -> In t (selectedTags (pressTag tagDef s'))).
Proof.
  intros s l td Htd Hl Hsel s'.
  assert (E : includes (selectedTags s) (label td l) = false).
  { destruct (includes (selectedTags s) (label td l)) eqn:E; [|reflexivity].
    apply includes_In in E. rewrite Forall_forall in Hsel.
    destruct (Hsel _ E) as [d [Hd Ed]]. exfalso.
    revert Ed. now apply labels_differ. }
  split; [reflexivity|]. split; [exact E|].
  assert (P : selectedTags (pressTag td s')
              = (if (List.length (selectedTags s) <? 3)%nat
                 then selectedTags s ++ [label td l]
                 else selectedTags s)).
  { unfold pressTag, toggleTag, s'. cbn [language selectedTags setLanguage].
    rewrite E. destruct (List.length (selectedTags s) <? 3)%nat; reflexivity. }
  split; [exact P|].
  intros m Hm. rewrite P.
  destruct (List.length (selectedTags s) <? 3)%nat; [|exact Hm].
  apply in_or_app. now left.
Qed.

Lemma tags_of_the_other_language_stay_selected_witness :
  let relax := mkTag "relax" (both "リラックス" "Relax") in
  selectedTags (pressTag relax just_mounted) = ["リラックス"]
  /\ drawn_selected relax (setLanguage en (pressTag relax just_mounted)) = false
  /\ selectedTags (pressTag relax (setLanguage en (pressTag relax just_mounted)))
     = ["リラックス"; "Relax"].
Proof.
  intros relax.
  destruct (tags_of_the_other_language_stay_selected (pressTag relax just_mounted)
              en relax) as [_ [A [B _]]].
  - left. reflexivity.
  - discriminate.
  - constructor; [|constructor]. exists relax. split; [left|]; reflexivity.
  - split; [reflexivity|]. split; [exact A | exact B].
Defined.
